(** * DHCPv4 codec of the FreeRADIUS server: src/lib/dhcp.c

    A shallow embedding of [fr_dhcp_recv], [fr_dhcp_decode], [attr_cmp],
    [fr_dhcp_vp2attr] and [fr_dhcp_encode], and the properties of the
    wire format, the attribute list and the reply routing that the
    specification states about them.

    Conventions.
    - A byte is a [Z] in 0..255; a buffer is a [list Z]; an offset into a
      buffer is a [nat].
    - Every memory access goes through a checked primitive.  A function
      that C would leave through [return -1] / [return NULL] yields [Err];
      an access outside the object it addresses, or through a NULL
      pointer, yields [Fault].
    - Diagnostics ([fprintf], [librad_log], the [librad_debug] dumps) have
      no effect on the data and are left out. *)

From Stdlib Require Import ZArith String Lia Sorted.
From stdpp Require Import base list strings.

Set Default Proof Using "Type".

(** ** Outcomes *)

Inductive result (A : Type) : Type :=
  | Ok (a : A)
  | Err
  | Fault
  | OutOfFuel.
Arguments Ok {A} a.
Arguments Err {A}.
Arguments Fault {A}.
Arguments OutOfFuel {A}.

Global Instance result_bind : MBind result := λ A B k m,
  match m with
  | Ok a => k a
  | Err => Err
  | Fault => Fault
  | OutOfFuel => OutOfFuel
  end.

(** ** Checked memory primitives *)

(** [buf[i]] *)
Definition rd (buf : list Z) (i : nat) : result Z :=
  match buf !! i with
  | Some b => Ok b
  | None => Fault
  end.

(** the [n] bytes at [buf + i] (source of a [memcpy]) *)
Definition rdn (buf : list Z) (i n : nat) : result (list Z) :=
  if decide (i + n ≤ length buf) then Ok (take n (drop i buf)) else Fault.

(** [buf[i] = b] *)
Definition wr (buf : list Z) (i : nat) (b : Z) : result (list Z) :=
  if decide (i < length buf) then Ok (<[i:=b]> buf) else Fault.

(** [memcpy(buf + i, bs, length bs)] *)
Definition wrn (buf : list Z) (i : nat) (bs : list Z) : result (list Z) :=
  if decide (i + length bs ≤ length buf) then Ok (list_inserts i bs buf)
  else Fault.

Definition zeros (n : nat) : list Z := replicate n 0%Z.

(** ** Integers in memory

    [uint16_t] and [uint32_t] objects that overlay wire bytes depend on
    the byte order of the host. *)

Class platform := { big_endian : bool }.

Definition be_val (bs : list Z) : Z :=
  fold_left (fun acc b => (acc * 256 + b)%Z) bs 0%Z.

Definition be_bytes (n : nat) (x : Z) : list Z :=
  rev (map (fun k => (Z.shiftr x (8 * Z.of_nat k) `mod` 256)%Z) (seq 0 n)).

Section Host.
Context `{platform}.

(** value of an integer object whose storage holds [bs] *)
Definition host_val (bs : list Z) : Z :=
  if big_endian then be_val bs else be_val (rev bs).

(** storage of a 32-bit / 16-bit integer object of value [x] *)
Definition host_bytes (n : nat) (x : Z) : list Z :=
  if big_endian then be_bytes n x else rev (be_bytes n x).

Definition ntohl (x : Z) : Z := be_val (host_bytes 4 x).
Definition htonl (x : Z) : Z := host_val (be_bytes 4 x).

End Host.

(** ** Constants of dhcp.c *)

Definition DHCP_CHADDR_LEN : nat := 16.
Definition DHCP_SNAME_LEN : nat := 64.
Definition DHCP_FILE_LEN : nat := 128.
Definition DHCP_OPTION_MAGIC_NUMBER : Z := 0x63825363.

Definition MIN_PACKET_SIZE : nat := 244.
Definition DEFAULT_PACKET_SIZE : nat := 576.
Definition MAX_PACKET_SIZE : nat := 1500 - 40.

Definition INADDR_ANY : Z := 0.
Definition INADDR_BROADCAST : Z := 0xffffffff.

Definition dhcp_header_names : list string :=
  [ "DHCP-Opcode"; "DHCP-Hardware-Type"; "DHCP-Hardware-Address-Length";
    "DHCP-Hop-Count"; "DHCP-Transaction-Id"; "DHCP-Number-of-Seconds";
    "DHCP-Flags"; "DHCP-Client-IP-Address"; "DHCP-Your-IP-Address";
    "DHCP-Server-IP-Address"; "DHCP-Gateway-IP-Address";
    "DHCP-Client-Hardware-Address"; "DHCP-Server-Host-Name";
    "DHCP-Boot-Filename" ]%string.

Definition dhcp_header_sizes : list nat :=
  [ 1; 1; 1; 1; 4; 2; 2; 4; 4; 4; 4;
    DHCP_CHADDR_LEN; DHCP_SNAME_LEN; DHCP_FILE_LEN ].

(** ** Types of libradius.h *)

(** Modelled from the spec: libradius.h is not among the sources.  The
    attribute types are the ones the spec's Attribute Descriptor lists
    (BYTE, SHORT, INTEGER, IPADDR, DATE, STRING, OCTETS, ETHERNET); the
    remaining constructors stand for the types dhcp.c sends to its
    [default:] branches. *)
Inductive PW_TYPE : Type :=
  | PW_TYPE_STRING | PW_TYPE_INTEGER | PW_TYPE_IPADDR | PW_TYPE_DATE
  | PW_TYPE_ABINARY | PW_TYPE_OCTETS | PW_TYPE_IFID | PW_TYPE_IPV6ADDR
  | PW_TYPE_IPV6PREFIX | PW_TYPE_BYTE | PW_TYPE_SHORT | PW_TYPE_ETHERNET
  | PW_TYPE_SIGNED | PW_TYPE_COMBO_IP | PW_TYPE_TLV.

Global Instance PW_TYPE_eq_dec : EqDecision PW_TYPE.
Proof. solve_decision. Defined.

(** Modelled from the spec: size of the value buffer of a pair; the spec
    bounds a payload by 253 bytes and dhcp.c notes
    [sizeof(vp->vp_octets) < 255]. *)
Definition MAX_STRING_LEN : nat := 254.

(** Modelled from the spec: the attribute triple [{code, type_tag,
    payload}].  dhcp.c reaches the numeric payload as [lvalue],
    [vp_integer] and [vp_ipaddr] (one member) and the byte payload as
    [vp_strvalue], [vp_octets] and [vp_ether] (one buffer of
    [MAX_STRING_LEN] bytes).  The C field [length] is [vp_length] here. *)
Record VALUE_PAIR : Type := mkVP {
  name : string;
  attribute : Z;
  type : PW_TYPE;
  vp_length : nat;
  lvalue : Z;
  vp_octets : list Z
}.

(** Modelled from the spec: the attribute descriptor [{name, type,
    array}] the dictionary resolves a code to, with the code itself. *)
Record DICT_ATTR : Type := mkDA {
  da_name : string;
  attr : Z;
  da_type : PW_TYPE;
  flags_array : bool
}.

(** Modelled from the spec: the dictionary service,
    [lookup(code) → Option<{name, type, array}>], and the lookup by name
    that [pairmake] performs. *)
Class dictionary := {
  dict_attrbyvalue : Z → option DICT_ATTR;
  dict_attrbyname : string → option DICT_ATTR
}.

Record fr_ipaddr_t : Type := mkIP { af : Z; s_addr : Z }.

(** Modelled from the spec: the Wire Buffer, "a current length, the
    source and destination sockaddrs, and the socket handle", with the
    request identifier, the message code, the 16-byte vector and the
    attribute list that dhcp.c reads and writes.  [data] holds the
    [data_len] bytes of the datagram; [None] is a NULL [data]. *)
Record RADIUS_PACKET : Type := mkPacket {
  sockfd : Z;
  src_ipaddr : fr_ipaddr_t;
  dst_ipaddr : fr_ipaddr_t;
  src_port : Z;
  dst_port : Z;
  id : Z;
  code : Z;
  vector : list Z;
  data : option (list Z);
  data_len : nat;
  vps : list VALUE_PAIR
}.

(** [rad_alloc(0)]: a zeroed packet. *)
Definition rad_alloc0 : RADIUS_PACKET :=
  {| sockfd := 0; src_ipaddr := mkIP 0 0; dst_ipaddr := mkIP 0 0;
     src_port := 0; dst_port := 0; id := 0; code := 0;
     vector := zeros 16; data := None; data_len := 0; vps := [] |}.

(** Macros and constants of dhcp.h, which is not among the sources: they
    are parameters of the development. *)
Class dhcp_h := {
  PW_DHCP_OFFSET : Z;
  PW_DHCP_NAK : Z;
  PW_DHCP_OPTION_82 : Z;
  PW_CLEARTEXT_PASSWORD : Z;
  AF_INET : Z;
  DHCP2ATTR : Z → Z;
  IS_DHCP_ATTR : VALUE_PAIR → bool;
  DHCP_BASE_ATTR : Z → Z;
  DHCP_UNPACK_OPTION1 : Z → Z
}.

Definition is_byte (b : Z) : Prop := (0 ≤ b < 256)%Z.

Global Instance is_byte_dec b : Decision (is_byte b).
Proof. unfold is_byte. apply _. Defined.

(** ** fr_dhcp_recv (dhcp.c, lines 116-268) *)

Section Recv.
Context `{platform} `{dhcp_h}.

(** [rcv] is what [recvfrom] delivers: [None] when it fails, otherwise
    the datagram, of which [MAX_PACKET_SIZE] bytes at most are stored.
    [si] and [port] are what [getsockname] and [fr_sockaddr2ipaddr]
    report for the socket.  [Err] stands for the NULL result. *)
Definition fr_dhcp_recv (fd : Z) (rcv : option (list Z))
    (si : fr_ipaddr_t) (port : Z) : result RADIUS_PACKET :=
  match rcv with
  | None => Err
  | Some dgram =>
    let d := take MAX_PACKET_SIZE dgram in
    let len := length d in
    if decide (len ≤ 0) then Err else
    if decide (len < MIN_PACKET_SIZE) then Err else
    b0 ← rd d 0;
    if decide (b0 ≠ 1%Z) then Err else
    b1 ← rd d 1;
    if decide (b1 ≠ 1%Z) then Err else
    b2 ← rd d 2;
    if decide (b2 ≠ 6%Z) then Err else
    m ← rdn d 236 4;
    let magic := ntohl (host_val m) in
    if decide (magic ≠ DHCP_OPTION_MAGIC_NUMBER) then Err else
    x ← rdn d 4 4;
    let xid := ntohl (host_val x) in
    o0 ← rd d 240;
    if decide (o0 ≠ 53%Z) then Err else
    o1 ← rd d 241;
    if decide (o1 ≠ 1%Z) then Err else
    o2 ← rd d 242;
    if decide (o2 = 0%Z) then Err else
    if decide (8 ≤ o2)%Z then Err else
    ch ← rdn d 28 (Z.to_nat b2);
    v1 ← wrn (zeros 16) 0 ch;
    v2 ← wr v1 (Z.to_nat b2) o2;
    Ok {| sockfd := fd; src_ipaddr := si; dst_ipaddr := mkIP 0 0;
          src_port := port; dst_port := 0; id := xid;
          code := Z.lor PW_DHCP_OFFSET o2; vector := v2;
          data := Some d; data_len := len; vps := [] |}
  end.

End Recv.

(** ** Attribute list helpers (valuepair.c of libradius) *)

(** Modelled from the spec: find-first-by-code of the Attribute List,
    [pairfind] in the code.  The pointer it returns is the position of
    the pair in the list, so that two results can alias. *)
Definition pairfind (l : list VALUE_PAIR) (a : Z) : option (nat * VALUE_PAIR) :=
  list_find (λ vp, attribute vp = a) l.

(** Modelled from the spec: delete-by-code of the Attribute List,
    [pairdelete] in the code: every pair of that code is removed. *)
Definition pairdelete (l : list VALUE_PAIR) (a : Z) : list VALUE_PAIR :=
  filter (λ vp, attribute vp ≠ a) l.

Definition set_type (t : PW_TYPE) (vp : VALUE_PAIR) : VALUE_PAIR :=
  mkVP (name vp) (attribute vp) t (vp_length vp) (lvalue vp) (vp_octets vp).
Definition set_length (n : nat) (vp : VALUE_PAIR) : VALUE_PAIR :=
  mkVP (name vp) (attribute vp) (type vp) n (lvalue vp) (vp_octets vp).
Definition set_lvalue (v : Z) (vp : VALUE_PAIR) : VALUE_PAIR :=
  mkVP (name vp) (attribute vp) (type vp) (vp_length vp) v (vp_octets vp).
Definition set_octets (o : list Z) (vp : VALUE_PAIR) : VALUE_PAIR :=
  mkVP (name vp) (attribute vp) (type vp) (vp_length vp) (lvalue vp) o.

(** [strlen]: the number of bytes before the first NUL. *)
Fixpoint strlen (s : list Z) : nat :=
  match s with
  | [] => 0
  | c :: s' => if decide (c = 0%Z) then 0 else S (strlen s')
  end.

(** the bytes of a C string literal, with its terminating NUL *)
Definition cstring (s : string) : list Z :=
  map (λ a, Z.of_nat (Ascii.nat_of_ascii a)) (list_ascii_of_string s) ++ [0%Z].

(** [strcmp(buf, lit) == 0]: [buf] starts with the bytes of [lit] and
    its NUL. *)
Definition strcmp_eq (buf : list Z) (lit : string) : bool :=
  bool_decide (take (length (cstring lit)) buf = cstring lit).

Section Pairmake.
Context `{dictionary}.

(** Modelled from the spec: [pairmake(name, NULL, T_OP_EQ)] of
    libradius resolves the name in the dictionary and allocates a zeroed
    pair of that code and type; NULL ([None]) when the name is unknown.
    dhcp.c assigns [length] on every path before using it. *)
Definition pairmake (n : string) : option VALUE_PAIR :=
  da ← dict_attrbyname n;
  Some (mkVP (da_name da) (attr da) (da_type da) 0 0%Z (zeros MAX_STRING_LEN)).

End Pairmake.

(** ** fr_dhcp_decode (dhcp.c, lines 298-627) *)

Section Decode.
Context `{platform} `{dhcp_h} `{dictionary}.

(** One turn of the header loop (lines 330-401): the pair for header
    field [i], read at [p]; [None] when the pair is freed. *)
Definition decode_header_field (d : list Z) (i : nat) (nm : string)
    (size p : nat) : result (option VALUE_PAIR) :=
  match pairmake nm with
  | None => Err
  | Some vp0 =>
    vp ← (if decide (i = 11) then
            b1 ← rd d 1;
            if decide (b1 = 1%Z) then
              b2 ← rd d 2;
              if decide (b2 = 6%Z) then Ok (set_type PW_TYPE_ETHERNET vp0)
              else Ok vp0
            else Ok vp0
          else Ok vp0);
    match type vp with
    | PW_TYPE_BYTE =>
        b ← rd d p;
        Ok (Some (set_length 1 (set_lvalue b vp)))
    | PW_TYPE_SHORT =>
        b0 ← rd d p; b1 ← rd d (p + 1);
        Ok (Some (set_length 2 (set_lvalue (Z.lor (Z.shiftl b0 8) b1) vp)))
    | PW_TYPE_INTEGER =>
        m ← rdn d p 4;
        Ok (Some (set_length 4 (set_lvalue (ntohl (host_val m)) vp)))
    | PW_TYPE_IPADDR =>
        m ← rdn d p 4;
        Ok (Some (set_length 4 (set_lvalue (host_val m) vp)))
    | PW_TYPE_STRING =>
        m ← rdn d p size;
        o ← wrn (vp_octets vp) 0 m;
        o' ← wr o size 0%Z;
        let n := strlen o' in
        if decide (n = 0) then Ok None
        else Ok (Some (set_length n (set_octets o' vp)))
    | PW_TYPE_OCTETS =>
        hlen ← rd d 2;
        m ← rdn d p (Z.to_nat hlen);
        o ← wrn (vp_octets vp) 0 m;
        Ok (Some (set_length (Z.to_nat hlen) (set_octets o vp)))
    | PW_TYPE_ETHERNET =>
        m ← rdn d p 6;
        o ← wrn (vp_octets vp) 0 m;
        Ok (Some (set_length 6 (set_octets o vp)))
    | _ => Ok None
    end
  end.

(** The header loop: [fields] are the remaining (index, name, size)
    triples, [p] the read position, [head] the list built so far. *)
Fixpoint decode_header (d : list Z) (fields : list (nat * string * nat))
    (p : nat) (head : list VALUE_PAIR) : result (list VALUE_PAIR) :=
  match fields with
  | [] => Ok head
  | (i, nm, size) :: fields' =>
    ovp ← decode_header_field d i nm size p;
    decode_header d fields' (p + size)
      (match ovp with Some vp => head ++ [vp] | None => head end)
  end.

Definition header_fields : list (nat * string * nat) :=
  zip (zip (seq 0 14) dhcp_header_names) dhcp_header_sizes.

(** The two [switch]es on [da->type] (lines 439-484): the number of
    entries and the width of one entry, or [None] for [goto raw]. *)
Definition option_shape (da : DICT_ATTR) (alen : nat) : option (nat * nat) :=
  if flags_array da then
    match da_type da with
    | PW_TYPE_BYTE => Some (alen, 1)
    | PW_TYPE_SHORT =>
        if decide (Z.land (Z.of_nat alen) 0x01 ≠ 0)%Z then None
        else Some (alen / 2, 2)
    | PW_TYPE_IPADDR | PW_TYPE_INTEGER | PW_TYPE_DATE =>
        if decide (Z.land (Z.of_nat alen) 0x03 ≠ 0)%Z then None
        else Some (alen / 4, 4)
    | _ => Some (1, alen)
    end
  else
    match da_type da with
    | PW_TYPE_BYTE => if decide (alen ≠ 1) then None else Some (1, alen)
    | PW_TYPE_SHORT => if decide (alen ≠ 2) then None else Some (1, alen)
    | PW_TYPE_IPADDR | PW_TYPE_INTEGER | PW_TYPE_DATE =>
        if decide (alen ≠ 4) then None else Some (1, alen)
    | _ => Some (1, alen)
    end.

(** The value of one entry (lines 495-549), read at [p] into the fresh
    pair [vp].  The [default:] branch frees the pair and line 549 then
    stores through the NULL pointer. *)
Definition decode_value (da : DICT_ATTR) (alen num_entries : nat)
    (d : list Z) (p : nat) (vp : VALUE_PAIR) : result VALUE_PAIR :=
  hack ← (if decide (attr da = DHCP2ATTR 0x3d) then
            if flags_array da then Ok false
            else if decide (alen = 7) then
              b ← rd d p;
              Ok (bool_decide (b = 1%Z) && bool_decide (num_entries = 1))
            else Ok false
          else Ok false);
  vp' ← (if hack : bool then
           m ← rdn d (p + 1) 6;
           o ← wrn (vp_octets vp) 0 m;
           Ok (set_octets o (set_type PW_TYPE_ETHERNET vp))
         else
           match type vp with
           | PW_TYPE_BYTE =>
               b ← rd d p; Ok (set_lvalue b vp)
           | PW_TYPE_SHORT =>
               b0 ← rd d p; b1 ← rd d (p + 1);
               Ok (set_lvalue (Z.lor (Z.shiftl b0 8) b1) vp)
           | PW_TYPE_INTEGER =>
               m ← rdn d p 4; Ok (set_lvalue (ntohl (host_val m)) vp)
           | PW_TYPE_IPADDR =>
               m ← rdn d p 4; Ok (set_length 4 (set_lvalue (host_val m) vp))
           | PW_TYPE_STRING =>
               m ← rdn d p alen;
               o ← wrn (vp_octets vp) 0 m;
               o' ← wr o alen 0%Z;
               Ok (set_octets o' vp)
           | PW_TYPE_OCTETS =>
               m ← rdn d p alen;
               o ← wrn (vp_octets vp) 0 m;
               Ok (set_octets o vp)
           | _ => Fault
           end);
  Ok (set_length alen vp').

(** The loop over array entries (lines 486-559), [n] turns left. *)
Fixpoint decode_entries (da : DICT_ATTR) (alen num_entries n : nat)
    (d : list Z) (p : nat) (head : list VALUE_PAIR)
    : result (nat * list VALUE_PAIR) :=
  match n with
  | 0 => Ok (p, head)
  | S n' =>
    match pairmake (da_name da) with
    | None => Err
    | Some vp =>
      vp' ← decode_value da alen num_entries d p vp;
      decode_entries da alen num_entries n' d (p + alen) (head ++ [vp'])
    end
  end.

(** [goto raw] (lines 529-541) enters the body of the entry loop at the
    label, past the loop's initialisation and past the Client-Identifier
    test.  [num_entries] is 1 on every path to the label and the loop
    counter is not negative, so the body runs once. *)
Definition decode_raw (da : DICT_ATTR) (alen : nat) (d : list Z) (p : nat)
    (head : list VALUE_PAIR) : result (nat * list VALUE_PAIR) :=
  match pairmake (da_name da) with
  | None => Err
  | Some vp =>
    m ← rdn d p alen;
    o ← wrn (vp_octets vp) 0 m;
    Ok (p + alen,
        head ++ [set_length alen (set_octets o (set_type PW_TYPE_OCTETS vp))])
  end.

(** The option loop (lines 406-563): [p] is the read position, [total]
    the number of bytes the loop believes are left. *)
Fixpoint decode_options (fuel : nat) (d : list Z) (p : nat) (total : Z)
    (head : list VALUE_PAIR) : result (list VALUE_PAIR) :=
  if decide (total ≤ 0)%Z then Ok head else
  match fuel with
  | 0 => OutOfFuel
  | S fuel' =>
    c ← rd d p;
    if decide (c = 0%Z) then Ok head else
    if decide (c = 255%Z) then Ok head else
    l ← rd d (p + 1);
    let do_next :=
      decode_options fuel' d (p + Z.to_nat l + 2) (total - 2 - l)%Z head in
    if decide (253 ≤ l)%Z then do_next else
    match dict_attrbyvalue (DHCP2ATTR c) with
    | None => do_next
    | Some da =>
      let alen := Z.to_nat l in
      let p := p + 2 in
      match option_shape da alen with
      | None =>
        '(p', head') ← decode_raw da alen d p head;
        decode_options fuel' d p' (total - 2 - Z.of_nat (alen * 1))%Z head'
      | Some (num_entries, alen) =>
        '(p', head') ← decode_entries da alen num_entries num_entries d p head;
        decode_options fuel' d p'
          (total - 2 - Z.of_nat (alen * num_entries))%Z head'
      end
    end
  end.

(** The broadcast fix-up (lines 569-594) on the list [head] and the
    datagram [d]. *)
Definition decode_fixup (d : list Z) (head : list VALUE_PAIR)
    : result (list Z * list VALUE_PAIR) :=
  g ← rdn d 24 4;
  let giaddr := host_val g in
  if decide (giaddr = htonl INADDR_ANY) then
    match pairfind head (DHCP2ATTR 256) with
    | Some (_, vp) =>
      if decide (lvalue vp = 3%Z) then
        match pairfind head (DHCP2ATTR 63) with
        | Some (_, vp) =>
          if strcmp_eq (vp_octets vp) "MSFT 98" then
            let head' :=
              match pairfind head (DHCP2ATTR 262) with
              | Some (k, vp) =>
                  <[k := set_lvalue (Z.lor (lvalue vp) 0x8000) vp]> head
              | None => head
              end in
            b ← rd d 10;
            d' ← wr d 10 (Z.lor b 0x80);
            Ok (d', head')
          else Ok (d, head)
        | None => Ok (d, head)
        end
      else Ok (d, head)
    | None => Ok (d, head)
    end
  else Ok (d, head).

(** The clamping step (lines 606-622).  [maxms] and [mtu] are pointers
    into the list: the values are read through them when they are
    needed. *)
Definition decode_clamp (l : list VALUE_PAIR) : result (list VALUE_PAIR) :=
  let maxms := fst <$> pairfind l (DHCP2ATTR 57) in
  let mtu := fst <$> pairfind l (DHCP2ATTR 26) in
  let vp_integer (l : list VALUE_PAIR) (k : nat) : Z :=
    from_option lvalue 0%Z (l !! k) in
  if (match mtu with
      | Some j => bool_decide (vp_integer l j < Z.of_nat DEFAULT_PACKET_SIZE)%Z
      | None => false
      end)
  then Err else
  let l1 :=
    match maxms with
    | Some i =>
      if decide (vp_integer l i < Z.of_nat DEFAULT_PACKET_SIZE)%Z
      then alter (set_lvalue (Z.of_nat DEFAULT_PACKET_SIZE)) i l else l
    | None => l
    end in
  let l2 :=
    match maxms, mtu with
    | Some i, Some j =>
      if decide (vp_integer l1 i > vp_integer l1 j)%Z
      then alter (set_lvalue (vp_integer l1 j)) i l1 else l1
    | _, _ => l1
    end in
  Ok l2.

(** Lines 308-594: the attribute list before the clamping step, and
    the datagram. *)
Definition decode_attrs (packet : RADIUS_PACKET)
    : result (list Z * list VALUE_PAIR) :=
  match data packet with
  | None => Fault
  | Some d =>
    b1 ← rd d 1;
    if decide (b1 ≠ 1%Z) then Err else
    head ← decode_header d header_fields 0 [];
    let total := (Z.of_nat (data_len packet) - 240)%Z in
    head ← decode_options (Z.to_nat total) d 240 total head;
    decode_fixup d head
  end.

Definition fr_dhcp_decode (packet : RADIUS_PACKET) : result RADIUS_PACKET :=
  '(d, head) ← decode_attrs packet;
  l ← decode_clamp head;
  Ok (mkPacket (sockfd packet) (src_ipaddr packet) (dst_ipaddr packet)
        (src_port packet) (dst_port packet) (id packet) (code packet)
        (vector packet) (Some d) (data_len packet) l).

End Decode.

(** ** attr_cmp and the sort (dhcp.c, lines 630-648 and 963-990) *)

(** The value of a C [int] that is given [x]: 32 bits, two's
    complement. *)
Definition to_int (x : Z) : Z := ((x + 2 ^ 31) `mod` 2 ^ 32 - 2 ^ 31)%Z.

Section Sort.
Context `{dhcp_h}.

(** The function returns an [int]: the difference of the two attribute
    numbers wraps at 32 bits.  The sign of the result is what [qsort]
    looks at. *)
Definition attr_cmp (a b : VALUE_PAIR) : Z :=
  if bool_decide (attribute a = DHCP2ATTR 53) &&
     bool_decide (attribute b ≠ DHCP2ATTR 53) then (-1)%Z
  else if bool_decide (attribute a = DHCP2ATTR 82) &&
          bool_decide (attribute b ≠ DHCP2ATTR 82) then 1%Z
  else to_int (attribute a - attribute b).

End Sort.

(** [qsort] belongs to the C library.  It is modelled by the insertion
    sort that BSD-derived libraries run on short arrays: each element in
    turn moves left while [cmp] of its left neighbour and itself is
    positive.  [sorted] holds the part already ordered, last element
    first. *)
Fixpoint qsort_insert {A} (cmp : A → A → Z) (x : A) (sorted : list A) : list A :=
  match sorted with
  | [] => [x]
  | y :: sorted' =>
    if decide (cmp y x > 0)%Z then y :: qsort_insert cmp x sorted'
    else x :: y :: sorted'
  end.

Definition qsort {A} (cmp : A → A → Z) (l : list A) : list A :=
  reverse (fold_left (λ sorted x, qsort_insert cmp x sorted) l []).

(** ** fr_dhcp_vp2attr (dhcp.c, lines 651-711) *)

Section Vp2attr.
Context `{platform}.

(** Writes the value of [vp] at [buf + p]; the result is the buffer and
    the length written.  [room] is ignored by the code. *)
Definition fr_dhcp_vp2attr (vp : VALUE_PAIR) (buf : list Z) (p : nat)
    : result (list Z * nat) :=
  match type vp with
  | PW_TYPE_BYTE =>
      buf ← wr buf p (Z.land (lvalue vp) 0xff);
      Ok (buf, 1)
  | PW_TYPE_SHORT =>
      buf ← wr buf p (Z.land (Z.shiftr (lvalue vp) 8) 0xff);
      buf ← wr buf (p + 1) (Z.land (lvalue vp) 0xff);
      Ok (buf, 2)
  | PW_TYPE_INTEGER =>
      buf ← wrn buf p (host_bytes 4 (htonl (lvalue vp)));
      Ok (buf, 4)
  | PW_TYPE_IPADDR =>
      buf ← wrn buf p (host_bytes 4 (lvalue vp));
      Ok (buf, 4)
  | PW_TYPE_ETHERNET =>
      m ← rdn (vp_octets vp) 0 6;
      buf ← wrn buf p m;
      Ok (buf, 6)
  | PW_TYPE_STRING | PW_TYPE_OCTETS =>
      m ← rdn (vp_octets vp) 0 (vp_length vp);
      buf ← wrn buf p m;
      Ok (buf, vp_length vp)
  | _ => Ok (buf, 0)
  end.

End Vp2attr.

(** ** fr_dhcp_encode (dhcp.c, lines 713-1174) *)

(** What the environment supplies to one call: whether [malloc]
    succeeds and the indeterminate content of the block it returns, the
    eight bytes [timeval2ntp] stores for the current time, and the value
    of [fr_rand()]. *)
Record encode_env : Type := mkEnv {
  malloc_ok : bool;
  junk : nat → Z;
  ntp_stamp : nat → Z;
  fr_rand : Z
}.

Definition deref {A} (ptr : option A) : result A :=
  match ptr with
  | Some a => Ok a
  | None => Fault
  end.

(** [memcpy(p, bs, n); p += n], and likewise [*p++ = b]. *)
Definition emit (bs : list Z) (st : list Z * nat) : result (list Z * nat) :=
  buf ← wrn st.1 st.2 bs;
  Ok (buf, st.2 + length bs).

Section Encode.
Context `{platform} `{dhcp_h}.

(** RFC 3118 authentication option (lines 776-818). *)
Definition encode_auth (env : encode_env) (l : list VALUE_PAIR)
    : result (list VALUE_PAIR) :=
  match pairfind l (DHCP2ATTR 90) with
  | None => Ok l
  | Some (k, vp) =>
    vp ← (if decide (vp_length vp < 2) then
            o ← wrn (vp_octets vp) (vp_length vp) (zeros (2 - vp_length vp));
            Ok (set_length 2 (set_octets o vp))
          else Ok vp);
    vp ← (if decide (vp_length vp < 3) then
            o ← wr (vp_octets vp) 2 0%Z;
            o ← wrn o 3 (map (ntp_stamp env) (seq 0 8));
            Ok (set_length (3 + 8) (set_octets o vp))
          else Ok vp);
    b0 ← rd (vp_octets vp) 0;
    vp ← (if decide (b0 = 0%Z) then
            o ← wr (vp_octets vp) 1 0%Z;
            let vp := set_octets o vp in
            match pairfind (<[k := vp]> l) PW_CLEARTEXT_PASSWORD with
            | Some (_, pass) =>
              let len := vp_length pass in
              let len := if decide (MAX_STRING_LEN < len + 11)
                         then len - ((len + 11) - MAX_STRING_LEN) else len in
              m ← rdn (vp_octets pass) 0 len;
              o ← wrn (vp_octets vp) 11 m;
              Ok (set_length (len + 11) (set_octets o vp))
            | None => Ok (set_length (11 + 8) vp)
            end
          else Ok vp);
    Ok (<[k := vp]> l)
  end.

(** The fixed header (lines 820-877), written from offset 0. *)
Definition encode_header (env : encode_env) (packet : RADIUS_PACKET)
    (original : option RADIUS_PACKET) (buf : list Z)
    : result (list Z * nat) :=
  st ← emit [match original with None => 1 | Some _ => 2 end]%Z (buf, 0);
  st ← emit [1%Z] st;
  o ← deref original;
  od ← deref (data o);
  hlen ← rd od 2;
  st ← emit [hlen] st;
  st ← emit [0%Z] st;
  xid ← (match original with
         | None => Ok (host_bytes 4 (fr_rand env))
         | Some o => od ← deref (data o); rdn od 4 4
         end);
  st ← emit xid st;
  st ← emit (zeros 2) st;
  fc ← rdn od 10 6;
  st ← emit fc st;
  let lv := match pairfind (vps packet) (DHCP2ATTR 264) with
            | Some (_, vp) => lvalue vp
            | None => htonl INADDR_ANY
            end in
  st ← emit (host_bytes 4 lv) st;
  st ← emit (zeros 4) st;
  st ← emit (zeros 4) st;
  match original with
  | None => Err
  | Some o =>
    od ← deref (data o);
    ch ← rdn od 28 DHCP_CHADDR_LEN;
    st ← emit ch st;
    st ← emit (zeros 192) st;
    emit (host_bytes 4 (htonl DHCP_OPTION_MAGIC_NUMBER)) st
  end.

(** Lines 1013-1016: the pairs that follow [vp] with its attribute. *)
Fixpoint count_same (a : Z) (l : list VALUE_PAIR) : nat :=
  match l with
  | [] => 0
  | same :: l' =>
    if decide (attribute same ≠ a) then 0 else S (count_same a l')
  end.

(** Lines 1021-1027: the Client-Identifier re-tagging. *)
Definition retag (vp : VALUE_PAIR) (num_entries : nat) : result VALUE_PAIR :=
  if bool_decide (type vp = PW_TYPE_ETHERNET) &&
     bool_decide (vp_length vp = 6) && bool_decide (num_entries = 1) then
    m ← rdn (vp_octets vp) 0 6;
    o ← wrn (vp_octets vp) 1 m;
    o ← wr o 0 1%Z;
    Ok (set_octets o (set_type PW_TYPE_OCTETS vp))
  else Ok vp.

(** The state of the packing loops: the buffer, the write position [p],
    the pair [vp] points to, the pairs after it, and the pairs before it
    (in list order). *)
Record pack_state : Type := mkPack {
  pk_buf : list Z;
  pk_p : nat;
  pk_vp : VALUE_PAIR;
  pk_next : list VALUE_PAIR;
  pk_prev : list VALUE_PAIR
}.

(** The loop over the entries of one option (lines 1040-1074), [n]
    turns left; [plength] is the position of the length byte. *)
Fixpoint encode_entries (n : nat) (plength : nat) (s : pack_state)
    : result pack_state :=
  match n with
  | 0 => Ok s
  | S n' =>
    '(buf, len) ← fr_dhcp_vp2attr (pk_vp s) (pk_buf s) (pk_p s);
    if decide (255 < len) then
      Ok (mkPack buf (pk_p s) (pk_vp s) (pk_next s) (pk_prev s))
    else
      pl ← rd buf plength;
      if decide (pl + Z.of_nat len > 255)%Z then
        Ok (mkPack buf (pk_p s) (pk_vp s) (pk_next s) (pk_prev s))
      else
        buf ← wr buf plength (pl + Z.of_nat len)%Z;
        let p := pk_p s + len in
        match pk_next s with
        | nx :: rest =>
          if decide (attribute nx = attribute (pk_vp s)) then
            encode_entries n' plength
              (mkPack buf p nx rest (pk_prev s ++ [pk_vp s]))
          else
            encode_entries n' plength
              (mkPack buf p (pk_vp s) (pk_next s) (pk_prev s))
        | [] =>
          encode_entries n' plength
            (mkPack buf p (pk_vp s) (pk_next s) (pk_prev s))
        end
  end.

(** One option (lines 1011-1078), for a pair that is not skipped: the
    option header, the entries, and the sub-option length of a
    Relay-Agent option. *)
Definition encode_option (vp : VALUE_PAIR) (rest prev : list VALUE_PAIR)
    (buf : list Z) (p : nat) : result pack_state :=
  let num_entries := S (count_same (attribute vp) rest) in
  vp ← retag vp num_entries;
  let plength := p + 1 in
  st ← emit [Z.land (attribute vp) 0xff] (buf, p);
  st ← emit [0%Z] st;
  st ← (if decide (DHCP_BASE_ATTR (attribute vp) = PW_DHCP_OPTION_82) then
          st ← emit [DHCP_UNPACK_OPTION1 (attribute vp) `mod` 256]%Z st;
          st ← emit [0%Z] st;
          buf ← wr st.1 plength 2%Z;
          Ok (buf, st.2)
        else Ok st);
  s ← encode_entries num_entries plength (mkPack st.1 st.2 vp rest prev);
  if decide (DHCP_BASE_ATTR (attribute (pk_vp s)) = PW_DHCP_OPTION_82) then
    pl ← rd (pk_buf s) plength;
    buf ← wr (pk_buf s) (plength + 2) ((pl - 2) `mod` 256)%Z;
    Ok (mkPack buf (pk_p s) (pk_vp s) (pk_next s) (pk_prev s))
  else Ok s.

(** Lines 1007-1009: the pairs that are not packed. *)
Definition skipped (vp : VALUE_PAIR) : bool :=
  negb (IS_DHCP_ATTR vp) ||
  (bool_decide (Z.land (attribute vp) 0xffff > 255)%Z &&
   bool_decide (DHCP_BASE_ATTR (attribute vp) ≠ PW_DHCP_OPTION_82)).

(** The loop over the list (lines 1000-1082): [l] is the list from
    [vp] on, [prev] the pairs already passed. *)
Fixpoint encode_options (fuel : nat) (l prev : list VALUE_PAIR)
    (buf : list Z) (p : nat) : result (list Z * nat * list VALUE_PAIR) :=
  match l with
  | [] => Ok (buf, p, prev)
  | vp :: rest =>
    match fuel with
    | 0 => OutOfFuel
    | S fuel' =>
      if skipped vp then encode_options fuel' rest (prev ++ [vp]) buf p
      else
        s ← encode_option vp rest prev buf p;
        encode_options fuel' (pk_next s) (pk_prev s ++ [pk_vp s])
          (pk_buf s) (pk_p s)
    end
  end.

(** Lines 1130-1147: the destination address of the reply.  [dhcp] is
    the request datagram seen through [dhcp_packet_t]. *)
Definition encode_dst (packet_code : Z) (dst : Z) (od : list Z) : result Z :=
  giaddr ← (m ← rdn od 24 4; Ok (host_val m));
  if decide (giaddr ≠ htonl INADDR_ANY) then Ok giaddr
  else if decide (packet_code = PW_DHCP_NAK) then Ok (htonl INADDR_BROADCAST)
  else
    ciaddr ← (m ← rdn od 12 4; Ok (host_val m));
    if decide (ciaddr ≠ htonl INADDR_ANY) then Ok ciaddr
    else
      flags ← (m ← rdn od 10 2; Ok (host_val m));
      if decide (Z.land flags 0x8000 ≠ 0)%Z then Ok (htonl INADDR_BROADCAST)
      else if decide (dst = htonl INADDR_ANY) then Ok (htonl INADDR_BROADCAST)
      else m ← rdn od 16 4; Ok (host_val m).

(** Lines 725-1087: the datagram before padding.  The result is the
    buffer, [dhcp_size], the attribute list and the message code. *)
Definition encode_packet (env : encode_env) (packet : RADIUS_PACKET)
    (original : option RADIUS_PACKET)
    : result (list Z * nat * list VALUE_PAIR * Z) :=
  if negb (malloc_ok env) then Err else
  let buf := map (junk env) (seq 0 MAX_PACKET_SIZE) in
  let pcode := if decide (code packet = 0%Z) then PW_DHCP_NAK
               else code packet in
  o ← deref original;
  let mms :=
    match pairfind (vps o) (DHCP2ATTR 57) with
    | Some (_, vp) =>
      if decide (lvalue vp > Z.of_nat DEFAULT_PACKET_SIZE)%Z then
        if decide (lvalue vp > Z.of_nat MAX_PACKET_SIZE)%Z
        then Z.of_nat MAX_PACKET_SIZE else lvalue vp
      else Z.of_nat DEFAULT_PACKET_SIZE
    | None => Z.of_nat DEFAULT_PACKET_SIZE
    end in
  l ← encode_auth env (vps packet);
  let packet1 := mkPacket (sockfd packet) (src_ipaddr packet)
                   (dst_ipaddr packet) (src_port packet) (dst_port packet)
                   (id packet) pcode (vector packet) (Some buf)
                   MAX_PACKET_SIZE l in
  st ← encode_header env packet1 original buf;
  let l := pairdelete l (DHCP2ATTR 0x35) in
  let num_vps := length l in
  let l := if decide (1 < num_vps) then qsort attr_cmp l else l in
  st ← emit [0x35; 1; (pcode - PW_DHCP_OFFSET) `mod` 256]%Z st;
  '(buf, p, l) ← encode_options (length l) l [] st.1 st.2;
  st ← emit [0xff; 0x00]%Z (buf, p);
  Ok (st.1, st.2, l, pcode).

Definition fr_dhcp_encode (env : encode_env) (packet : RADIUS_PACKET)
    (original : option RADIUS_PACKET) : result RADIUS_PACKET :=
  match data packet with
  | Some _ => Ok packet
  | None =>
    '(buf, dhcp_size, l, pcode) ← encode_packet env packet original;
    o ← deref original;
    od ← deref (data o);
    dst ← encode_dst pcode (s_addr (dst_ipaddr packet)) od;
    '(buf, len) ←
      (if decide (dhcp_size < DEFAULT_PACKET_SIZE) then
         buf ← wrn buf dhcp_size (zeros (DEFAULT_PACKET_SIZE - dhcp_size));
         Ok (buf, DEFAULT_PACKET_SIZE)
       else Ok (buf, dhcp_size));
    Ok {| sockfd := sockfd o;
          src_ipaddr := dst_ipaddr o;
          dst_ipaddr := mkIP AF_INET dst;
          src_port := dst_port o;
          dst_port := src_port o;
          id := id packet;
          code := pcode;
          vector := vector packet;
          data := Some (take len buf);
          data_len := len;
          vps := l |}
  end.

End Encode.

(** ** Instances used to run the code on concrete inputs *)

Definition little_endian_host : platform := {| big_endian := false |}.
Definition big_endian_host : platform := {| big_endian := true |}.

(** Modelled from the spec: dhcp.h is not among the sources.  This
    instance keeps header fields (256..269), option codes and
    Relay-Agent sub-options [(82, sub)] in one integer, the sub-option
    number in the second byte, under a marker above the low 16 bits, as
    the spec's design notes describe; message codes are the Option 53
    values 1..8 above [PW_DHCP_OFFSET]. *)
Definition dhcp_h_instance : dhcp_h :=
  {| PW_DHCP_OFFSET := 1024;
     PW_DHCP_NAK := 1024 + 6;
     PW_DHCP_OPTION_82 := 82;
     PW_CLEARTEXT_PASSWORD := 1100;
     AF_INET := 2;
     DHCP2ATTR := λ x, Z.lor (Z.shiftl 54 16) x;
     IS_DHCP_ATTR := λ vp,
       bool_decide (Z.land (Z.shiftr (attribute vp) 16) 0xffff = 54)%Z;
     DHCP_BASE_ATTR := λ x, Z.land x 0xff;
     DHCP_UNPACK_OPTION1 := λ x, Z.shiftr (Z.land x 0xff00) 8 |}.

(** Modelled from the spec: the dictionary is an external service.  This
    one gives the fourteen header fields the codes 256..269 with their
    pre-declared types, and the options used below their RFC 2132
    types. *)
Definition dict_entries : list DICT_ATTR :=
  let D := @DHCP2ATTR dhcp_h_instance in
  [ mkDA "DHCP-Opcode" (D 256%Z) PW_TYPE_BYTE false;
    mkDA "DHCP-Hardware-Type" (D 257%Z) PW_TYPE_BYTE false;
    mkDA "DHCP-Hardware-Address-Length" (D 258%Z) PW_TYPE_BYTE false;
    mkDA "DHCP-Hop-Count" (D 259%Z) PW_TYPE_BYTE false;
    mkDA "DHCP-Transaction-Id" (D 260%Z) PW_TYPE_INTEGER false;
    mkDA "DHCP-Number-of-Seconds" (D 261%Z) PW_TYPE_SHORT false;
    mkDA "DHCP-Flags" (D 262%Z) PW_TYPE_SHORT false;
    mkDA "DHCP-Client-IP-Address" (D 263%Z) PW_TYPE_IPADDR false;
    mkDA "DHCP-Your-IP-Address" (D 264%Z) PW_TYPE_IPADDR false;
    mkDA "DHCP-Server-IP-Address" (D 265%Z) PW_TYPE_IPADDR false;
    mkDA "DHCP-Gateway-IP-Address" (D 266%Z) PW_TYPE_IPADDR false;
    mkDA "DHCP-Client-Hardware-Address" (D 267%Z) PW_TYPE_OCTETS false;
    mkDA "DHCP-Server-Host-Name" (D 268%Z) PW_TYPE_STRING false;
    mkDA "DHCP-Boot-Filename" (D 269%Z) PW_TYPE_STRING false;
    mkDA "DHCP-Domain-Name-Server" (D 6%Z) PW_TYPE_IPADDR true;
    mkDA "DHCP-Hostname" (D 12%Z) PW_TYPE_STRING false;
    mkDA "DHCP-Interface-MTU-Size" (D 26%Z) PW_TYPE_SHORT false;
    mkDA "DHCP-Vendor" (D 43%Z) PW_TYPE_OCTETS false;
    mkDA "DHCP-Message-Type" (D 53%Z) PW_TYPE_BYTE false;
    mkDA "DHCP-Parameter-Request-List" (D 55%Z) PW_TYPE_BYTE true;
    mkDA "DHCP-DHCP-Maximum-Msg-Size" (D 57%Z) PW_TYPE_SHORT false;
    mkDA "DHCP-Vendor-Class-Identifier" (D 60%Z) PW_TYPE_STRING false;
    mkDA "DHCP-Client-Identifier" (D 61%Z) PW_TYPE_OCTETS false;
    mkDA "DHCP-Relay-Agent-Information" (D 82%Z) PW_TYPE_OCTETS false;
    mkDA "DHCP-Authentication" (D 90%Z) PW_TYPE_OCTETS false ]%string.

Definition dict_instance : dictionary :=
  {| dict_attrbyvalue := λ a,
       snd <$> list_find (λ da, attr da = a) dict_entries;
     dict_attrbyname := λ n,
       snd <$> list_find (λ da, da_name da = n) dict_entries |}.

(** A BOOTREQUEST from an Ethernet client: the 240 bytes of header and
    magic cookie, followed by [options]. *)
Definition bootrequest (xid flags ciaddr yiaddr giaddr chaddr options : list Z)
    : list Z :=
  [1; 1; 6; 0]%Z ++ xid ++ [0; 0]%Z ++ flags ++ ciaddr ++ yiaddr ++
  zeros 4 ++ giaddr ++ chaddr ++ zeros 10 ++ zeros 192 ++
  [0x63; 0x82; 0x53; 0x63]%Z ++ options.

Definition sample_request (flags ciaddr giaddr options : list Z) : list Z :=
  bootrequest [0x12; 0x34; 0x56; 0x78]%Z flags ciaddr (zeros 4) giaddr
    [0x00; 0x11; 0x22; 0x33; 0x44; 0x55]%Z options.

Definition sample_env : encode_env :=
  {| malloc_ok := true; junk := λ _, 0xAA%Z; ntp_stamp := λ _, 0x11%Z;
     fr_rand := 0 |}.

(** The claim on the receive checks, read from the specification: Option
    53 is looked for with the spec's option walk ("Byte [code]; if code =
    0 stop; if code = 255 stop; otherwise byte [len]"), wherever it
    stands in the option area. *)
Fixpoint find_option_spec (fuel : nat) (c : Z) (opts : list Z)
    : option (list Z) :=
  match fuel, opts with
  | S fuel', code :: len :: payload =>
    if decide (code = 0%Z) then None
    else if decide (code = 255%Z) then None
    else if decide (code = c) then Some (take (Z.to_nat len) payload)
    else find_option_spec fuel' c (drop (Z.to_nat len) payload)
  | _, _ => None
  end.

(** the checks that do not involve Option 53 *)
Definition recv_header_checks (d : list Z) : Prop :=
  MIN_PACKET_SIZE ≤ length d ∧
  d !! 0 = Some 1%Z ∧ d !! 1 = Some 1%Z ∧ d !! 2 = Some 6%Z ∧
  d !! 236 = Some 0x63%Z ∧ d !! 237 = Some 0x82%Z ∧
  d !! 238 = Some 0x53%Z ∧ d !! 239 = Some 0x63%Z.

(** Option 53 as the specification words it *)
Definition recv_checks_spec (d : list Z) : Prop :=
  recv_header_checks d ∧
  ∃ v, find_option_spec (length d) 53%Z (drop 240 d) = Some [v] ∧
       (1 ≤ v ≤ 7)%Z.

(** Option 53 as the code tests it: the first option of the datagram *)
Definition recv_checks (d : list Z) : Prop :=
  recv_header_checks d ∧
  d !! 240 = Some 53%Z ∧ d !! 241 = Some 1%Z ∧
  ∃ v, d !! 242 = Some v ∧ (1 ≤ v ≤ 7)%Z.

(** A well-formed DHCPDISCOVER, and one that carries a host name option
    before its Option 53. *)
Definition discover_datagram : list Z :=
  sample_request [0; 0]%Z (zeros 4) (zeros 4) [53; 1; 1; 255]%Z.

Definition hostname_first_datagram : list Z :=
  sample_request [0; 0]%Z (zeros 4) (zeros 4)
    [12; 1; 65; 53; 1; 1; 255]%Z.

(** A DHCPREQUEST of a client that announces the vendor class
    "MSFT 98", with no relay and a clear broadcast flag. *)
Definition msft98_datagram : list Z :=
  sample_request [0; 0]%Z (zeros 4) (zeros 4)
    [53; 1; 3; 60; 7; 77; 83; 70; 84; 32; 57; 56; 255]%Z.

(** A DHCPDISCOVER whose last byte opens an option that the datagram
    does not hold. *)
Definition truncated_datagram : list Z :=
  sample_request [0; 0]%Z (zeros 4) (zeros 4) [53; 1; 1; 12]%Z.

(** A DHCPREQUEST with the Client-Identifier [01 aa bb cc dd ee ff]. *)
Definition client_id_datagram : list Z :=
  sample_request [0; 0]%Z (zeros 4) (zeros 4)
    [53; 1; 3; 61; 7; 1; 0xaa; 0xbb; 0xcc; 0xdd; 0xee; 0xff; 255]%Z.

(** DHCPREQUESTs with a Maximum-DHCP-Message-Size of 400, and with an
    Interface-MTU of 400. *)
Definition small_mms_datagram : list Z :=
  sample_request [0; 0]%Z (zeros 4) (zeros 4)
    [53; 1; 3; 57; 2; 0x01; 0x90; 255]%Z.

Definition small_mtu_datagram : list Z :=
  sample_request [0; 0]%Z (zeros 4) (zeros 4)
    [53; 1; 3; 26; 2; 0x01; 0x90; 255]%Z.

(** The reply the server prepares: a fresh packet with a message code
    and an attribute list, not yet encoded. *)
Definition reply_packet (c : Z) (dst : fr_ipaddr_t) (l : list VALUE_PAIR)
    : RADIUS_PACKET :=
  mkPacket 0 (mkIP 0 0) dst 0 0 0 c (zeros 16) None 0 l.

(** [recv] then [decode] on the sample socket, little-endian host *)
Definition sample_recv (dgram : list Z) : result RADIUS_PACKET :=
  @fr_dhcp_recv little_endian_host dhcp_h_instance
    5%Z (Some dgram) (mkIP 2 0) 67%Z.

Definition sample_decode (dgram : list Z) : result RADIUS_PACKET :=
  pk ← sample_recv dgram;
  @fr_dhcp_decode little_endian_host dhcp_h_instance dict_instance pk.

Definition sample_encode (c : Z) (dst : fr_ipaddr_t) (l : list VALUE_PAIR)
    (original : option RADIUS_PACKET) : result RADIUS_PACKET :=
  @fr_dhcp_encode little_endian_host dhcp_h_instance sample_env
    (reply_packet c dst l) original.

(** The value the clamping step leaves in the first attribute 57, whose
    value was [maxms], when the first attribute 26, if any, has the
    value [mtu]. *)
Definition clamp_value (maxms : Z) (mtu : option Z) : Z :=
  let v := if decide (maxms < Z.of_nat DEFAULT_PACKET_SIZE)%Z
           then Z.of_nat DEFAULT_PACKET_SIZE else maxms in
  match mtu with
  | Some m => if decide (v > m)%Z then m else v
  | None => v
  end.

(** An ETHERNET pair of length 6 holding aa:bb:cc:dd:ee:ff, for the
    option code [c]. *)
Definition ether_pair (c : Z) : VALUE_PAIR :=
  mkVP "DHCP-Client-Identifier" (@DHCP2ATTR dhcp_h_instance c)
    PW_TYPE_ETHERNET 6 0%Z
    ([0xaa; 0xbb; 0xcc; 0xdd; 0xee; 0xff]%Z ++ zeros (MAX_STRING_LEN - 6)).

(** the option area of an encoded reply, up to [n] bytes *)
Definition options_of (n : nat) (r : result RADIUS_PACKET) : option (list Z) :=
  match r with
  | Ok p => take n ∘ drop 240 <$> data p
  | _ => None
  end.

(** A simple pair for the option or header code [c], with a one-byte
    value. *)
Definition byte_pair (c : Z) (v : Z) : VALUE_PAIR :=
  mkVP "" (@DHCP2ATTR dhcp_h_instance c) PW_TYPE_BYTE 1 v
    (zeros MAX_STRING_LEN).

(** the attribute numbers of the list an encoded reply is left with *)
Definition attributes_of (r : result RADIUS_PACKET) : option (list Z) :=
  match r with
  | Ok p => Some (attribute <$> vps p)
  | _ => None
  end.

(** [buf'] has the size of [buf] and the same bytes below [lo]. *)
Definition frame (lo : nat) (buf buf' : list Z) : Prop :=
  length buf' = length buf ∧ ∀ i, i < lo → buf' !! i = buf !! i.

(** A DHCPDISCOVER with the broadcast flag set (flags = 0x8000 on the
    wire), no relay and no client address; and one whose flags field is
    0x0080, with the broadcast bit clear. *)
Definition broadcast_datagram : list Z :=
  sample_request [0x80; 0x00]%Z (zeros 4) (zeros 4) [53; 1; 1; 255]%Z.

Definition unicast_datagram : list Z :=
  sample_request [0x00; 0x80]%Z (zeros 4) (zeros 4) [53; 1; 1; 255]%Z.

(** the destination address (as its four wire bytes) and port of a
    reply *)
Definition destination_of `{platform} (r : result RADIUS_PACKET)
    : option (list Z * Z) :=
  match r with
  | Ok p => Some (host_bytes 4 (s_addr (dst_ipaddr p)), dst_port p)
  | _ => None
  end.

(** What holds of an option under construction: the byte at [plength]
    counts the bytes between it and the write position. *)
Definition tlv_open (plength : nat) (buf : list Z) (p : nat) : Prop :=
  ∃ pl, buf !! plength = Some pl ∧ (0 ≤ pl ≤ 255)%Z ∧
        p = plength + 1 + Z.to_nat pl ∧ p ≤ length buf.

(** An OCTETS pair for option [c] with [n] bytes of value [fill]. *)
Definition octets_pair (c : Z) (n : nat) (fill : Z) : VALUE_PAIR :=
  mkVP "" (@DHCP2ATTR dhcp_h_instance c) PW_TYPE_OCTETS n 0%Z
    (replicate n fill ++ zeros (MAX_STRING_LEN - n)).

(** the datagram of an encoded reply *)
Definition datagram_of (r : result RADIUS_PACKET) : list Z :=
  match r with
  | Ok p => default [] (data p)
  | _ => []
  end.

(** the outcome is not an exhausted recursion budget *)
Definition terminates {A} (r : result A) : Prop := r ≠ OutOfFuel.

Section SortPredicates.
Context `{dhcp_h}.

(** neither a Message-Type pair nor a Relay-Agent pair *)
Definition plain (vp : VALUE_PAIR) : Prop :=
  attribute vp ≠ DHCP2ATTR 53 ∧ attribute vp ≠ DHCP2ATTR 82.

Definition descending (l : list VALUE_PAIR) : Prop :=
  StronglySorted (λ a b, (attribute b ≤ attribute a)%Z) l.

End SortPredicates.

(** the attribute number is a non-negative [int], so that the
    difference of two such numbers does not wrap *)
Definition int_attribute (vp : VALUE_PAIR) : Prop :=
  (0 ≤ attribute vp < 2 ^ 31)%Z.

(** The 240 bytes [fr_dhcp_encode] writes before the options, for the
    request datagram [od] and the value [yiaddr] of the reply's
    DHCP-Your-IP-Address: op, htype, hlen, hops, xid, secs, flags and
    ciaddr, yiaddr, siaddr, giaddr, chaddr, the BOOTP legacy area and the
    magic cookie. *)
Definition reply_header `{platform} (od : list Z) (yiaddr : Z) : list Z :=
  [2; 1]%Z ++ take 1 (drop 2 od) ++ [0]%Z ++ take 4 (drop 4 od) ++
  zeros 2 ++ take 6 (drop 10 od) ++ host_bytes 4 yiaddr ++ zeros 4 ++
  zeros 4 ++ take DHCP_CHADDR_LEN (drop 28 od) ++ zeros 192 ++
  [0x63; 0x82; 0x53; 0x63]%Z.

(** [vp'] is [vp] up to its type, length and byte value: the code and
    the numeric value are the same. *)
Definition same_code (vp vp' : VALUE_PAIR) : Prop :=
  attribute vp' = attribute vp ∧ lvalue vp' = lvalue vp.

(** From [p] to [q] the buffer holds options one after the other: each
    has a code byte, a length byte of at most 255 and that many bytes of
    value. *)
Inductive tlv_stream (buf : list Z) : nat → nat → Prop :=
  | tlv_stream_end p : tlv_stream buf p p
  | tlv_stream_option p q len :
      buf !! (p + 1) = Some len → (0 ≤ len ≤ 255)%Z →
      tlv_stream buf (p + 2 + Z.to_nat len) q →
      tlv_stream buf p q.

(** the length [fr_dhcp_vp2attr] returns for a pair *)
Definition value_width (vp : VALUE_PAIR) : nat :=
  match type vp with
  | PW_TYPE_BYTE => 1
  | PW_TYPE_SHORT => 2
  | PW_TYPE_INTEGER | PW_TYPE_IPADDR => 4
  | PW_TYPE_ETHERNET => 6
  | PW_TYPE_STRING | PW_TYPE_OCTETS => vp_length vp
  | _ => 0
  end.


(** A DHCPDISCOVER that the relay 10.0.0.1 has forwarded, and a
    DHCPREQUEST whose option 6 names the servers 10.0.0.1 and
    10.0.0.2. *)
Definition relayed_datagram : list Z :=
  sample_request [0; 0]%Z (zeros 4) [10; 0; 0; 1]%Z [53; 1; 1; 255]%Z.

Definition dns_datagram : list Z :=
  sample_request [0; 0]%Z (zeros 4) (zeros 4)
    [53; 1; 3; 6; 8; 10; 0; 0; 1; 10; 0; 0; 2; 255]%Z.

(** the dictionary entry of option 6 *)
Definition dns_attr : DICT_ATTR :=
  mkDA "DHCP-Domain-Name-Server" (@DHCP2ATTR dhcp_h_instance 6%Z)
    PW_TYPE_IPADDR true.

(** An Authentication pair whose one byte is 0, a Cleartext-Password
    pair that holds "secret", and a pair outside the DHCP name space. *)
Definition auth_pair : VALUE_PAIR :=
  mkVP "DHCP-Authentication" (@DHCP2ATTR dhcp_h_instance 90%Z)
    PW_TYPE_OCTETS 1 0%Z (zeros MAX_STRING_LEN).

Definition password_pair : VALUE_PAIR :=
  mkVP "Cleartext-Password" (@PW_CLEARTEXT_PASSWORD dhcp_h_instance)
    PW_TYPE_STRING 6 0%Z
    ([115; 101; 99; 114; 101; 116]%Z ++ zeros (MAX_STRING_LEN - 6)).

Definition user_name_pair : VALUE_PAIR :=
  mkVP "User-Name" 1%Z PW_TYPE_STRING 3 0%Z
    ([98; 111; 98]%Z ++ zeros (MAX_STRING_LEN - 3)).

(** the outcome is not an access outside an object or through NULL *)
Definition safe {A} (r : result A) : Prop := r ≠ Fault.

(** the types for which the entry loop of [fr_dhcp_decode] has a case *)
Definition decoded_type (t : PW_TYPE) : bool :=
  match t with
  | PW_TYPE_BYTE | PW_TYPE_SHORT | PW_TYPE_INTEGER | PW_TYPE_IPADDR
  | PW_TYPE_STRING | PW_TYPE_OCTETS => true
  | _ => false
  end.

Section DictionaryPredicates.
Context `{dhcp_h} `{dictionary}.

(** The dictionary is coherent on the options: the entry found for an
    option code is the one its name resolves to, and its type is one
    the entry loop has a case for. *)
Definition dict_coherent : Prop :=
  ∀ c da, dict_attrbyvalue (DHCP2ATTR c) = Some da →
          dict_attrbyname (da_name da) = Some da ∧
          decoded_type (da_type da) = true.

End DictionaryPredicates.

(** the bytes an entry of type [t] and width [w] reads lie inside the
    entry, and its value fits the value buffer of a pair *)
Definition entry_fits (t : PW_TYPE) (w : nat) : Prop :=
  match t with
  | PW_TYPE_BYTE => 1 ≤ w
  | PW_TYPE_SHORT => 2 ≤ w
  | PW_TYPE_INTEGER | PW_TYPE_IPADDR => 4 ≤ w
  | _ => True
  end.

(** A pair as [pairmake] and the decoder leave it: a value buffer of
    [MAX_STRING_LEN] bytes and a length inside it. *)
Definition pair_ok (vp : VALUE_PAIR) : Prop :=
  length (vp_octets vp) = MAX_STRING_LEN ∧ vp_length vp ≤ MAX_STRING_LEN.

(** An upper bound of the bytes the pairs of [l] take in the option
    area: for each pair its value and four bytes of option and
    sub-option header. *)
Definition pair_room (vp : VALUE_PAIR) : nat := 4 + value_width vp.

Definition option_room (l : list VALUE_PAIR) : nat :=
  sum_list_with pair_room l.
Global Arguments option_room : simpl never.
(** * Properties *)

(** ** The outcome monad and the memory primitives *)

Lemma bind_Ok {A B} (m : result A) (k : A → result B) (b : B) :
  m ≫= k = Ok b ↔ ∃ a, m = Ok a ∧ k a = Ok b.
Proof.
  destruct m; cbn; split; intros Hm;
    try (destruct Hm as (? & ? & ?)); try discriminate; eauto.
  congruence.
Qed.

Lemma rd_Ok buf i b : rd buf i = Ok b ↔ buf !! i = Some b.
Proof. unfold rd. destruct (buf !! i); split; congruence. Qed.

Lemma rdn_Ok buf i n m :
  rdn buf i n = Ok m ↔ i + n ≤ length buf ∧ m = take n (drop i buf).
Proof.
  unfold rdn. case_decide; split.
  - intros [= <-]. done.
  - intros [_ ->]. done.
  - done.
  - intros [? _]. lia.
Qed.

Lemma rdn_length buf i n m : rdn buf i n = Ok m → length m = n.
Proof.
  rewrite rdn_Ok. intros [? ->]. rewrite length_take, length_drop. lia.
Qed.

Lemma wr_Ok buf i b buf' :
  wr buf i b = Ok buf' ↔ i < length buf ∧ buf' = <[i:=b]> buf.
Proof.
  unfold wr. case_decide; split.
  - intros [= <-]. done.
  - intros [_ ->]. done.
  - done.
  - intros [? _]. lia.
Qed.

Lemma wrn_Ok buf i bs buf' :
  wrn buf i bs = Ok buf' ↔
  i + length bs ≤ length buf ∧ buf' = list_inserts i bs buf.
Proof.
  unfold wrn. case_decide; split.
  - intros [= <-]. done.
  - intros [_ ->]. done.
  - done.
  - intros [? _]. lia.
Qed.

Lemma is_byte_lookup (d : list Z) i b :
  Forall is_byte d → d !! i = Some b → is_byte b.
Proof. intros Hd Hb. by eapply (Forall_lookup_1 _ d). Qed.

(** ** Byte order *)

Section HostFacts.
Context `{platform}.

Lemma ntohl_host_val (m : list Z) :
  length m = 4 → Forall is_byte m → ntohl (host_val m) = be_val m.
Proof.
  intros Hlen Hm.
  destruct m as [|a [|b [|c [|d [|]]]]]; try done.
  apply Forall_cons in Hm as [Ha Hm]. apply Forall_cons in Hm as [Hb Hm].
  apply Forall_cons in Hm as [Hc Hm]. apply Forall_cons in Hm as [Hd _].
  unfold is_byte in *.
  unfold ntohl, host_val, host_bytes.
  destruct big_endian; cbn -[Z.mul Z.add Z.shiftr Z.modulo];
    rewrite !Z.shiftr_div_pow2 by lia;
    change (2 ^ (8 * Z.of_nat 0))%Z with 1%Z;
    change (2 ^ (8 * Z.of_nat 1))%Z with 256%Z;
    change (2 ^ (8 * Z.of_nat 2))%Z with 65536%Z;
    change (2 ^ (8 * Z.of_nat 3))%Z with 16777216%Z;
    Z.div_mod_to_equations; lia.
Qed.

End HostFacts.

Lemma take_drop_4 (d : list Z) i a b c e :
  d !! i = Some a → d !! (i + 1) = Some b → d !! (i + 2) = Some c →
  d !! (i + 3) = Some e → take 4 (drop i d) = [a; b; c; e].
Proof.
  intros Ha Hb Hc He. apply list_eq. intros j.
  destruct (decide (j < 4)) as [Hj|Hj].
  - rewrite lookup_take_lt, lookup_drop by done.
    destruct j as [|[|[|[|]]]]; try lia; simpl;
      rewrite ?Nat.add_0_r; done.
  - rewrite lookup_take_ge by lia.
    destruct j as [|[|[|[|]]]]; try lia; done.
Qed.

Lemma lookup_4 (d : list Z) i :
  i + 4 ≤ length d →
  ∃ a b c e, d !! i = Some a ∧ d !! (i + 1) = Some b ∧
             d !! (i + 2) = Some c ∧ d !! (i + 3) = Some e.
Proof.
  intros Hi.
  destruct (lookup_lt_is_Some_2 d i) as [a Ha]; [lia|].
  destruct (lookup_lt_is_Some_2 d (i + 1)) as [b Hb]; [lia|].
  destruct (lookup_lt_is_Some_2 d (i + 2)) as [c Hc]; [lia|].
  destruct (lookup_lt_is_Some_2 d (i + 3)) as [e He]; [lia|].
  eauto 10.
Qed.

(** ** fr_dhcp_recv *)

Section RecvFacts.
Context `{platform} `{dhcp_h}.

Ltac recv_read d i b Hb :=
  let Hr := fresh in
  destruct (lookup_lt_is_Some_2 d i) as [b Hb]; [lia|];
  assert (rd d i = Ok b) as Hr by (by apply rd_Ok);
  rewrite Hr; clear Hr; cbn [mbind result_bind].

Ltac recv_refute :=
  intros [(? & ? & ? & ? & ? & ? & ? & ?) (? & ? & ? & ? & ?)];
  simplify_eq; try lia; try done.

Lemma recv_checks_take (dgram : list Z) :
  recv_checks (take MAX_PACKET_SIZE dgram) ↔ recv_checks dgram.
Proof.
  unfold recv_checks, recv_header_checks, MIN_PACKET_SIZE, MAX_PACKET_SIZE.
  rewrite length_take.
  rewrite !lookup_take_lt by lia.
  intuition lia.
Qed.

Lemma fr_dhcp_recv_dichotomy fd (dgram : list Z) si port :
  Forall is_byte dgram →
  (recv_checks dgram ∧ ∃ pkt, fr_dhcp_recv fd (Some dgram) si port = Ok pkt) ∨
  (¬ recv_checks dgram ∧ fr_dhcp_recv fd (Some dgram) si port = Err).
Proof.
  intros Hbytes.
  rewrite <-recv_checks_take.
  assert (Forall is_byte (take MAX_PACKET_SIZE dgram)) as Hd
    by (by apply Forall_take).
  unfold fr_dhcp_recv. generalize dependent (take MAX_PACKET_SIZE dgram).
  intros d Hd. clear dgram Hbytes.
  unfold recv_checks, recv_header_checks, MIN_PACKET_SIZE.
  destruct (decide (length d ≤ 0)); [right; split; [lia|done]|].
  destruct (decide (length d < 244)); [right; split; [lia|done]|].
  recv_read d 0 b0 Hb0.
  destruct (decide (b0 ≠ 1%Z)); [right; split; [recv_refute|done]|].
  recv_read d 1 b1 Hb1.
  destruct (decide (b1 ≠ 1%Z)); [right; split; [recv_refute|done]|].
  recv_read d 2 b2 Hb2.
  destruct (decide (b2 ≠ 6%Z)); [right; split; [recv_refute|done]|].
  destruct (lookup_4 d 236) as (m0 & m1 & m2 & m3 & Hm0 & Hm1 & Hm2 & Hm3);
    [lia|]. simpl in Hm1, Hm2, Hm3.
  assert (rdn d 236 4 = Ok [m0; m1; m2; m3]) as ->.
  { apply rdn_Ok. split; [lia|]. symmetry. by apply take_drop_4. }
  cbn [mbind result_bind].
  assert (is_byte m0 ∧ is_byte m1 ∧ is_byte m2 ∧ is_byte m3)
    as (Hi0 & Hi1 & Hi2 & Hi3) by eauto 8 using is_byte_lookup.
  rewrite ntohl_host_val
    by (done || by repeat first [apply Forall_cons_2 | apply Forall_nil_2]).
  unfold is_byte, DHCP_OPTION_MAGIC_NUMBER in *.
  cbn [be_val fold_left].
  destruct (decide _) as [Hmagic|Hmagic].
  { right. split; [recv_refute|done]. }
  assert (m0 = 0x63 ∧ m1 = 0x82 ∧ m2 = 0x53 ∧ m3 = 0x63)%Z
    as (-> & -> & -> & ->) by lia.
  assert (∃ x, rdn d 4 4 = Ok x) as [x ->].
  { eexists. apply rdn_Ok. split; [lia|done]. }
  cbn [mbind result_bind].
  recv_read d 240 o0 Ho0.
  destruct (decide (o0 ≠ 53%Z)); [right; split; [recv_refute|done]|].
  recv_read d 241 o1 Ho1.
  destruct (decide (o1 ≠ 1%Z)); [right; split; [recv_refute|done]|].
  recv_read d 242 o2 Ho2.
  destruct (decide (o2 = 0%Z)); [right; split; [recv_refute|done]|].
  destruct (decide (8 ≤ o2)%Z); [right; split; [recv_refute|done]|].
  assert (is_byte o2) as Hi by eauto using is_byte_lookup.
  unfold is_byte in Hi.
  left. split.
  { assert (b0 = 1 ∧ b1 = 1 ∧ b2 = 6 ∧ o0 = 53 ∧ o1 = 1)%Z
      as (-> & -> & -> & -> & ->) by lia.
    repeat split; try done; try lia. exists o2. split; [done|lia]. }
  assert (b2 = 6%Z) as -> by lia.
  change (Z.to_nat 6) with 6.
  assert (∃ ch, rdn d 28 6 = Ok ch ∧ length ch = 6) as (ch & -> & Hch).
  { eexists. split; [apply rdn_Ok; split; [lia|done]|].
    rewrite length_take, length_drop. lia. }
  cbn [mbind result_bind].
  unfold wrn, wr. rewrite Hch. simpl.
  rewrite length_inserts. simpl. eauto.
Qed.

End RecvFacts.

Ltac all_bytes := apply (bool_decide_unpack _); vm_compute; exact I.

(** C3, as amended.  [fr_dhcp_recv] returns a packet if and only if the
    datagram is at least 244 bytes long, bytes 0, 1 and 2 are 1, 1 and
    6, bytes 236..239 are the magic cookie, and Option 53 is the first
    option: byte 240 is 53, byte 241 is 1 and byte 242 lies in 1..7.
    Every other datagram is rejected with no packet; in particular a
    message type of 8 or more is rejected. *)
Theorem fr_dhcp_recv_accepts_iff `{platform} `{dhcp_h}
    fd (dgram : list Z) si port :
  Forall is_byte dgram →
  ((∃ pkt, fr_dhcp_recv fd (Some dgram) si port = Ok pkt) ↔
   recv_checks dgram) ∧
  (¬ recv_checks dgram → fr_dhcp_recv fd (Some dgram) si port = Err) ∧
  (∀ v, dgram !! 242 = Some v → (8 ≤ v)%Z →
        fr_dhcp_recv fd (Some dgram) si port = Err).
Proof.
  intros Hbytes.
  destruct (fr_dhcp_recv_dichotomy fd dgram si port Hbytes)
    as [[Hc [pkt Hpkt]]|[Hc Herr]].
  - split; [|split].
    + split; eauto.
    + done.
    + intros v Hv Hge. destruct Hc as (_ & _ & _ & v' & Hv' & ?).
      simplify_eq. lia.
  - split; [|split].
    + split; [|done]. intros [pkt Hpkt]. congruence.
    + done.
    + done.
Qed.

Lemma fr_dhcp_recv_accepts_iff_witness :
  ((∃ pkt, @fr_dhcp_recv little_endian_host dhcp_h_instance
             5%Z (Some discover_datagram) (mkIP 2 0) 67%Z = Ok pkt) ↔
   recv_checks discover_datagram) ∧
  (¬ recv_checks discover_datagram →
   @fr_dhcp_recv little_endian_host dhcp_h_instance
     5%Z (Some discover_datagram) (mkIP 2 0) 67%Z = Err) ∧
  (∀ v, discover_datagram !! 242 = Some v → (8 ≤ v)%Z →
        @fr_dhcp_recv little_endian_host dhcp_h_instance
          5%Z (Some discover_datagram) (mkIP 2 0) 67%Z = Err).
Proof.
  apply (@fr_dhcp_recv_accepts_iff little_endian_host dhcp_h_instance).
  all_bytes.
Defined.

(** C3, as stated, fails: a 247-byte BOOTREQUEST with the magic cookie
    that carries Option 12 before a one-byte Option 53 of value 1 meets
    every condition of the claim, and [fr_dhcp_recv] rejects it. *)
Lemma fr_dhcp_recv_option53_not_first :
  Forall is_byte hostname_first_datagram ∧
  recv_checks_spec hostname_first_datagram ∧
  @fr_dhcp_recv little_endian_host dhcp_h_instance
    5%Z (Some hostname_first_datagram) (mkIP 2 0) 67%Z = Err.
Proof.
  split; [all_bytes|]. split; [|by vm_compute].
  split.
  - unfold recv_header_checks. vm_compute. repeat split; lia.
  - exists 1%Z. split; [by vm_compute|lia].
Qed.

(** ** fr_dhcp_decode on concrete datagrams *)

Ltac run_sample pkt :=
  match goal with
  | |- context [sample_decode ?d] =>
    let E := fresh "E" in
    destruct (sample_decode d) as [pkt| | |] eqn:E;
    vm_compute in E; try discriminate E;
    injection E as <-
  end.

(** C10: the 244-byte DHCPDISCOVER [truncated_datagram] passes the
    receive checks; its byte 243 is an option code, and the option walk
    of [fr_dhcp_decode] then reads the length byte at offset 244, which
    the datagram does not have. *)
Lemma fr_dhcp_decode_reads_past_end :
  (∃ pkt, sample_recv truncated_datagram = Ok pkt ∧ data_len pkt = 244 ∧
          data pkt = Some truncated_datagram) ∧
  rd truncated_datagram 243 = Ok 12%Z ∧
  rd truncated_datagram 244 = Fault ∧
  sample_decode truncated_datagram = Fault.
Proof.
  split; [|by vm_compute].
  destruct (sample_recv truncated_datagram) as [pkt| | |] eqn:E;
    vm_compute in E; try discriminate E.
  injection E as <-. eexists. split; [done|]. by vm_compute.
Qed.

(** C4: [msft98_datagram] is an accepted DHCPREQUEST with giaddr
    0.0.0.0 whose Vendor-Class-Identifier is "MSFT 98".  After
    [fr_dhcp_decode] the flags attribute still has bit 0x8000 clear and
    byte 10 of the datagram still has bit 0x80 clear: the code tests
    attributes 256 and 63, not 53 and 60. *)
Lemma fr_dhcp_decode_msft98_not_fixed :
  let D := @DHCP2ATTR dhcp_h_instance in
  ∃ pkt d, sample_decode msft98_datagram = Ok pkt ∧
    data pkt = Some d ∧
    take 4 (drop 24 d) = zeros 4 ∧
    (∃ k vp, pairfind (vps pkt) (D 53%Z) = Some (k, vp) ∧ lvalue vp = 3%Z) ∧
    (∃ k vp, pairfind (vps pkt) (D 60%Z) = Some (k, vp) ∧
             vp_length vp = 7 ∧
             take 8 (vp_octets vp) = cstring "MSFT 98") ∧
    (∃ k vp, pairfind (vps pkt) (D 262%Z) = Some (k, vp) ∧
             Z.land (lvalue vp) 0x8000 = 0%Z) ∧
    (∃ b, d !! 10 = Some b ∧ Z.land b 0x80 = 0%Z).
Proof.
  intros D. run_sample pkt.
  eexists _, _. split; [done|]. split; [done|].
  split; [by vm_compute|].
  repeat split; vm_compute; eauto.
Qed.

(** ** The clamping step of fr_dhcp_decode *)

Lemma set_lvalue_id vp : set_lvalue (lvalue vp) vp = vp.
Proof. by destruct vp. Qed.

Lemma pairfind_Some l a k vp :
  pairfind l a = Some (k, vp) →
  l !! k = Some vp ∧ attribute vp = a ∧
  ∀ j y, l !! j = Some y → j < k → attribute y ≠ a.
Proof. unfold pairfind. by rewrite list_find_Some. Qed.

Lemma alter_lookup_insert {A} (f : A → A) (l : list A) i x :
  l !! i = Some x → alter f i l = <[i := f x]> l.
Proof.
  intros Hx. apply list_eq. intros j.
  destruct (decide (i = j)) as [<-|Hne].
  - rewrite list_lookup_alter_eq, Hx, list_lookup_insert_eq; [done|].
    by eapply lookup_lt_Some.
  - by rewrite list_lookup_alter_ne, list_lookup_insert_ne.
Qed.

Section ClampFacts.
Context `{dhcp_h}.

Lemma decode_clamp_fatal head j mtu :
  pairfind head (DHCP2ATTR 26) = Some (j, mtu) →
  (lvalue mtu < 576)%Z →
  decode_clamp head = Err.
Proof.
  intros Hmtu Hlt. unfold decode_clamp. rewrite Hmtu. cbn.
  apply pairfind_Some in Hmtu as (Hj & _). rewrite Hj. cbn.
  rewrite bool_decide_true by (unfold DEFAULT_PACKET_SIZE; lia). done.
Qed.

Lemma decode_clamp_ok head :
  (∀ j mtu, pairfind head (DHCP2ATTR 26) = Some (j, mtu) →
            (576 ≤ lvalue mtu)%Z) →
  decode_clamp head =
  Ok (match pairfind head (DHCP2ATTR 57) with
      | Some (i, maxms) =>
        <[i := set_lvalue
                 (clamp_value (lvalue maxms)
                    (lvalue ∘ snd <$> pairfind head (DHCP2ATTR 26))) maxms]>
          head
      | None => head
      end).
Proof.
  intros Hge. unfold decode_clamp, clamp_value, DEFAULT_PACKET_SIZE.
  change (Z.of_nat 576) with 576%Z.
  destruct (pairfind head (DHCP2ATTR 26)) as [[j mtu]|] eqn:Hmtu; cbn.
  - specialize (Hge _ _ eq_refl).
    apply pairfind_Some in Hmtu as (Hj & Hja & Hjfirst).
    rewrite Hj. cbn. rewrite bool_decide_false by lia.
    destruct (pairfind head (DHCP2ATTR 57)) as [[i maxms]|] eqn:Hmx; cbn;
      [|done].
    apply pairfind_Some in Hmx as (Hi & Hia & Hifirst).
    rewrite Hi. cbn.
    destruct (decide (i = j)) as [->|Hij].
    + (* both pointers designate the same pair *)
      assert (maxms = mtu) as -> by congruence.
      repeat case_decide; try lia.
      by rewrite set_lvalue_id, list_insert_id.
    + destruct (decide (lvalue maxms < 576)%Z).
      * rewrite list_lookup_alter_eq, list_lookup_alter_ne, Hi, Hj by done.
        cbn. rewrite (alter_lookup_insert _ _ _ _ Hi).
        repeat case_decide; try lia; done.
      * rewrite Hi, Hj. cbn.
        repeat case_decide; try lia.
        -- by rewrite (alter_lookup_insert _ _ _ _ Hi).
        -- by rewrite set_lvalue_id, list_insert_id.
  - destruct (pairfind head (DHCP2ATTR 57)) as [[i maxms]|] eqn:Hmx; cbn;
      [|done].
    apply pairfind_Some in Hmx as (Hi & Hia & Hifirst).
    rewrite Hi. cbn.
    repeat case_decide; try lia.
    + by rewrite (alter_lookup_insert _ _ _ _ Hi).
    + by rewrite set_lvalue_id, list_insert_id.
Qed.

End ClampFacts.

(** C6.  Let [head] be the attribute list [fr_dhcp_decode] has built
    when it reaches the clamping step.  If the (first) attribute 26 has
    a value below 576, decode fails.  Otherwise decode succeeds and: an
    attribute 57 below 576 becomes 576; an attribute 57 above attribute
    26 becomes the value of attribute 26; the first attribute 57 changes
    in its value only and every other attribute is as it was. *)
Theorem fr_dhcp_decode_clamps `{platform} `{dhcp_h} `{dictionary}
    (packet : RADIUS_PACKET) (d : list Z) (head : list VALUE_PAIR) :
  decode_attrs packet = Ok (d, head) →
  (∀ j mtu, pairfind head (DHCP2ATTR 26) = Some (j, mtu) →
            (lvalue mtu < 576)%Z → fr_dhcp_decode packet = Err) ∧
  ((∀ j mtu, pairfind head (DHCP2ATTR 26) = Some (j, mtu) →
             (576 ≤ lvalue mtu)%Z) →
   ∃ packet', fr_dhcp_decode packet = Ok packet' ∧
     length (vps packet') = length head ∧
     (∀ i maxms, pairfind head (DHCP2ATTR 57) = Some (i, maxms) →
        (lvalue maxms < 576)%Z →
        vps packet' !! i = Some (set_lvalue 576 maxms)) ∧
     (∀ i maxms j mtu,
        pairfind head (DHCP2ATTR 57) = Some (i, maxms) →
        pairfind head (DHCP2ATTR 26) = Some (j, mtu) →
        (lvalue maxms > lvalue mtu)%Z →
        vps packet' !! i = Some (set_lvalue (lvalue mtu) maxms)) ∧
     (∀ i maxms, pairfind head (DHCP2ATTR 57) = Some (i, maxms) →
        ∃ v, vps packet' !! i = Some (set_lvalue v maxms)) ∧
     (∀ k, (∀ maxms, pairfind head (DHCP2ATTR 57) ≠ Some (k, maxms)) →
        vps packet' !! k = head !! k)).
Proof.
  intros Hattrs. unfold fr_dhcp_decode. rewrite Hattrs. cbn. split.
  - intros j mtu Hmtu Hlt. by rewrite (decode_clamp_fatal _ _ _ Hmtu Hlt).
  - intros Hge. rewrite (decode_clamp_ok _ Hge). cbn.
    eexists. split; [done|]. cbn.
    destruct (pairfind head (DHCP2ATTR 57)) as [[i maxms]|] eqn:Hmx.
    + pose proof Hmx as (Hi & _)%pairfind_Some.
      assert (i < length head) as Hlen by (by eapply lookup_lt_Some).
      split; [by rewrite length_insert|].
      split; [|split; [|split]].
      * intros ? ? [= <- <-] Hlt. rewrite list_lookup_insert_eq by done.
        do 2 f_equal. unfold clamp_value, DEFAULT_PACKET_SIZE.
        change (Z.of_nat 576) with 576%Z.
        destruct (pairfind head (DHCP2ATTR 26)) as [[j mtu]|] eqn:Hmtu; cbn.
        -- specialize (Hge _ _ eq_refl). repeat case_decide; lia.
        -- repeat case_decide; lia.
      * intros ? ? j mtu [= <- <-] Hmtu Hgt.
        rewrite list_lookup_insert_eq by done.
        do 2 f_equal. unfold clamp_value, DEFAULT_PACKET_SIZE.
        change (Z.of_nat 576) with 576%Z. rewrite Hmtu. cbn.
        specialize (Hge _ _ Hmtu). repeat case_decide; lia.
      * intros ? ? [= <- <-]. rewrite list_lookup_insert_eq by done. eauto.
      * intros k Hk. apply list_lookup_insert_ne. intros ->.
        by apply (Hk maxms).
    + split; [done|]. split; [done|]. split; [done|]. split; done.
Qed.

Lemma fr_dhcp_decode_clamps_witness :
  ∃ pkt d head packet',
    sample_recv small_mms_datagram = Ok pkt ∧
    @decode_attrs little_endian_host dhcp_h_instance dict_instance pkt
      = Ok (d, head) ∧
    (∃ i maxms, pairfind head (@DHCP2ATTR dhcp_h_instance 57%Z)
                  = Some (i, maxms) ∧ lvalue maxms = 400%Z ∧
       @fr_dhcp_decode little_endian_host dhcp_h_instance dict_instance pkt
         = Ok packet' ∧
       vps packet' !! i = Some (set_lvalue 576 maxms)).
Proof.
  pose (rp := sample_recv small_mms_datagram).
  assert (sample_recv small_mms_datagram = rp) as Epkt by reflexivity.
  vm_compute in rp.
  match eval unfold rp in rp with Ok ?pkt =>
    pose (ra := @decode_attrs little_endian_host dhcp_h_instance
                  dict_instance pkt);
    assert (@decode_attrs little_endian_host dhcp_h_instance
              dict_instance pkt = ra) as Eattrs by reflexivity
  end.
  vm_compute in ra.
  match eval unfold ra in ra with Ok (?d, ?head) =>
    destruct (@fr_dhcp_decode_clamps little_endian_host dhcp_h_instance
                dict_instance _ d head Eattrs) as [_ Hok]
  end.
  destruct Hok as (packet' & Hdec & _ & Hlow & _).
  { intros j mtu Hmtu. vm_compute in Hmtu. discriminate Hmtu. }
  eexists _, _, _, packet'. split; [exact Epkt|]. split; [exact Eattrs|].
  eexists 13, _. split; [by vm_compute|]. split; [done|].
  split; [exact Hdec|].
  apply Hlow; [by vm_compute|]. cbn. lia.
Defined.

(** An Interface-MTU of 400 makes decode fail, and a
    Maximum-DHCP-Message-Size of 400 is raised to 576. *)
Lemma fr_dhcp_decode_small_mtu_and_mms :
  sample_decode small_mtu_datagram = Err ∧
  (λ r, lvalue r.2) <$>
    (pairfind (vps (default rad_alloc0
                      (match sample_decode small_mms_datagram with
                       | Ok p => Some p
                       | _ => None
                       end)))
       (@DHCP2ATTR dhcp_h_instance 57%Z)) = Some 576%Z.
Proof. split; by vm_compute. Qed.

(** ** The Client-Identifier through decode and encode *)

(** C7: [client_id_datagram] carries the TLV [61][7][01 aa bb cc dd ee
    ff].  Decoding gives one ETHERNET pair for code 61, holding
    aa:bb:cc:dd:ee:ff but with length 7; encoding the decoded list in a
    DHCPACK to the same request writes [61][6][aa bb cc dd ee ff]: the
    re-tagging of lines 1021-1027 asks for length 6 and is not
    applied, and the TLV does not come back. *)
Lemma client_id_round_trip_fails :
  ∃ pkt,
    sample_decode client_id_datagram = Ok pkt ∧
    take 9 (drop 243 client_id_datagram)
      = [61; 7; 1; 0xaa; 0xbb; 0xcc; 0xdd; 0xee; 0xff]%Z ∧
    (λ r, (type r.2, vp_length r.2, take 6 (vp_octets r.2))) <$>
      pairfind (vps pkt) (@DHCP2ATTR dhcp_h_instance 61%Z)
      = Some (PW_TYPE_ETHERNET, 7,
              [0xaa; 0xbb; 0xcc; 0xdd; 0xee; 0xff]%Z) ∧
    options_of 13 (sample_encode 1029%Z (mkIP 0 0) (vps pkt) (Some pkt))
      = Some [53; 1; 5; 61; 6; 0xaa; 0xbb; 0xcc; 0xdd; 0xee; 0xff; 255; 0]%Z.
Proof.
  run_sample pkt. eexists. split; [done|].
  split; [by vm_compute|]. split; by vm_compute.
Qed.

(** A Client-Identifier pair of type ETHERNET and length 6 is re-tagged,
    but its length stays 6: the payload written is [01 aa bb cc dd ee],
    six bytes, not seven. *)
Lemma client_id_retag_keeps_length :
  ∃ pkt, sample_decode discover_datagram = Ok pkt ∧
    options_of 13 (sample_encode 1029%Z (mkIP 0 0) [ether_pair 61] (Some pkt))
      = Some [53; 1; 5; 61; 6; 1; 0xaa; 0xbb; 0xcc; 0xdd; 0xee; 255; 0]%Z.
Proof. run_sample pkt. eexists. split; [done|]. by vm_compute. Qed.

(** The re-tagging does not look at the code: an ETHERNET pair of
    length 6 for option 43 is treated alike. *)
Lemma retag_not_only_client_id :
  ∃ pkt, sample_decode discover_datagram = Ok pkt ∧
    options_of 13 (sample_encode 1029%Z (mkIP 0 0) [ether_pair 43] (Some pkt))
      = Some [53; 1; 5; 43; 6; 1; 0xaa; 0xbb; 0xcc; 0xdd; 0xee; 255; 0]%Z.
Proof. run_sample pkt. eexists. split; [done|]. by vm_compute. Qed.

(** ** The sort of fr_dhcp_encode *)

(** C5: [attr_cmp] puts a Relay-Agent pair after any other pair only
    when the Relay-Agent pair is its first argument.  For attribute 264
    (DHCP-Your-IP-Address) and attribute 82 it answers "greater" in both
    orders, and the list [264; 82] leaves the sort of [fr_dhcp_encode]
    as [82; 264]: attribute 82 precedes another attribute. *)
Lemma encode_sort_relay_agent_not_last :
  let D := @DHCP2ATTR dhcp_h_instance in
  let yiaddr := byte_pair 264 0 in
  let relay := byte_pair 82 0 in
  (@attr_cmp dhcp_h_instance yiaddr relay > 0)%Z ∧
  (@attr_cmp dhcp_h_instance relay yiaddr > 0)%Z ∧
  attribute <$> qsort (@attr_cmp dhcp_h_instance) [yiaddr; relay]
    = [D 82%Z; D 264%Z] ∧
  ∃ pkt,
    sample_decode discover_datagram = Ok pkt ∧
    attributes_of
      (sample_encode 1029%Z (mkIP 0 0) [yiaddr; relay] (Some pkt))
      = Some [D 82%Z; D 264%Z].
Proof.
  intros D yiaddr relay. split; [by vm_compute|]. split; [by vm_compute|].
  split; [by vm_compute|].
  run_sample pkt. eexists. split; [done|]. by vm_compute.
Qed.

(** ** fr_dhcp_encode without the request *)

(** C8: with no original, [fr_dhcp_encode] dereferences the NULL
    pointer at line 766 ([original->vps]), before the test of line 864
    that would return -1. *)
Lemma fr_dhcp_encode_null_original `{platform} `{dhcp_h}
    junk ntp rand c dst (l : list VALUE_PAIR) :
  fr_dhcp_encode (mkEnv true junk ntp rand) (reply_packet c dst l) None
  = Fault.
Proof. reflexivity. Qed.

(** ** The destination of the reply *)

(** C2: on a little-endian host [dhcp->flags & 0x8000] (line 1139)
    tests bit 0x80 of datagram byte 11, not the broadcast bit, which is
    bit 0x80 of byte 10.  For a DHCPOFFER to [broadcast_datagram] (no
    giaddr, no ciaddr, broadcast flag set), with the reply's destination
    preset to 192.0.2.7, the destination becomes the request's yiaddr
    0.0.0.0 and not 255.255.255.255; for [unicast_datagram], whose
    broadcast flag is clear, it becomes 255.255.255.255. *)
Lemma encode_dst_broadcast_flag_little_endian :
  let dst := mkIP 2 (@htonl little_endian_host 0xC0000207) in
  (∃ pkt, sample_decode broadcast_datagram = Ok pkt ∧
     take 2 (drop 10 broadcast_datagram) = [0x80; 0x00]%Z ∧
     @destination_of little_endian_host
       (sample_encode 1026%Z dst [] (Some pkt))
       = Some ([0; 0; 0; 0]%Z, src_port pkt)) ∧
  (∃ pkt, sample_decode unicast_datagram = Ok pkt ∧
     take 2 (drop 10 unicast_datagram) = [0x00; 0x80]%Z ∧
     @destination_of little_endian_host
       (sample_encode 1026%Z dst [] (Some pkt))
       = Some ([255; 255; 255; 255]%Z, src_port pkt)).
Proof.
  intros dst. split.
  - run_sample pkt. eexists. split; [done|]. split; by vm_compute.
  - run_sample pkt. eexists. split; [done|]. split; by vm_compute.
Qed.

Lemma land_pow2 (a n : Z) :
  (0 ≤ n)%Z →
  Z.land a (2 ^ n) = if Z.testbit a n then (2 ^ n)%Z else 0%Z.
Proof.
  intros Hn. apply Z.bits_inj'. intros m Hm.
  rewrite Z.land_spec, Z.pow2_bits_eqb by done.
  destruct (Z.eqb_spec n m) as [<-|Hne].
  - destruct (Z.testbit a n); simpl.
    + by rewrite Z.pow2_bits_true.
    + by rewrite Z.bits_0.
  - rewrite andb_false_r. destruct (Z.testbit a n).
    + by rewrite Z.pow2_bits_false.
    + by rewrite Z.bits_0.
Qed.

(** X15.  On a big-endian host the test [dhcp->flags & 0x8000] reads the
    broadcast bit, the top bit of byte 10 of the request.  For a request
    with neither giaddr nor ciaddr and a reply that is not a NAK: when
    the bit is set the reply goes to 255.255.255.255; when it is clear
    the reply goes to 255.255.255.255 if the destination given by the
    caller is 0.0.0.0, and to the yiaddr field of the request
    otherwise. *)
Lemma encode_dst_flags_big_endian (c dst : Z) (od : list Z) (f0 f1 : Z)
    `{dhcp_h} :
  od !! 10 = Some f0 → od !! 11 = Some f1 → is_byte f1 →
  take 4 (drop 24 od) = zeros 4 → take 4 (drop 12 od) = zeros 4 →
  28 ≤ length od → c ≠ PW_DHCP_NAK →
  @encode_dst big_endian_host _ c dst od =
  if decide (Z.land f0 0x80 ≠ 0)%Z
  then Ok (@htonl big_endian_host INADDR_BROADCAST)
  else if decide (dst = @htonl big_endian_host INADDR_ANY)
       then Ok (@htonl big_endian_host INADDR_BROADCAST)
       else Ok (@host_val big_endian_host (take 4 (drop 16 od))).
Proof.
  intros Hf0 Hf1 Hb1 Hgi Hci Hlen Hc. unfold encode_dst.
  assert (rdn od 24 4 = Ok (zeros 4)) as ->
    by (apply rdn_Ok; split; [lia|done]).
  assert (rdn od 12 4 = Ok (zeros 4)) as ->
    by (apply rdn_Ok; split; [lia|done]).
  assert (rdn od 10 2 = Ok [f0; f1]) as ->.
  { apply rdn_Ok. split; [lia|]. symmetry. apply list_eq. intros [|[|j]].
    - by rewrite lookup_take_lt, lookup_drop by lia.
    - by rewrite lookup_take_lt, lookup_drop by lia.
    - by rewrite lookup_take_ge by lia. }
  assert (rdn od 16 4 = Ok (take 4 (drop 16 od))) as ->
    by (apply rdn_Ok; split; [lia|done]).
  cbn [mbind result_bind]. change (host_val (zeros 4)) with 0%Z.
  change (htonl INADDR_ANY) with 0%Z.
  assert (Z.land (@host_val big_endian_host [f0; f1]) 0x8000 ≠ 0%Z ↔
          Z.land f0 0x80 ≠ 0%Z) as Hbit.
  { change (@host_val big_endian_host [f0; f1])
      with ((0 * 256 + f0) * 256 + f1)%Z.
    unfold is_byte in Hb1.
    change 0x8000%Z with (2 ^ 15)%Z. change 0x80%Z with (2 ^ 7)%Z.
    rewrite !land_pow2 by lia.
    replace (Z.testbit ((0 * 256 + f0) * 256 + f1) 15)
      with (Z.testbit f0 7).
    - destruct (Z.testbit f0 7); done.
    - change 15%Z with (7 + 8)%Z.
      rewrite <-(Z.div_pow2_bits _ 8 7) by lia. f_equal.
      change (2 ^ 8)%Z with 256%Z. Z.div_mod_to_equations. lia. }
  repeat case_decide; try done; tauto.
Qed.

(** ** Writes and the bytes below them *)

Lemma frame_refl lo buf : frame lo buf buf.
Proof. by split. Qed.

Lemma frame_trans lo lo' buf1 buf2 buf3 :
  frame lo buf1 buf2 → frame lo' buf2 buf3 → lo ≤ lo' → frame lo buf1 buf3.
Proof.
  intros [Hl1 H1] [Hl2 H2] Hle. split; [congruence|].
  intros i Hi. rewrite H2 by lia. by apply H1.
Qed.

Lemma frame_weaken lo lo' buf buf' :
  frame lo' buf buf' → lo ≤ lo' → frame lo buf buf'.
Proof. intros [Hl H] Hle. split; [done|]. intros i Hi. apply H. lia. Qed.

Lemma frame_lookup lo buf buf' i :
  frame lo buf buf' → i < lo → buf' !! i = buf !! i.
Proof. intros [_ H]. apply H. Qed.

Lemma frame_length lo buf buf' : frame lo buf buf' → length buf' = length buf.
Proof. by intros [? _]. Qed.

Lemma wr_frame buf i b buf' lo :
  wr buf i b = Ok buf' → lo ≤ i → frame lo buf buf'.
Proof.
  intros [Hi ->]%wr_Ok Hlo. split; [by rewrite length_insert|].
  intros j Hj. apply list_lookup_insert_ne. lia.
Qed.

Lemma wr_lookup buf i b buf' : wr buf i b = Ok buf' → buf' !! i = Some b.
Proof. intros [Hi ->]%wr_Ok. by apply list_lookup_insert_eq. Qed.

Lemma wrn_frame buf i bs buf' lo :
  wrn buf i bs = Ok buf' → lo ≤ i → frame lo buf buf'.
Proof.
  intros [Hi ->]%wrn_Ok Hlo. split; [by rewrite length_inserts|].
  intros j Hj. apply list_lookup_inserts_lt. lia.
Qed.

Lemma wrn_lookup buf i bs buf' k :
  wrn buf i bs = Ok buf' → k < length bs → buf' !! (i + k) = bs !! k.
Proof.
  intros [Hi ->]%wrn_Ok Hk.
  rewrite list_lookup_inserts by lia. f_equal. lia.
Qed.

Lemma emit_Ok bs st st' :
  emit bs st = Ok st' →
  st'.2 = st.2 + length bs ∧ st'.2 ≤ length st.1 ∧
  frame st.2 st.1 st'.1 ∧
  ∀ k, k < length bs → st'.1 !! (st.2 + k) = bs !! k.
Proof.
  unfold emit. intros (buf & Hw & [= <-])%bind_Ok. cbn.
  split; [done|]. split; [apply wrn_Ok in Hw as [? _]; lia|].
  split; [by eapply wrn_frame|]. intros k Hk. by eapply wrn_lookup.
Qed.

Lemma length_host_bytes `{platform} x : length (host_bytes 4 x) = 4.
Proof. unfold host_bytes. by destruct big_endian. Qed.

Lemma host_bytes_magic `{platform} :
  host_bytes 4 (htonl DHCP_OPTION_MAGIC_NUMBER) = [0x63; 0x82; 0x53; 0x63]%Z.
Proof. unfold host_bytes, htonl, host_val. by destruct big_endian. Qed.

Lemma length_zeros n : length (zeros n) = n.
Proof. apply length_replicate. Qed.

Lemma lookup_zeros n i : i < n → zeros n !! i = Some 0%Z.
Proof. apply lookup_replicate_2. Qed.

(** ** The fixed header written by fr_dhcp_encode *)

Ltac step H x Hx := apply bind_Ok in H as (x & Hx & H).

Section EncodeFacts.
Context `{platform} `{dhcp_h}.

Lemma encode_header_Ok env packet original buf st :
  encode_header env packet original buf = Ok st →
  st.2 = 240 ∧ 240 ≤ length buf ∧ frame 0 buf st.1 ∧
  st.1 !! 0 = Some 2%Z ∧
  st.1 !! 236 = Some 0x63%Z ∧ st.1 !! 237 = Some 0x82%Z ∧
  st.1 !! 238 = Some 0x53%Z ∧ st.1 !! 239 = Some 0x63%Z.
Proof.
  unfold encode_header. intros Hst.
  step Hst st1 H1. step Hst st2 H2. step Hst o Ho.
  destruct original as [o'|]; [|discriminate Ho]. injection Ho as ->.
  step Hst od Hod. step Hst hlen Hhlen. step Hst st3 H3. step Hst st4 H4.
  step Hst xid Hxid. step Hxid od' Hod'. step Hst st5 H5.
  step Hst st6 H6. step Hst fc Hfc. step Hst st7 H7. step Hst st8 H8.
  step Hst st9 H9. step Hst st10 H10. step Hst od'' Hod''.
  step Hst ch Hch. step Hst st11 H11. step Hst st12 H12.
  apply rdn_length in Hxid, Hfc, Hch.
  rewrite host_bytes_magic in Hst.
  apply emit_Ok in H1 as (P1 & L1 & F1 & B1).
  apply emit_Ok in H2 as (P2 & L2 & F2 & B2).
  apply emit_Ok in H3 as (P3 & L3 & F3 & B3).
  apply emit_Ok in H4 as (P4 & L4 & F4 & B4).
  apply emit_Ok in H5 as (P5 & L5 & F5 & B5).
  apply emit_Ok in H6 as (P6 & L6 & F6 & B6).
  apply emit_Ok in H7 as (P7 & L7 & F7 & B7).
  apply emit_Ok in H8 as (P8 & L8 & F8 & B8).
  apply emit_Ok in H9 as (P9 & L9 & F9 & B9).
  apply emit_Ok in H10 as (P10 & L10 & F10 & B10).
  apply emit_Ok in H11 as (P11 & L11 & F11 & B11).
  apply emit_Ok in H12 as (P12 & L12 & F12 & B12).
  apply emit_Ok in Hst as (P13 & L13 & F13 & B13).
  rewrite ?length_host_bytes, ?length_zeros in *. cbn [length fst snd] in *.
  unfold DHCP_CHADDR_LEN in *.
  assert (st12.2 = 236) as E12 by lia.
  pose proof (frame_length _ _ _ F1). pose proof (frame_length _ _ _ F2).
  pose proof (frame_length _ _ _ F3). pose proof (frame_length _ _ _ F4).
  pose proof (frame_length _ _ _ F5). pose proof (frame_length _ _ _ F6).
  pose proof (frame_length _ _ _ F7). pose proof (frame_length _ _ _ F8).
  pose proof (frame_length _ _ _ F9). pose proof (frame_length _ _ _ F10).
  pose proof (frame_length _ _ _ F11). pose proof (frame_length _ _ _ F12).
  pose proof (frame_length _ _ _ F13).
  split; [lia|]. split; [lia|]. split; [split; [lia|intros; lia]|].
  split.
  { rewrite (frame_lookup _ _ _ 0 F13), (frame_lookup _ _ _ 0 F12),
      (frame_lookup _ _ _ 0 F11), (frame_lookup _ _ _ 0 F10),
      (frame_lookup _ _ _ 0 F9), (frame_lookup _ _ _ 0 F8),
      (frame_lookup _ _ _ 0 F7), (frame_lookup _ _ _ 0 F6),
      (frame_lookup _ _ _ 0 F5), (frame_lookup _ _ _ 0 F4),
      (frame_lookup _ _ _ 0 F3), (frame_lookup _ _ _ 0 F2) by lia.
    apply (B1 0). lia. }
  rewrite E12 in B13.
  split; [apply (B13 0); lia|]. split; [apply (B13 1); lia|].
  split; [apply (B13 2); lia|apply (B13 3); lia].
Qed.

End EncodeFacts.

(** ** The packing loops *)

Section PackFacts.
Context `{platform} `{dhcp_h}.

Lemma fr_dhcp_vp2attr_Ok vp buf p buf' len :
  fr_dhcp_vp2attr vp buf p = Ok (buf', len) →
  frame p buf buf' ∧ (len = 0 ∨ p + len ≤ length buf).
Proof.
  unfold fr_dhcp_vp2attr. intros Hw.
  destruct (type vp); try (injection Hw as <- <-; split; [apply frame_refl|by left]).
  - (* STRING *)
    step Hw m Hm. step Hw b Hb. injection Hw as <- <-.
    apply rdn_length in Hm. split; [by eapply wrn_frame|].
    apply wrn_Ok in Hb as [? _]. right. lia.
  - (* INTEGER *)
    step Hw b Hb. injection Hw as <- <-. split; [by eapply wrn_frame|].
    apply wrn_Ok in Hb as [Hb _]. rewrite length_host_bytes in Hb. by right.
  - (* IPADDR *)
    step Hw b Hb. injection Hw as <- <-. split; [by eapply wrn_frame|].
    apply wrn_Ok in Hb as [Hb _]. rewrite length_host_bytes in Hb. by right.
  - (* OCTETS *)
    step Hw m Hm. step Hw b Hb. injection Hw as <- <-.
    apply rdn_length in Hm. split; [by eapply wrn_frame|].
    apply wrn_Ok in Hb as [? _]. right. lia.
  - (* BYTE *)
    step Hw b Hb. injection Hw as <- <-. split; [by eapply wr_frame|].
    apply wr_Ok in Hb as [? _]. right. lia.
  - (* SHORT *)
    step Hw b Hb. step Hw b' Hb'. injection Hw as <- <-.
    split.
    + eapply frame_trans; [by eapply wr_frame|eapply wr_frame; [done|]|];
        [|done]; lia.
    + apply wr_Ok in Hb' as [Hb' _]. apply wr_Ok in Hb as [? ->].
      rewrite length_insert in Hb'. right. lia.
  - (* ETHERNET *)
    step Hw m Hm. step Hw b Hb. injection Hw as <- <-.
    apply rdn_length in Hm. split; [by eapply wrn_frame|].
    apply wrn_Ok in Hb as [? _]. right. lia.
Qed.

Lemma encode_entries_Ok n plength s s' :
  encode_entries n plength s = Ok s' →
  tlv_open plength (pk_buf s) (pk_p s) →
  tlv_open plength (pk_buf s') (pk_p s') ∧
  frame plength (pk_buf s) (pk_buf s') ∧
  pk_p s ≤ pk_p s' ∧
  attribute (pk_vp s') = attribute (pk_vp s) ∧
  length (pk_next s') ≤ length (pk_next s).
Proof.
  revert s. induction n as [|n IH]; intros s Hs Hopen; cbn in Hs.
  { injection Hs as <-. split; [done|]. split; [apply frame_refl|done]. }
  destruct Hopen as (pl & Hpl & Hrange & Hp & Hlen).
  step Hs w Hw. destruct w as [buf1 len].
  apply fr_dhcp_vp2attr_Ok in Hw as [Hf1 Hroom].
  assert (buf1 !! plength = Some pl) as Hpl1
    by (rewrite (frame_lookup _ _ _ plength Hf1) by lia; done).
  pose proof (frame_length _ _ _ Hf1) as Hl1.
  assert (tlv_open plength buf1 (pk_p s)) as Hopen1.
  { exists pl. repeat split; try done; try lia. }
  assert (frame plength (pk_buf s) buf1) as Hf1'
    by (eapply frame_weaken; [done|lia]).
  destruct (decide (255 < len)).
  { injection Hs as <-. cbn. done. }
  step Hs pl0 Hpl0. apply rd_Ok in Hpl0.
  assert (pl0 = pl) as -> by congruence.
  destruct (decide (pl + Z.of_nat len > 255)%Z).
  { injection Hs as <-. cbn. done. }
  step Hs buf2 Hw2.
  pose proof (wr_frame _ _ _ _ plength Hw2 (le_n _)) as Hf2.
  pose proof (wr_lookup _ _ _ _ Hw2) as Hpl2.
  pose proof (frame_length _ _ _ Hf2) as Hl2.
  assert (tlv_open plength buf2 (pk_p s + len)) as Hopen2.
  { exists (pl + Z.of_nat len)%Z. repeat split; try done; try lia. }
  assert (frame plength (pk_buf s) buf2) as Hf
    by (eapply frame_trans; [exact Hf1'|exact Hf2|done]).
  assert (∀ s2, encode_entries n plength s2 = Ok s' →
            pk_buf s2 = buf2 → pk_p s2 = pk_p s + len →
            attribute (pk_vp s2) = attribute (pk_vp s) →
            length (pk_next s2) ≤ length (pk_next s) →
            tlv_open plength (pk_buf s') (pk_p s') ∧
            frame plength (pk_buf s) (pk_buf s') ∧
            pk_p s ≤ pk_p s' ∧
            attribute (pk_vp s') = attribute (pk_vp s) ∧
            length (pk_next s') ≤ length (pk_next s)) as Hnext.
  { intros s2 Hs2 Eb Ep Ea El.
    apply IH in Hs2 as (? & ? & ? & ? & ?); [|by rewrite Eb, Ep].
    rewrite Eb, Ep in *.
    split; [done|]. split; [eapply frame_trans; [exact Hf|done|done]|].
    split; [lia|]. split; [congruence|lia]. }
  destruct (pk_next s) as [|nx rest] eqn:Hnx.
  - eapply Hnext; [exact Hs|done..|cbn; rewrite ?Hnx; cbn; lia].
  - destruct (decide (attribute nx = attribute (pk_vp s))).
    + eapply Hnext; [exact Hs|done..|cbn; rewrite ?Hnx; cbn; lia].
    + eapply Hnext; [exact Hs|done..|cbn; rewrite ?Hnx; cbn; lia].
Qed.

End PackFacts.

Section OptionFacts.
Context `{platform} `{dhcp_h}.

Lemma retag_attribute vp n vp' :
  retag vp n = Ok vp' → attribute vp' = attribute vp.
Proof.
  unfold retag. destruct (_ && _).
  - intros Hr. step Hr m Hm. step Hr o Ho. step Hr o' Ho'.
    by injection Hr as <-.
  - by intros [= <-].
Qed.

Lemma encode_option_Ok vp rest prev buf p s :
  encode_option vp rest prev buf p = Ok s →
  pk_buf s !! p = Some (Z.land (attribute vp) 0xff) ∧
  tlv_open (p + 1) (pk_buf s) (pk_p s) ∧
  frame p buf (pk_buf s) ∧
  length (pk_next s) ≤ length rest.
Proof.
  unfold encode_option. intros Hs.
  step Hs vp' Hvp. apply retag_attribute in Hvp as Hattr.
  rewrite Hattr in Hs.
  step Hs st1 H1. step Hs st2 H2. step Hs st3 H3. step Hs s0 H0'.
  apply emit_Ok in H1 as (P1 & L1 & F1 & B1).
  apply emit_Ok in H2 as (P2 & L2 & F2 & B2).
  cbn [length fst snd] in *.
  pose proof (frame_length _ _ _ F1) as E1.
  pose proof (frame_length _ _ _ F2) as E2.
  assert (st2.1 !! p = Some (Z.land (attribute vp) 255)) as Hattr2.
  { rewrite (frame_lookup _ _ _ p F2) by lia.
    specialize (B1 0). rewrite Nat.add_0_r in B1. apply B1. lia. }
  assert (frame p buf st2.1) as F12.
  { apply (frame_weaken p) in F2; [|lia].
    by apply (frame_trans p p _ st1.1). }
  assert (st3.1 !! p = Some (Z.land (attribute vp) 255) ∧
          tlv_open (p + 1) st3.1 st3.2 ∧ frame p buf st3.1)
    as (Hattr3 & Hopen3 & F3).
  { destruct (decide (DHCP_BASE_ATTR (attribute vp) = PW_DHCP_OPTION_82)).
    - step H3 st4 H4. step H3 st5 H5. step H3 buf6 H6.
      injection H3 as <-. cbn [fst snd].
      apply emit_Ok in H4 as (P4 & L4 & F4 & B4).
      apply emit_Ok in H5 as (P5 & L5 & F5 & B5).
      cbn [length fst snd] in *.
      pose proof (frame_length _ _ _ F4). pose proof (frame_length _ _ _ F5).
      pose proof (wr_frame _ _ _ _ (p + 1) H6 (le_n _)) as F6.
      pose proof (frame_length _ _ _ F6).
      split; [|split].
      + rewrite (frame_lookup _ _ _ p F6), (frame_lookup _ _ _ p F5),
          (frame_lookup _ _ _ p F4) by lia. done.
      + exists 2%Z. split; [by eapply wr_lookup|].
        split; [lia|]. split; lia.
      + apply (frame_weaken p) in F4, F5, F6; try lia.
        apply (frame_trans p p _ st2.1); [done| |done].
        apply (frame_trans p p _ st4.1); [done| |done].
        by apply (frame_trans p p _ st5.1).
    - injection H3 as <-. split; [done|]. split; [|done].
      exists 0%Z. split.
      + specialize (B2 0). rewrite P1, Nat.add_0_r in B2. apply B2. lia.
      + split; [lia|]. split; lia. }
  apply encode_entries_Ok in H0' as (Hopen0 & F0 & P0 & A0 & N0);
    [|exact Hopen3].
  cbn [pk_buf pk_p pk_vp pk_next] in *.
  assert (pk_buf s0 !! p = Some (Z.land (attribute vp) 255)) as Hattr0
    by (rewrite (frame_lookup _ _ _ p F0) by lia; done).
  assert (frame p buf (pk_buf s0)) as Fs0.
  { apply (frame_weaken p) in F0; [|lia].
    by apply (frame_trans p p _ st3.1). }
  destruct (decide (DHCP_BASE_ATTR (attribute (pk_vp s0)) = PW_DHCP_OPTION_82)).
  - step Hs pl Hpl. step Hs buf7 H7. injection Hs as <-.
    cbn [pk_buf pk_p pk_vp pk_next].
    pose proof (wr_frame _ _ _ _ (p + 1 + 1) H7 ltac:(lia)) as F7.
    pose proof (frame_length _ _ _ F7).
    split; [rewrite (frame_lookup _ _ _ p F7) by lia; done|].
    split.
    + destruct Hopen0 as (l0 & Hl0 & ? & ? & ?). exists l0.
      split; [rewrite (frame_lookup _ _ _ (p + 1) F7) by lia; done|].
      split; [done|]. split; lia.
    + split; [|done]. apply (frame_weaken p) in F7; [|lia].
      by apply (frame_trans p p _ (pk_buf s0)).
  - injection Hs as <-. done.
Qed.

End OptionFacts.

Section DatagramFacts.
Context `{platform} `{dhcp_h}.

Lemma encode_options_Ok fuel l prev buf p buf' p' l' :
  encode_options fuel l prev buf p = Ok (buf', p', l') →
  p ≤ length buf →
  frame p buf buf' ∧ p ≤ p' ∧ p' ≤ length buf'.
Proof.
  revert l prev buf p.
  induction fuel as [|fuel IH]; intros l prev buf p Hr Hp;
    destruct l as [|vp rest]; cbn in Hr; try discriminate Hr.
  - injection Hr as <- <- <-. split; [apply frame_refl|done].
  - injection Hr as <- <- <-. split; [apply frame_refl|done].
  - destruct (skipped vp); [by eapply IH|].
    step Hr s Hs.
    apply encode_option_Ok in Hs as (_ & (pl & _ & ? & ? & ?) & Fs & _).
    apply IH in Hr as (Fr & ? & ?); [|done].
    split; [|lia].
    apply (frame_weaken p) in Fr; [|lia].
    by apply (frame_trans p p _ (pk_buf s)).
Qed.

Lemma encode_packet_Ok env packet original buf n l c :
  encode_packet env packet original = Ok (buf, n, l, c) →
  245 ≤ n ∧ n ≤ length buf ∧
  buf !! 0 = Some 2%Z ∧
  buf !! 236 = Some 0x63%Z ∧ buf !! 237 = Some 0x82%Z ∧
  buf !! 238 = Some 0x53%Z ∧ buf !! 239 = Some 0x63%Z ∧
  buf !! 240 = Some 53%Z ∧ buf !! 241 = Some 1%Z ∧
  buf !! (n - 2) = Some 255%Z ∧ buf !! (n - 1) = Some 0%Z.
Proof.
  unfold encode_packet. intros Hr.
  destruct (negb (malloc_ok env)); [discriminate Hr|].
  step Hr o Ho. step Hr l0 Hl0. step Hr st1 H1. step Hr st2 H2.
  step Hr r Hopts. destruct r as [[buf3 p3] l3].
  step Hr st4 H4. injection Hr as <- <- <- <-.
  apply encode_header_Ok in H1 as (P1 & _ & F1 & B0 & M0 & M1 & M2 & M3).
  apply emit_Ok in H2 as (P2 & L2 & F2 & B2).
  rewrite P1 in *. cbn [length] in *.
  pose proof (frame_length _ _ _ F2) as E2.
  apply encode_options_Ok in Hopts as (F3 & P3 & L3); [|lia].
  apply emit_Ok in H4 as (P4 & L4 & F4 & B4).
  cbn [length fst snd] in *. rewrite P2 in *.
  pose proof (frame_length _ _ _ F4) as E4.
  assert (∀ i, i < 243 → st4.1 !! i = st2.1 !! i) as Hlow.
  { intros i Hi. rewrite (frame_lookup _ _ _ i F4) by lia.
    by rewrite (frame_lookup _ _ _ i F3) by lia. }
  assert (∀ i, i < 240 → st4.1 !! i = st1.1 !! i) as Hhdr.
  { intros i Hi. rewrite Hlow by lia.
    by rewrite (frame_lookup _ _ _ i F2) by lia. }
  split; [lia|]. split; [lia|].
  rewrite !Hhdr by lia. do 5 (split; [done|]).
  rewrite !Hlow by lia.
  split; [apply (B2 0); lia|]. split; [apply (B2 1); lia|].
  rewrite P4.
  replace (p3 + 2 - 2) with (p3 + 0) by lia.
  replace (p3 + 2 - 1) with (p3 + 1) by lia.
  split; [apply (B4 0); lia|apply (B4 1); lia].
Qed.

End DatagramFacts.

(** ** The encoded datagram *)

(** C1.  When [fr_dhcp_encode] succeeds on a packet that is not yet
    encoded, the datagram [D] it produces starts with 2 (BOOTREPLY), has
    the magic cookie at 236..239, has 53 and 1 at 240 and 241, and, [n]
    being the length before padding, has 0xFF 0x00 at [n-2] and [n-1]
    and only zero bytes from [n] on; [D] is at least 576 bytes long, and
    when [n] is below 576 it is 576 bytes long, so that bytes [n..575]
    are zero. *)
Theorem fr_dhcp_encode_datagram `{platform} `{dhcp_h}
    env packet original reply :
  data packet = None →
  fr_dhcp_encode env packet original = Ok reply →
  ∃ D n,
    data reply = Some D ∧ data_len reply = length D ∧
    (∃ buf l c, encode_packet env packet original = Ok (buf, n, l, c)) ∧
    D !! 0 = Some 2%Z ∧
    D !! 236 = Some 0x63%Z ∧ D !! 237 = Some 0x82%Z ∧
    D !! 238 = Some 0x53%Z ∧ D !! 239 = Some 0x63%Z ∧
    D !! 240 = Some 53%Z ∧ D !! 241 = Some 1%Z ∧
    245 ≤ n ∧ n ≤ length D ∧
    D !! (n - 2) = Some 255%Z ∧ D !! (n - 1) = Some 0%Z ∧
    (∀ i, n ≤ i → i < length D → D !! i = Some 0%Z) ∧
    DEFAULT_PACKET_SIZE ≤ length D ∧
    (n < DEFAULT_PACKET_SIZE → length D = DEFAULT_PACKET_SIZE).
Proof.
  intros Hdata Hr. unfold fr_dhcp_encode in Hr. rewrite Hdata in Hr.
  step Hr r Hpk. destruct r as [[[buf n] l] c].
  step Hr o Ho. step Hr od Hod. step Hr dst Hdst.
  step Hr r Hpad. destruct r as [buf' len]. injection Hr as <-.
  cbn [data data_len].
  pose proof Hpk as (Hn & Hlen & B0 & M0 & M1 & M2 & M3 & O0 & O1 & E0 & E1)
    %encode_packet_Ok.
  unfold DEFAULT_PACKET_SIZE in *.
  destruct (decide (n < 576)) as [Hlt|Hge].
  - step Hpad buf2 Hw. injection Hpad as <- <-.
    pose proof (wrn_frame _ _ _ _ n Hw (le_n _)) as F.
    pose proof (frame_length _ _ _ F) as EF.
    pose proof Hw as [Hroom _]%wrn_Ok. rewrite length_zeros in Hroom.
    assert (length (take 576 buf2) = 576) as HD
      by (rewrite length_take; lia).
    exists (take 576 buf2), n. rewrite HD.
    split; [done|]. split; [done|]. split; [eauto|].
    rewrite !lookup_take_lt by lia.
    rewrite !(frame_lookup _ _ _ _ F) by lia.
    do 7 (split; [done|]). split; [done|]. split; [lia|].
    do 2 (split; [done|]). split; [|split; [lia|done]].
    intros i Hi1 Hi2. rewrite lookup_take_lt by lia.
    replace i with (n + (i - n)) by lia.
    rewrite (wrn_lookup _ _ _ _ _ Hw) by (rewrite length_zeros; lia).
    apply lookup_zeros. lia.
  - injection Hpad as <- <-.
    assert (length (take n buf) = n) as HD by (rewrite length_take; lia).
    exists (take n buf), n. rewrite HD.
    split; [done|]. split; [done|]. split; [eauto|].
    rewrite !lookup_take_lt by lia.
    do 7 (split; [done|]). split; [done|]. split; [lia|].
    do 2 (split; [done|]). split; [|split; [lia|lia]].
    intros i Hi1 Hi2. lia.
Qed.

Lemma fr_dhcp_encode_datagram_witness :
  ∃ pkt reply D n,
    sample_decode discover_datagram = Ok pkt ∧
    sample_encode 1026%Z (mkIP 0 0) [] (Some pkt) = Ok reply ∧
    data reply = Some D ∧ length D = 576 ∧ n = 245 ∧
    D !! 0 = Some 2%Z ∧ D !! 240 = Some 53%Z ∧ D !! 241 = Some 1%Z ∧
    D !! (n - 2) = Some 255%Z ∧ D !! (n - 1) = Some 0%Z ∧
    (∀ i, n ≤ i → i < 576 → D !! i = Some 0%Z).
Proof.
  pose (rp := sample_decode discover_datagram).
  assert (sample_decode discover_datagram = rp) as Epkt by reflexivity.
  vm_compute in rp.
  match eval unfold rp in rp with Ok ?pkt =>
    pose (re := sample_encode 1026%Z (mkIP 0 0) [] (Some pkt));
    assert (sample_encode 1026%Z (mkIP 0 0) [] (Some pkt) = re) as Eenc
      by reflexivity
  end.
  vm_compute in re.
  match eval unfold re in re with Ok ?reply =>
    destruct (@fr_dhcp_encode_datagram little_endian_host dhcp_h_instance
                sample_env (reply_packet 1026%Z (mkIP 0 0) []) _ reply
                eq_refl Eenc)
      as (D & n & HD & HL & (buf & l & c & Hpk) & B0 & _ & _ & _ & _ &
          O0 & O1 & _ & _ & E0 & E1 & Hz & _ & Hlen)
  end.
  assert (n = 245) as Hn.
  { vm_compute in Hpk. by injection Hpk as _ <- _ _. }
  subst n. specialize (Hlen ltac:(unfold DEFAULT_PACKET_SIZE; lia)).
  eexists _, _, D, 245. split; [exact Epkt|]. split; [exact Eenc|].
  split; [exact HD|]. split; [exact Hlen|]. split; [done|].
  do 5 (split; [done|]). intros i Hi1 Hi2. apply Hz; [done|].
  rewrite Hlen. exact Hi2.
Defined.

(** ** The length of an option *)

(** C9, as stated, fails.  Two OCTETS pairs of 127 bytes for option 43
    are packed into one TLV whose length byte is 254.  And of four pairs
    of 100 bytes for option 43 the first two make a TLV of length 200,
    the third is left out, and the fourth is written in a TLV of its own
    rather than dropped. *)
Lemma encode_tlv_length_above_253 :
  ∃ pkt, sample_decode discover_datagram = Ok pkt ∧
    (let D := datagram_of
                (sample_encode 1029%Z (mkIP 0 0)
                   [octets_pair 43 127 1; octets_pair 43 127 2] (Some pkt)) in
     D !! 243 = Some 43%Z ∧ D !! 244 = Some 254%Z ∧ (254 > 253)%Z ∧
     D !! 245 = Some 1%Z ∧ D !! (245 + 127) = Some 2%Z ∧
     D !! (245 + 254) = Some 255%Z) ∧
    (let D := datagram_of
                (sample_encode 1029%Z (mkIP 0 0)
                   [octets_pair 43 100 1; octets_pair 43 100 2;
                    octets_pair 43 100 3; octets_pair 43 100 4] (Some pkt)) in
     D !! 243 = Some 43%Z ∧ D !! 244 = Some 200%Z ∧
     D !! 245 = Some 1%Z ∧ D !! 345 = Some 2%Z ∧
     D !! 445 = Some 43%Z ∧ D !! 446 = Some 100%Z ∧
     D !! 447 = Some 4%Z ∧ D !! 547 = Some 255%Z).
Proof.
  run_sample pkt. eexists. split; [done|]. split.
  - vm_compute. repeat split; done.
  - vm_compute. repeat split; done.
Qed.

(** Nothing in the packing loops looks at the room left in the
    1460-byte buffer: six pairs of 250 bytes for six options make
    [fr_dhcp_encode] write past its end. *)
Lemma fr_dhcp_encode_overflows_buffer :
  ∃ pkt, sample_decode discover_datagram = Ok pkt ∧
    sample_encode 1029%Z (mkIP 0 0)
      [octets_pair 43 250 1; octets_pair 44 250 2; octets_pair 45 250 3;
       octets_pair 46 250 4; octets_pair 47 250 5; octets_pair 48 250 6]
      (Some pkt) = Fault.
Proof. run_sample pkt. eexists. split; [done|]. by vm_compute. Qed.

(** C9, as amended.  Every TLV that [encode_option] writes at [p] has
    the low byte of the attribute at [p] and, at [p + 1], a length byte
    of at most 255 that counts the bytes of the TLV behind it.  An entry
    that would take this count above 255 is not added: the loop over
    the entries ends with the write position and the length byte as
    they were.  Nothing is said of the room in the buffer, which the
    code does not check. *)
Theorem encode_option_tlv_length `{platform} `{dhcp_h} :
  (∀ vp rest prev buf p s,
     encode_option vp rest prev buf p = Ok s →
     ∃ len, pk_buf s !! p = Some (Z.land (attribute vp) 0xff) ∧
            pk_buf s !! (p + 1) = Some len ∧ (0 ≤ len ≤ 255)%Z ∧
            pk_p s = p + 2 + Z.to_nat len) ∧
  (∀ n plength s buf len pl,
     fr_dhcp_vp2attr (pk_vp s) (pk_buf s) (pk_p s) = Ok (buf, len) →
     plength < pk_p s → pk_buf s !! plength = Some pl →
     (pl + Z.of_nat len > 255)%Z →
     ∃ s', encode_entries (S n) plength s = Ok s' ∧
           pk_p s' = pk_p s ∧ pk_buf s' !! plength = Some pl ∧
           pk_vp s' = pk_vp s ∧ pk_next s' = pk_next s).
Proof.
  split.
  - intros vp rest prev buf p s Hs.
    apply encode_option_Ok in Hs as (Hattr & (len & ? & ? & ? & ?) & _).
    exists len. repeat split; try done; lia.
  - intros n plength s buf len pl Hw Hlt Hpl Hover. cbn. rewrite Hw. cbn.
    apply fr_dhcp_vp2attr_Ok in Hw as [F _].
    assert (buf !! plength = Some pl) as Hpl'
      by (rewrite (frame_lookup _ _ _ plength F) by lia; done).
    destruct (decide (255 < len)); [by eexists|].
    assert (rd buf plength = Ok pl) as -> by (by apply rd_Ok). cbn.
    rewrite decide_True by done. by eexists.
Qed.

Lemma encode_option_tlv_length_witness :
  (∃ s len,
     @encode_option little_endian_host dhcp_h_instance
       (octets_pair 43 127 1) [octets_pair 43 127 2] []
       (zeros MAX_PACKET_SIZE) 243 = Ok s ∧
     pk_buf s !! 243 = Some 43%Z ∧ pk_buf s !! 244 = Some len ∧
     len = 254%Z ∧ pk_p s = 499) ∧
  (∃ s',
     @encode_entries little_endian_host 2 244
       (mkPack (<[244 := 200%Z]> (zeros MAX_PACKET_SIZE)) 445
          (octets_pair 43 100 3) [octets_pair 43 100 4] []) = Ok s' ∧
     pk_p s' = 445 ∧ pk_buf s' !! 244 = Some 200%Z ∧
     pk_vp s' = octets_pair 43 100 3 ∧
     pk_next s' = [octets_pair 43 100 4]).
Proof.
  split.
  - pose (r := @encode_option little_endian_host dhcp_h_instance
                 (octets_pair 43 127 1) [octets_pair 43 127 2] []
                 (zeros MAX_PACKET_SIZE) 243).
    assert (@encode_option little_endian_host dhcp_h_instance
              (octets_pair 43 127 1) [octets_pair 43 127 2] []
              (zeros MAX_PACKET_SIZE) 243 = r)
      as E by reflexivity.
    vm_compute in r.
    match eval unfold r in r with Ok ?s =>
      destruct (proj1 (@encode_option_tlv_length little_endian_host
                         dhcp_h_instance) _ _ _ _ _ s E)
        as (len & Hattr & Hlen & Hrange & Hp)
    end.
    assert (len = 254%Z) as Hl by (vm_compute in Hlen; congruence).
    eexists _, len. split; [exact E|]. split; [exact Hattr|].
    split; [exact Hlen|]. split; [exact Hl|]. rewrite Hp, Hl. reflexivity.
  - pose (r := @fr_dhcp_vp2attr little_endian_host (octets_pair 43 100 3)
                 (<[244 := 200%Z]> (zeros MAX_PACKET_SIZE)) 445).
    assert (@fr_dhcp_vp2attr little_endian_host (octets_pair 43 100 3)
              (<[244 := 200%Z]> (zeros MAX_PACKET_SIZE)) 445 = r)
      as E by reflexivity.
    vm_compute in r.
    match eval unfold r in r with Ok (?buf, ?len) =>
      exact (proj2 (@encode_option_tlv_length little_endian_host
                      dhcp_h_instance) 1 244
               (mkPack (<[244 := 200%Z]> (zeros MAX_PACKET_SIZE)) 445
                  (octets_pair 43 100 3) [octets_pair 43 100 4] [])
               buf len 200%Z E
               ltac:(cbn; lia) eq_refl ltac:(cbn; lia))
    end.
Defined.

(** ** The loops have fuel enough *)

Lemma bind_terminates {A B} (m : result A) (k : A → result B) :
  terminates m → (∀ a, m = Ok a → terminates (k a)) → terminates (m ≫= k).
Proof. unfold terminates. destruct m; cbn; eauto. Qed.

Lemma rd_terminates buf i : terminates (rd buf i).
Proof. unfold terminates, rd. by destruct (buf !! i). Qed.

Lemma rdn_terminates buf i n : terminates (rdn buf i n).
Proof. unfold terminates, rdn. by case_decide. Qed.

Lemma wr_terminates buf i b : terminates (wr buf i b).
Proof. unfold terminates, wr. by case_decide. Qed.

Lemma wrn_terminates buf i bs : terminates (wrn buf i bs).
Proof. unfold terminates, wrn. by case_decide. Qed.

Lemma deref_terminates {A} (ptr : option A) : terminates (deref ptr).
Proof. unfold terminates. by destruct ptr. Qed.

Ltac term_step :=
  match goal with
  | |- terminates (_ ≫= _) => apply bind_terminates; [|intros ? ?]
  | |- terminates (Ok _) => done
  | |- terminates Err => done
  | |- terminates Fault => done
  | |- terminates (rd _ _) => apply rd_terminates
  | |- terminates (rdn _ _ _) => apply rdn_terminates
  | |- terminates (wr _ _ _) => apply wr_terminates
  | |- terminates (wrn _ _ _) => apply wrn_terminates
  | |- terminates (deref _) => apply deref_terminates
  | |- terminates (if ?b then _ else _) => destruct b
  | |- terminates (match ?x with _ => _ end) => destruct x
  | |- terminates (let '(_, _) := ?x in _) => destruct x
  end.

Ltac term := repeat term_step.

Lemma emit_terminates bs st : terminates (emit bs st).
Proof. unfold emit. term. Qed.

Section Termination.
Context `{platform} `{dhcp_h} `{dictionary}.

Lemma fr_dhcp_vp2attr_terminates vp buf p :
  terminates (fr_dhcp_vp2attr vp buf p).
Proof. unfold fr_dhcp_vp2attr. term. Qed.

Lemma encode_entries_terminates n plength s :
  terminates (encode_entries n plength s).
Proof.
  revert s. induction n as [|n IH]; intros s; cbn; [done|].
  apply bind_terminates; [apply fr_dhcp_vp2attr_terminates|].
  intros [buf len] _. term; apply IH.
Qed.

Lemma encode_option_terminates vp rest prev buf p :
  terminates (encode_option vp rest prev buf p).
Proof.
  unfold encode_option, retag.
  repeat first [apply emit_terminates | apply encode_entries_terminates
               | term_step].
Qed.

Lemma encode_options_terminates fuel l prev buf p :
  length l ≤ fuel → terminates (encode_options fuel l prev buf p).
Proof.
  revert l prev buf p.
  induction fuel as [|fuel IH]; intros l prev buf p Hfuel;
    destruct l as [|vp rest]; cbn in *; try done; try lia.
  destruct (skipped vp); [apply IH; lia|].
  apply bind_terminates; [apply encode_option_terminates|].
  intros s Hs. apply encode_option_Ok in Hs as (_ & _ & _ & Hlen).
  apply IH. lia.
Qed.

Lemma encode_auth_terminates env l : terminates (encode_auth env l).
Proof. unfold encode_auth. term. Qed.

Lemma encode_header_terminates env packet original buf :
  terminates (encode_header env packet original buf).
Proof.
  unfold encode_header. repeat first [apply emit_terminates | term_step].
Qed.

Lemma encode_dst_terminates c dst od : terminates (encode_dst c dst od).
Proof. unfold encode_dst. term. Qed.

(** [fr_dhcp_encode] always comes to an end: the budget given to the
    loop over the attribute list is never exhausted. *)
Lemma fr_dhcp_encode_terminates env packet original :
  terminates (fr_dhcp_encode env packet original).
Proof.
  unfold fr_dhcp_encode. destruct (data packet); [done|].
  apply bind_terminates.
  - unfold encode_packet.
    repeat first [apply emit_terminates | apply encode_auth_terminates
                 | apply encode_header_terminates
                 | apply encode_options_terminates; lia | term_step].
  - intros [[[buf n] l] c] _.
    repeat first [apply encode_dst_terminates | term_step].
Qed.

End Termination.

Section DecodeTermination.
Context `{platform} `{dhcp_h} `{dictionary}.

Lemma decode_value_terminates da alen num d p vp :
  terminates (decode_value da alen num d p vp).
Proof. unfold decode_value. term. Qed.

Lemma decode_entries_terminates da alen num n d p head :
  terminates (decode_entries da alen num n d p head).
Proof.
  revert p head. induction n as [|n IH]; intros p head; cbn; [done|].
  destruct (pairmake _); [|done].
  apply bind_terminates; [apply decode_value_terminates|]. intros ? _.
  apply IH.
Qed.

Lemma decode_raw_terminates da alen d p head :
  terminates (decode_raw da alen d p head).
Proof. unfold decode_raw. term. Qed.

Lemma decode_options_terminates fuel d p total head :
  Forall is_byte d → (total ≤ Z.of_nat fuel)%Z →
  terminates (decode_options fuel d p total head).
Proof.
  intros Hd. revert p total head.
  induction fuel as [|fuel IH]; intros p total head Hfuel; cbn.
  { rewrite decide_True by lia. done. }
  destruct (decide (total ≤ 0)%Z); [done|].
  apply bind_terminates; [apply rd_terminates|]. intros c Hc.
  destruct (decide (c = 0%Z)); [done|].
  destruct (decide (c = 255%Z)); [done|].
  apply bind_terminates; [apply rd_terminates|]. intros l Hl.
  assert (is_byte l) as Hbyte
    by (apply rd_Ok in Hl; by eapply is_byte_lookup).
  unfold is_byte in Hbyte.
  destruct (decide (253 ≤ l)%Z); [apply IH; lia|].
  destruct (dict_attrbyvalue _) as [da|]; [|apply IH; lia].
  destruct (option_shape da (Z.to_nat l)) as [[num alen]|].
  - apply bind_terminates; [apply decode_entries_terminates|].
    intros [p' head'] _. apply IH. lia.
  - apply bind_terminates; [apply decode_raw_terminates|].
    intros [p' head'] _. apply IH. lia.
Qed.

Lemma decode_header_terminates d fields p head :
  terminates (decode_header d fields p head).
Proof.
  revert p head. induction fields as [|[[i nm] size] fields IH];
    intros p head; cbn; [done|].
  apply bind_terminates; [unfold decode_header_field; term|].
  intros ? _. apply IH.
Qed.

(** X18.  [fr_dhcp_decode] always comes to an end on a datagram of bytes:
    every turn of the option loop takes at least two bytes off the count
    of bytes left, so the loop runs no more turns than the datagram has
    bytes after the header, whatever the length bytes say. *)
Lemma fr_dhcp_decode_terminates packet d :
  data packet = Some d → Forall is_byte d →
  terminates (fr_dhcp_decode packet).
Proof.
  intros Hdata Hd. unfold fr_dhcp_decode, decode_attrs. rewrite Hdata.
  apply bind_terminates.
  - apply bind_terminates; [apply rd_terminates|]. intros b1 _.
    destruct (decide (b1 ≠ 1%Z)); [done|].
    apply bind_terminates; [apply decode_header_terminates|]. intros h _.
    apply bind_terminates; [apply decode_options_terminates; [done|lia]|].
    intros h' _. unfold decode_fixup. term.
  - intros [d' head] _. unfold decode_clamp. term.
Qed.

End DecodeTermination.

(** ** Ports, source and socket of the reply *)


(** ** The sort on lists without a Relay-Agent pair *)

Lemma qsort_insert_perm {A} (cmp : A → A → Z) x (l : list A) :
  qsort_insert cmp x l ≡ₚ x :: l.
Proof.
  induction l as [|y l IH]; cbn; [done|].
  case_decide; [|done]. rewrite IH. apply Permutation_swap.
Qed.

Lemma qsort_perm {A} (cmp : A → A → Z) (l : list A) : qsort cmp l ≡ₚ l.
Proof.
  unfold qsort.
  assert (∀ acc, fold_left (λ sorted x, qsort_insert cmp x sorted) l acc
                 ≡ₚ l ++ acc) as Hfold.
  { induction l as [|x l IH]; intros acc; cbn; [done|].
    rewrite IH, qsort_insert_perm. by rewrite Permutation_middle. }
  rewrite reverse_Permutation, Hfold. by rewrite app_nil_r.
Qed.

Section SortFacts.
Context `{dhcp_h}.

Lemma to_int_small x : (- 2 ^ 31 ≤ x < 2 ^ 31)%Z → to_int x = x.
Proof. intros Hx. unfold to_int. rewrite Z.mod_small by lia. lia. Qed.

Lemma attr_cmp_plain a b :
  plain a → int_attribute a → int_attribute b →
  attr_cmp a b = (attribute a - attribute b)%Z.
Proof.
  intros [H53 H82] Ha Hb. unfold attr_cmp.
  rewrite (bool_decide_eq_false_2 _ H53), (bool_decide_eq_false_2 _ H82).
  cbn. apply to_int_small. unfold int_attribute in *. lia.
Qed.

Lemma qsort_insert_descending x l :
  int_attribute x → Forall plain l → Forall int_attribute l →
  descending l → descending (qsort_insert attr_cmp x l).
Proof.
  intros Hx Hplain Hint Hsorted.
  induction Hsorted as [|y l Hsorted IH Hy]; cbn.
  { repeat constructor. }
  apply Forall_cons in Hplain as [Hpy Hpl].
  apply Forall_cons in Hint as [Hiy Hil].
  rewrite (attr_cmp_plain _ _ Hpy Hiy Hx). case_decide.
  - constructor; [by apply IH|].
    rewrite (qsort_insert_perm attr_cmp x l). constructor; [lia|done].
  - constructor; [by constructor|].
    constructor; [lia|]. eapply Forall_impl; [exact Hy|].
    intros z Hz. cbn in Hz. lia.
Qed.

(** X16.  When no pair of the list is a Relay-Agent pair (the Message-Type
    pairs have been deleted before the sort) and every attribute number
    is a non-negative [int], so that no difference wraps, the sort
    leaves the pairs in non-decreasing order of attribute number. *)
Lemma qsort_attr_cmp_sorted (l : list VALUE_PAIR) :
  Forall plain l → Forall int_attribute l →
  qsort attr_cmp l ≡ₚ l ∧
  StronglySorted (λ a b, (attribute a ≤ attribute b)%Z) (qsort attr_cmp l).
Proof.
  intros Hplain Hint. split; [apply qsort_perm|].
  unfold qsort.
  assert (∀ acc, Forall plain acc → Forall int_attribute acc →
            descending acc →
            Forall plain l → Forall int_attribute l →
            descending (fold_left (λ sorted x, qsort_insert attr_cmp x sorted)
                          l acc)) as Hfold.
  { clear Hplain Hint.
    induction l as [|x l IH]; intros acc Hacc Hiacc Hs Hl Hil; cbn;
      [done|].
    apply Forall_cons in Hl as [Hx Hl].
    apply Forall_cons in Hil as [Hix Hil]. apply IH; [| | |done|done].
    - rewrite (qsort_insert_perm attr_cmp x acc). by constructor.
    - rewrite (qsort_insert_perm attr_cmp x acc). by constructor.
    - by apply qsort_insert_descending. }
  specialize (Hfold [] (Forall_nil_2 _) (Forall_nil_2 _) (SSorted_nil _)
                Hplain Hint).
  revert Hfold. generalize (fold_left (λ sorted x, qsort_insert attr_cmp x sorted) l []).
  intros acc Hdesc. clear Hplain Hint.
  induction Hdesc as [|y acc Hdesc IH Hy]; [constructor|].
  rewrite reverse_cons.
  assert (∀ (l1 : list VALUE_PAIR) z,
            StronglySorted (λ a b, (attribute a ≤ attribute b)%Z) l1 →
            Forall (λ a, (attribute a ≤ attribute z)%Z) l1 →
            StronglySorted (λ a b, (attribute a ≤ attribute b)%Z) (l1 ++ [z]))
    as Hsnoc.
  { intros l1 z Hs. induction Hs as [|a l1 Hs IHs Ha]; intros Hall; cbn.
    - repeat constructor.
    - apply Forall_cons in Hall as [Haz Hall].
      constructor; [by apply IHs|].
      apply Forall_app. split; [done|]. by constructor. }
  apply Hsnoc; [done|].
  rewrite Forall_forall. intros a Ha. rewrite elem_of_reverse in Ha.
  rewrite Forall_forall in Hy. exact (Hy a Ha).
Qed.

End SortFacts.

(** * Further properties of the codec *)

(** ** The header of the reply *)

Lemma frame_take lo buf buf' :
  frame lo buf buf' → take lo buf' = take lo buf.
Proof.
  intros [Hlen Hlo]. apply list_eq. intros i.
  destruct (decide (i < lo)).
  - rewrite !lookup_take_lt by done. by apply Hlo.
  - by rewrite !lookup_take_ge by lia.
Qed.

Lemma emit_take bs st st' :
  emit bs st = Ok st' → take st'.2 st'.1 = take st.2 st.1 ++ bs.
Proof.
  unfold emit. intros (buf & [Hroom ->]%wrn_Ok & [= <-])%bind_Ok. cbn.
  apply list_eq. intros i.
  destruct (decide (i < st.2)).
  - rewrite lookup_take_lt, list_lookup_inserts_lt by lia.
    rewrite lookup_app_l by (rewrite length_take; lia).
    by rewrite lookup_take_lt.
  - destruct (decide (i < st.2 + length bs)).
    + rewrite lookup_take_lt, list_lookup_inserts by lia.
      rewrite lookup_app_r by (rewrite length_take; lia).
      f_equal. rewrite length_take. lia.
    + rewrite lookup_take_ge by lia. symmetry. apply lookup_ge_None.
      rewrite length_app, length_take. lia.
Qed.

Section HeaderFacts.
Context `{platform} `{dhcp_h}.

Lemma encode_header_bytes env packet o od buf st :
  encode_header env packet (Some o) buf = Ok st →
  data o = Some od →
  take 240 st.1 =
  reply_header od (match pairfind (vps packet) (DHCP2ATTR 264) with
                   | Some (_, vp) => lvalue vp
                   | None => htonl INADDR_ANY
                   end).
Proof.
  intros Hst Hdata.
  pose proof (encode_header_Ok _ _ _ _ _ Hst) as (E & _).
  unfold encode_header in Hst.
  step Hst st1 H1. step Hst st2 H2. step Hst o' Ho. injection Ho as <-.
  step Hst od' Hod. rewrite Hdata in Hod. injection Hod as <-.
  step Hst hlen Hhlen. step Hst st3 H3. step Hst st4 H4.
  step Hst xid Hxid. step Hxid od' Hod'. rewrite Hdata in Hod'.
  injection Hod' as <-. step Hst st5 H5.
  step Hst st6 H6. step Hst fc Hfc. step Hst st7 H7. step Hst st8 H8.
  step Hst st9 H9. step Hst st10 H10. step Hst od'' Hod''.
  rewrite Hdata in Hod''. injection Hod'' as <-.
  step Hst ch Hch. step Hst st11 H11. step Hst st12 H12.
  rewrite host_bytes_magic in Hst.
  apply rd_Ok in Hhlen.
  assert (take 1 (drop 2 od) = [hlen]) as Ehlen.
  { apply list_eq. intros [|i].
    - by rewrite lookup_take_lt, lookup_drop by lia.
    - rewrite lookup_take_ge by lia. done. }
  apply rdn_Ok in Hxid as [Bx ->]. apply rdn_Ok in Hfc as [Bf ->].
  apply rdn_Ok in Hch as [Bc ->].
  apply emit_take in H1, H2, H3, H4, H5, H6, H7, H8, H9, H10, H11, H12.
  pose proof (emit_take _ _ _ Hst) as H13.
  rewrite E in H13. rewrite H13, H12, H11, H10, H9, H8, H7, H6, H5, H4, H3,
    H2, H1.
  cbn [fst snd take]. unfold reply_header. rewrite Ehlen.
  rewrite <-!app_assoc. done.
Qed.

End HeaderFacts.

(** ** Lists that differ in the byte values of their pairs *)

Lemma same_code_refl vp : same_code vp vp.
Proof. done. Qed.

Lemma same_code_trans vp1 vp2 vp3 :
  same_code vp1 vp2 → same_code vp2 vp3 → same_code vp1 vp3.
Proof. unfold same_code. intros [] []. split; congruence. Qed.

Lemma Forall2_same_code_refl l : Forall2 same_code l l.
Proof. induction l; constructor; done. Qed.

Lemma Forall2_same_code_insert l k vp vp' :
  l !! k = Some vp → same_code vp vp' → Forall2 same_code l (<[k := vp']> l).
Proof.
  revert k. induction l as [|x l IH]; intros [|k] Hk Hs; cbn in *; try done.
  - injection Hk as ->. constructor; [done|apply Forall2_same_code_refl].
  - constructor; [done|by apply IH].
Qed.

Lemma Forall2_same_code_attribute l l' :
  Forall2 same_code l l' → attribute <$> l' = attribute <$> l.
Proof.
  induction 1 as [|x y l l' [Ha _] _ IH]; cbn; [done|]. by rewrite Ha, IH.
Qed.

Lemma pairfind_same_code l l' a :
  Forall2 same_code l l' →
  match pairfind l a with
  | None => pairfind l' a = None
  | Some (k, vp) => ∃ vp', pairfind l' a = Some (k, vp') ∧ same_code vp vp'
  end.
Proof.
  unfold pairfind. induction 1 as [|x y l l' Hxy _ IH]; cbn; [done|].
  destruct Hxy as [Ha Hl]. rewrite Ha.
  destruct (decide (attribute x = a)); [by exists y|].
  destruct (list_find _ l) as [[k vp]|]; cbn.
  - destruct IH as (vp' & -> & Hs). cbn. by exists vp'.
  - by rewrite IH.
Qed.

Section AuthFacts.
Context `{platform} `{dhcp_h}.

Lemma encode_auth_same_code env l l' :
  encode_auth env l = Ok l' → Forall2 same_code l l'.
Proof.
  unfold encode_auth.
  destruct (pairfind l (DHCP2ATTR 90)) as [[k vp]|] eqn:Hfind;
    [|intros [= <-]; apply Forall2_same_code_refl].
  apply pairfind_Some in Hfind as (Hk & _).
  intros Hr. step Hr vp1 H1. step Hr vp2 H2. step Hr b0 Hb0.
  step Hr vp3 H3. injection Hr as <-.
  apply (Forall2_same_code_insert _ _ vp); [done|].
  assert (same_code vp vp1) as S1.
  { destruct (decide (vp_length vp < 2)).
    - step H1 o Ho. by injection H1 as <-.
    - by injection H1 as <-. }
  assert (same_code vp1 vp2) as S2.
  { destruct (decide (vp_length vp1 < 3)).
    - step H2 o Ho. step H2 o' Ho'. by injection H2 as <-.
    - by injection H2 as <-. }
  assert (same_code vp2 vp3) as S3.
  { destruct (decide (b0 = 0%Z)); [|by injection H3 as <-].
    step H3 o Ho. destruct (pairfind _ PW_CLEARTEXT_PASSWORD) as [[? pass]|].
    - step H3 m Hm. step H3 o' Ho'. by injection H3 as <-.
    - by injection H3 as <-. }
  eauto using same_code_trans.
Qed.

End AuthFacts.

Section ReplyHeader.
Context `{platform} `{dhcp_h}.

Lemma encode_packet_header env packet o od buf n l c :
  encode_packet env packet (Some o) = Ok (buf, n, l, c) →
  data o = Some od →
  c = (if decide (code packet = 0%Z) then PW_DHCP_NAK else code packet) ∧
  take 243 buf =
  reply_header od (match pairfind (vps packet) (DHCP2ATTR 264) with
                   | Some (_, vp) => lvalue vp
                   | None => htonl INADDR_ANY
                   end)
  ++ [53; 1; (c - PW_DHCP_OFFSET) `mod` 256]%Z.
Proof.
  unfold encode_packet. intros Hr Hdata.
  destruct (negb (malloc_ok env)); [discriminate Hr|].
  step Hr o' Ho. step Hr l0 Hl0. step Hr st1 H1. step Hr st2 H2.
  step Hr r Hopts. destruct r as [[buf3 p3] l3].
  step Hr st4 H4. injection Hr as <- <- <- <-. split; [done|].
  pose proof (encode_header_Ok _ _ _ _ _ H1) as (P1 & _).
  apply encode_header_bytes with (od := od) in H1; [|done].
  cbn [vps] in H1.
  pose proof (emit_take _ _ _ H2) as T2.
  apply emit_Ok in H2 as (P2 & L2 & F2 & _).
  rewrite P1 in *. cbn [length] in *. rewrite P2 in *.
  pose proof (frame_length _ _ _ F2) as E2.
  apply encode_options_Ok in Hopts as (F3 & P3 & L3); [|lia].
  apply emit_Ok in H4 as (_ & _ & F4 & _). cbn [fst snd] in *.
  apply (frame_weaken 243) in F4; [|lia].
  change (240 + 3) with 243 in *.
  rewrite (frame_take _ _ _ F4), (frame_take _ _ _ F3), T2, H1.
  f_equal. f_equal.
  pose proof (pairfind_same_code _ _ (DHCP2ATTR 264)
                (encode_auth_same_code _ _ _ Hl0)) as Hfind.
  destruct (pairfind (vps packet) (DHCP2ATTR 264)) as [[k vp]|].
  - destruct Hfind as (vp' & -> & _ & Hlv). done.
  - by rewrite Hfind.
Qed.

(** X9.  The fixed part of a reply.  The first 240 bytes of the datagram are
    op 2, htype 1, the request's hlen, hops 0, the request's xid, secs
    0, the request's flags and ciaddr, the value of the reply's first
    DHCP-Your-IP-Address pair (0.0.0.0 without one), siaddr and giaddr
    0, the request's chaddr, 192 zero bytes and the magic cookie; they
    are followed by [53][1][code - PW_DHCP_OFFSET], where a reply code
    of 0 stands for PW_DHCP_NAK. *)
Lemma fr_dhcp_encode_reply_header env packet o od reply :
  data packet = None →
  fr_dhcp_encode env packet (Some o) = Ok reply →
  data o = Some od →
  code reply =
    (if decide (code packet = 0%Z) then PW_DHCP_NAK else code packet) ∧
  ∃ D, data reply = Some D ∧
    take 243 D =
    reply_header od (match pairfind (vps packet) (DHCP2ATTR 264) with
                     | Some (_, vp) => lvalue vp
                     | None => htonl INADDR_ANY
                     end)
    ++ [53; 1; (code reply - PW_DHCP_OFFSET) `mod` 256]%Z.
Proof.
  intros Hnone Hr Hdata. unfold fr_dhcp_encode in Hr. rewrite Hnone in Hr.
  step Hr r Hpk. destruct r as [[[buf n] l] c].
  step Hr o' Ho. step Hr od' Hod. step Hr dst Hdst.
  step Hr r Hpad. destruct r as [buf' len]. injection Hr as <-.
  cbn [data code].
  pose proof (encode_packet_Ok _ _ _ _ _ _ _ Hpk) as (Hn & Hlen & _).
  apply encode_packet_header with (od := od) in Hpk as [Hc Hhdr]; [|done].
  split; [done|]. eexists. split; [done|].
  rewrite <-Hhdr. unfold DEFAULT_PACKET_SIZE in *.
  destruct (decide (n < 576)).
  - step Hpad buf2 Hw. injection Hpad as <- <-.
    pose proof (wrn_frame _ _ _ _ 243 Hw ltac:(lia)) as F.
    rewrite take_take, Nat.min_l by lia. by apply frame_take.
  - injection Hpad as <- <-. rewrite take_take, Nat.min_l by lia. done.
Qed.

End ReplyHeader.

Lemma fr_dhcp_encode_reply_header_witness :
  ∃ pkt reply D,
    sample_decode discover_datagram = Ok pkt ∧
    sample_encode 0%Z (mkIP 0 0) [] (Some pkt) = Ok reply ∧
    code reply = 1030%Z ∧ data reply = Some D ∧
    take 12 D = [2; 1; 6; 0; 0x12; 0x34; 0x56; 0x78; 0; 0; 0; 0]%Z ∧
    D !! 242 = Some 6%Z.
Proof.
  pose (rp := sample_decode discover_datagram).
  assert (sample_decode discover_datagram = rp) as Epkt by reflexivity.
  vm_compute in rp.
  match eval unfold rp in rp with Ok ?pkt =>
    pose (re := sample_encode 0%Z (mkIP 0 0) [] (Some pkt));
    assert (sample_encode 0%Z (mkIP 0 0) [] (Some pkt) = re) as Eenc
      by reflexivity
  end.
  vm_compute in re.
  match eval unfold re in re with Ok ?reply =>
    match eval unfold rp in rp with Ok ?pkt =>
    destruct (@fr_dhcp_encode_reply_header little_endian_host
                dhcp_h_instance sample_env
                (reply_packet 0%Z (mkIP 0 0) []) pkt discover_datagram
                reply eq_refl Eenc eq_refl)
      as (Hcode & D & HD & Hhdr)
    end
  end.
  eexists _, _, D. split; [exact Epkt|]. split; [exact Eenc|].
  split; [exact Hcode|]. split; [exact HD|].
  split.
  - apply (f_equal (take 12)) in Hhdr. rewrite take_take in Hhdr.
    exact Hhdr.
  - apply (f_equal (λ l, l !! 242)) in Hhdr. cbn beta in Hhdr.
    rewrite lookup_take_lt in Hhdr by lia. exact Hhdr.
Defined.

(** ** The destination of the reply: relay, NAK and client address *)

Section DestinationFacts.
Context `{platform} `{dhcp_h}.

Lemma host_bytes_host_val (m : list Z) :
  length m = 4 → Forall is_byte m → host_bytes 4 (host_val m) = m.
Proof.
  intros Hlen Hm.
  destruct m as [|a [|b [|c [|d [|]]]]]; try done.
  apply Forall_cons in Hm as [Ha Hm]. apply Forall_cons in Hm as [Hb Hm].
  apply Forall_cons in Hm as [Hc Hm]. apply Forall_cons in Hm as [Hd _].
  unfold is_byte in *. unfold host_val, host_bytes.
  destruct big_endian; cbn -[Z.mul Z.add Z.shiftr Z.modulo];
    rewrite !Z.shiftr_div_pow2 by lia;
    change (2 ^ (8 * Z.of_nat 0))%Z with 1%Z;
    change (2 ^ (8 * Z.of_nat 1))%Z with 256%Z;
    change (2 ^ (8 * Z.of_nat 2))%Z with 65536%Z;
    change (2 ^ (8 * Z.of_nat 3))%Z with 16777216%Z;
    repeat f_equal; Z.div_mod_to_equations; lia.
Qed.

Lemma host_val_zero (m : list Z) :
  length m = 4 → Forall is_byte m →
  host_val m = htonl INADDR_ANY ↔ m = zeros 4.
Proof.
  intros Hlen Hm. split.
  - intros Hz. rewrite <-(host_bytes_host_val m Hlen Hm), Hz.
    unfold host_bytes, htonl, host_val. by destruct big_endian.
  - intros ->. unfold htonl, host_val. by destruct big_endian.
Qed.

Lemma host_bytes_broadcast :
  host_bytes 4 (htonl INADDR_BROADCAST) = [255; 255; 255; 255]%Z.
Proof. unfold host_bytes, htonl, host_val. by destruct big_endian. Qed.

Lemma fr_dhcp_encode_dst env packet o od reply :
  data packet = None →
  fr_dhcp_encode env packet (Some o) = Ok reply →
  data o = Some od →
  encode_dst (code reply) (s_addr (dst_ipaddr packet)) od
    = Ok (s_addr (dst_ipaddr reply)).
Proof.
  intros Hnone Hr Hdata. unfold fr_dhcp_encode in Hr. rewrite Hnone in Hr.
  step Hr r Hpk. destruct r as [[[buf n] l] c].
  step Hr o' Ho. injection Ho as <-.
  step Hr od' Hod. rewrite Hdata in Hod. injection Hod as <-.
  step Hr dst Hdst.
  step Hr r Hpad. destruct r as [buf' len]. by injection Hr as <-.
Qed.

(** X10.  Whatever the byte order of the host: a reply to a relayed request
    (giaddr not 0.0.0.0) goes to giaddr; otherwise a DHCPNAK goes to
    255.255.255.255; otherwise a reply to a request with a ciaddr goes
    to ciaddr. *)
Lemma fr_dhcp_encode_destination env packet o od reply :
  data packet = None →
  fr_dhcp_encode env packet (Some o) = Ok reply →
  data o = Some od → Forall is_byte od →
  let dst := host_bytes 4 (s_addr (dst_ipaddr reply)) in
  let giaddr := take 4 (drop 24 od) in
  let ciaddr := take 4 (drop 12 od) in
  (giaddr ≠ zeros 4 → dst = giaddr) ∧
  (giaddr = zeros 4 → code reply = PW_DHCP_NAK →
   dst = [255; 255; 255; 255]%Z) ∧
  (giaddr = zeros 4 → code reply ≠ PW_DHCP_NAK → ciaddr ≠ zeros 4 →
   dst = ciaddr).
Proof.
  intros Hnone Hr Hdata Hbytes dst giaddr ciaddr.
  pose proof (fr_dhcp_encode_dst _ _ _ _ _ Hnone Hr Hdata) as Hdst.
  unfold encode_dst in Hdst.
  step Hdst gi Hgi. step Hgi m Hm. injection Hgi as <-.
  pose proof (rdn_length _ _ _ _ Hm) as Lm.
  apply rdn_Ok in Hm as [Bm ->]. fold giaddr in Hdst, Lm.
  assert (Forall is_byte giaddr) as Bg
    by (by apply Forall_take, Forall_drop).
  pose proof (host_val_zero giaddr Lm Bg) as Zg.
  destruct (decide (host_val giaddr ≠ htonl INADDR_ANY)) as [Hg|Hg].
  { injection Hdst as Hdst. subst dst. rewrite <-Hdst.
    rewrite host_bytes_host_val by done.
    split; [done|]. split; intros; tauto. }
  destruct (decide (code reply = PW_DHCP_NAK)) as [Hnak|Hnak].
  { injection Hdst as Hdst. subst dst. rewrite <-Hdst.
    rewrite host_bytes_broadcast. split; [tauto|]. split; [done|tauto]. }
  step Hdst ci Hci. step Hci m Hm. injection Hci as <-.
  pose proof (rdn_length _ _ _ _ Hm) as Lc.
  apply rdn_Ok in Hm as [Bc ->]. fold ciaddr in Hdst, Lc.
  assert (Forall is_byte ciaddr) as Bci
    by (by apply Forall_take, Forall_drop).
  pose proof (host_val_zero ciaddr Lc Bci) as Zc.
  split; [tauto|]. split; [tauto|]. intros _ _ Hcne.
  rewrite decide_True in Hdst by tauto.
  injection Hdst as Hdst. subst dst. rewrite <-Hdst.
  by apply host_bytes_host_val.
Qed.

End DestinationFacts.

(** ** What fr_dhcp_decode leaves in the packet *)

Lemma pairfind_insert_same_attribute l k vp vp' a :
  l !! k = Some vp → attribute vp' = attribute vp →
  pairfind (<[k := vp']> l) a =
  match pairfind l a with
  | Some (i, x) => Some (i, if decide (i = k) then vp' else x)
  | None => None
  end.
Proof.
  unfold pairfind. revert k.
  induction l as [|y l IH]; intros [|k] Hk Ha; simpl in *; try done.
  - injection Hk as ->. rewrite Ha.
    destruct (decide (attribute vp = a)); [done|].
    destruct (list_find _ l) as [[i x]|]; cbn; [|done].
    by rewrite decide_False by done.
  - destruct (decide (attribute y = a)); [done|].
    rewrite (IH k Hk Ha).
    destruct (list_find _ l) as [[i x]|]; cbn; [|done].
    do 2 f_equal. repeat case_decide; done || lia.
Qed.

Section DecodeFacts.
Context `{platform} `{dhcp_h} `{dictionary}.

(** X2.  [fr_dhcp_decode] keeps the socket, the addresses, the ports, the
    identifier, the code, the vector and the length of the packet, and
    leaves the datagram as it was or with bit 0x80 set in byte 10. *)
Lemma fr_dhcp_decode_keeps_packet packet packet' d :
  fr_dhcp_decode packet = Ok packet' →
  data packet = Some d →
  sockfd packet' = sockfd packet ∧
  src_ipaddr packet' = src_ipaddr packet ∧
  dst_ipaddr packet' = dst_ipaddr packet ∧
  src_port packet' = src_port packet ∧ dst_port packet' = dst_port packet ∧
  id packet' = id packet ∧ code packet' = code packet ∧
  vector packet' = vector packet ∧ data_len packet' = data_len packet ∧
  (data packet' = Some d ∨
   ∃ b, d !! 10 = Some b ∧ data packet' = Some (<[10 := Z.lor b 0x80]> d)).
Proof.
  unfold fr_dhcp_decode, decode_attrs. intros Hr Hdata. rewrite Hdata in Hr.
  step Hr r Hattrs. destruct r as [d' head]. step Hr l Hl.
  injection Hr as <-. cbn. do 9 (split; [done|]).
  step Hattrs b1 Hb1. destruct (decide (b1 ≠ 1%Z)); [discriminate Hattrs|].
  step Hattrs h1 Hh1. step Hattrs h2 Hh2.
  unfold decode_fixup in Hattrs. step Hattrs g Hg.
  repeat (case_decide || case_match); simplify_eq; try (by left).
  all: step Hattrs b Hb; step Hattrs d2 Hd2; injection Hattrs as <- <-;
    right; exists b; apply rd_Ok in Hb; apply wr_Ok in Hd2 as [_ ->]; done.
Qed.

(** X3.  After a successful decode the first Maximum-DHCP-Message-Size pair,
    if there is one, is at least 576 and, if there is an Interface-MTU
    pair, at most the value of the first one, which is itself at least
    576. *)
Lemma fr_dhcp_decode_message_size_bounds packet packet' :
  fr_dhcp_decode packet = Ok packet' →
  (∀ j mtu, pairfind (vps packet') (DHCP2ATTR 26) = Some (j, mtu) →
            (576 ≤ lvalue mtu)%Z) ∧
  (∀ i maxms, pairfind (vps packet') (DHCP2ATTR 57) = Some (i, maxms) →
     (576 ≤ lvalue maxms)%Z ∧
     ∀ j mtu, pairfind (vps packet') (DHCP2ATTR 26) = Some (j, mtu) →
              (lvalue maxms ≤ lvalue mtu)%Z).
Proof.
  unfold fr_dhcp_decode. intros Hr.
  step Hr r Hattrs. destruct r as [d head]. step Hr l Hl.
  injection Hr as <-. cbn [vps].
  assert (∀ j mtu, pairfind head (DHCP2ATTR 26) = Some (j, mtu) →
                   (576 ≤ lvalue mtu)%Z) as Hge.
  { intros j mtu Hmtu. destruct (decide (576 ≤ lvalue mtu)%Z); [done|].
    rewrite (decode_clamp_fatal head j mtu) in Hl by (done || lia).
    discriminate Hl. }
  rewrite (decode_clamp_ok _ Hge) in Hl. injection Hl as <-.
  destruct (pairfind head (DHCP2ATTR 57)) as [[i maxms]|] eqn:Hmx.
  2:{ split; [done|]. intros i maxms Hi. by rewrite Hmx in Hi. }
  pose proof Hmx as (Hi & _)%pairfind_Some.
  set (v := clamp_value _ _).
  assert (attribute (set_lvalue v maxms) = attribute maxms) as Hattr by done.
  assert ((576 ≤ v)%Z ∧
          ∀ j mtu, pairfind head (DHCP2ATTR 26) = Some (j, mtu) →
                   (v ≤ lvalue mtu)%Z) as [Hv Hvm].
  { subst v. unfold clamp_value, DEFAULT_PACKET_SIZE.
    change (Z.of_nat 576) with 576%Z.
    destruct (pairfind head (DHCP2ATTR 26)) as [[j mtu]|] eqn:Hmtu; cbn.
    - specialize (Hge _ _ eq_refl). split; [repeat case_decide; lia|].
      intros ? ? [= <- <-]. repeat case_decide; lia.
    - split; [repeat case_decide; lia|done]. }
  clearbody v.
  assert (∀ j mtu,
            pairfind (<[i:=set_lvalue v maxms]> head) (DHCP2ATTR 26)
              = Some (j, mtu) → (576 ≤ lvalue mtu ∧ v ≤ lvalue mtu)%Z)
    as Hmtu'.
  { intros j mtu.
    rewrite (pairfind_insert_same_attribute _ _ _ _ _ Hi Hattr).
    destruct (pairfind head (DHCP2ATTR 26)) as [[j' mtu']|] eqn:Hmtu;
      [|done].
    intros [= <- <-]. specialize (Hge _ _ eq_refl).
    specialize (Hvm _ _ eq_refl).
    case_decide; [cbn; lia|done]. }
  split.
  - intros j mtu Hj. by apply Hmtu' in Hj as [? _].
  - intros i' maxms'.
    rewrite (pairfind_insert_same_attribute _ _ _ _ _ Hi Hattr), Hmx.
    rewrite decide_True by done. intros [= <- <-]. cbn. split; [done|].
    intros j mtu Hj. by apply Hmtu' in Hj as [_ ?].
Qed.

End DecodeFacts.

(** ** Values from the wire and back *)

Lemma land_byte b : is_byte b → Z.land b 0xff = b.
Proof.
  unfold is_byte. intros Hb. change 0xff%Z with (Z.ones 8).
  rewrite Z.land_ones by lia. apply Z.mod_small. lia.
Qed.

Lemma short_low b0 b1 :
  is_byte b1 → Z.land (Z.lor (Z.shiftl b0 8) b1) 0xff = b1.
Proof.
  intros Hb1. rewrite Z.land_lor_distr_l, (land_byte b1 Hb1).
  change 0xff%Z with (Z.ones 8). rewrite Z.land_ones by lia.
  rewrite Z.shiftl_mul_pow2 by lia. rewrite Z.mod_mul by lia. done.
Qed.

Lemma short_high b0 b1 :
  is_byte b0 → is_byte b1 →
  Z.land (Z.shiftr (Z.lor (Z.shiftl b0 8) b1) 8) 0xff = b0.
Proof.
  intros Hb0 Hb1. rewrite Z.shiftr_lor.
  rewrite Z.shiftr_shiftl_l by lia. change (8 - 8)%Z with 0%Z.
  rewrite Z.shiftl_0_r. rewrite (Z.shiftr_div_pow2 b1) by lia.
  unfold is_byte in Hb1. rewrite (Z.div_small b1) by lia.
  rewrite Z.lor_0_r. by apply land_byte.
Qed.

Lemma be_bytes_be_val (m : list Z) :
  length m = 4 → Forall is_byte m → be_bytes 4 (be_val m) = m.
Proof.
  intros Hlen Hm.
  destruct m as [|a [|b [|c [|d [|]]]]]; try done.
  apply Forall_cons in Hm as [Ha Hm]. apply Forall_cons in Hm as [Hb Hm].
  apply Forall_cons in Hm as [Hc Hm]. apply Forall_cons in Hm as [Hd _].
  unfold is_byte in *. unfold be_bytes, be_val.
  cbn -[Z.mul Z.add Z.shiftr Z.modulo].
  rewrite !Z.shiftr_div_pow2 by lia.
  change (2 ^ (8 * Z.of_nat 0))%Z with 1%Z.
  change (2 ^ (8 * Z.of_nat 1))%Z with 256%Z.
  change (2 ^ (8 * Z.of_nat 2))%Z with 65536%Z.
  change (2 ^ (8 * Z.of_nat 3))%Z with 16777216%Z.
  repeat f_equal; Z.div_mod_to_equations; lia.
Qed.

Lemma be_bytes_is_byte x : Forall is_byte (be_bytes 4 x) ∧ length (be_bytes 4 x) = 4.
Proof.
  split; [|done]. unfold be_bytes. cbn -[Z.shiftr Z.modulo Z.mul].
  repeat constructor; unfold is_byte; apply Z.mod_pos_bound; lia.
Qed.

Lemma take_drop_1 (d : list Z) i b : d !! i = Some b → take 1 (drop i d) = [b].
Proof.
  intros Hb. apply list_eq. intros [|j].
  - rewrite lookup_take_lt, lookup_drop, Nat.add_0_r by lia. done.
  - by rewrite lookup_take_ge by lia.
Qed.

Lemma take_drop_2 (d : list Z) i a b :
  d !! i = Some a → d !! (i + 1) = Some b → take 2 (drop i d) = [a; b].
Proof.
  intros Ha Hb. apply list_eq. intros [|[|j]].
  - rewrite lookup_take_lt, lookup_drop, Nat.add_0_r by lia. done.
  - rewrite lookup_take_lt, lookup_drop by lia. done.
  - by rewrite lookup_take_ge by lia.
Qed.

Lemma wrn_take_drop buf i bs buf' :
  wrn buf i bs = Ok buf' → take (length bs) (drop i buf') = bs.
Proof.
  intros Hw. pose proof Hw as [Hroom ->]%wrn_Ok.
  apply list_eq. intros j. destruct (decide (j < length bs)).
  - rewrite lookup_take_lt, lookup_drop by done.
    rewrite list_lookup_inserts by lia. f_equal. lia.
  - rewrite lookup_take_ge by lia. symmetry. apply lookup_ge_None. lia.
Qed.

Section ValueRoundTrip.
Context `{platform} `{dhcp_h}.

(** X6.  A value that [decode_value] has read from [alen] bytes at [p],
    other than the Client-Identifier re-typed as ETHERNET, is written back by
    [fr_dhcp_vp2attr] as the same [alen] bytes, when a BYTE, SHORT,
    INTEGER or IPADDR entry has the width of its type. *)
Lemma decode_value_vp2attr da alen num d p vp0 vp buf q buf' len :
  decode_value da alen num d p vp0 = Ok vp →
  type vp ≠ PW_TYPE_ETHERNET →
  (type vp0 = PW_TYPE_BYTE → alen = 1) →
  (type vp0 = PW_TYPE_SHORT → alen = 2) →
  (type vp0 = PW_TYPE_INTEGER ∨ type vp0 = PW_TYPE_IPADDR → alen = 4) →
  Forall is_byte d →
  fr_dhcp_vp2attr vp buf q = Ok (buf', len) →
  len = alen ∧ take alen (drop q buf') = take alen (drop p d).
Proof.
  unfold decode_value. intros Hdec Hne HB HS HI Hd Hw.
  step Hdec hack Hhack. step Hdec vp1 Hvp1. injection Hdec as <-.
  destruct hack.
  { step Hvp1 m Hm. step Hvp1 o Ho. injection Hvp1 as <-. done. }
  clear Hhack Hne. unfold fr_dhcp_vp2attr in Hw.
  destruct (type vp0) eqn:Ht; try discriminate Hvp1.
  - (* STRING *)
    step Hvp1 m Hm. step Hvp1 o Ho. step Hvp1 o' Ho'.
    injection Hvp1 as <-. cbn in Hw. rewrite Ht in Hw.
    step Hw m' Hm'. step Hw b Hb. injection Hw as <- <-.
    split; [done|].
    pose proof (rdn_length _ _ _ _ Hm) as Lm.
    apply rdn_Ok in Hm as [_ Em]. rewrite <-Em.
    apply rdn_Ok in Hm' as [_ Em']. rewrite drop_0 in Em'.
    apply wr_Ok in Ho' as [_ ->].
    rewrite take_insert_ge in Em' by lia.
    apply wrn_take_drop in Ho. rewrite drop_0, Lm in Ho.
    rewrite Ho in Em'. subst m'.
    apply wrn_take_drop in Hb. by rewrite Lm in Hb.
  - (* INTEGER *)
    step Hvp1 m Hm. injection Hvp1 as <-. cbn in Hw. rewrite Ht in Hw.
    step Hw b Hb. injection Hw as <- <-.
    rewrite (HI (or_introl eq_refl)). split; [done|].
    pose proof (rdn_length _ _ _ _ Hm) as Lm.
    apply rdn_Ok in Hm as [_ Em].
    assert (Forall is_byte m) as Bm
      by (rewrite Em; by apply Forall_take, Forall_drop).
    rewrite <-Em. apply wrn_take_drop in Hb.
    rewrite length_host_bytes in Hb. rewrite Hb.
    rewrite ntohl_host_val by done. unfold htonl.
    destruct (be_bytes_is_byte (be_val m)) as [? ?].
    rewrite host_bytes_host_val by done. by apply be_bytes_be_val.
  - (* IPADDR *)
    step Hvp1 m Hm. injection Hvp1 as <-. cbn in Hw. rewrite Ht in Hw.
    step Hw b Hb. injection Hw as <- <-.
    rewrite (HI (or_intror eq_refl)). split; [done|].
    pose proof (rdn_length _ _ _ _ Hm) as Lm.
    apply rdn_Ok in Hm as [_ Em].
    assert (Forall is_byte m) as Bm
      by (rewrite Em; by apply Forall_take, Forall_drop).
    rewrite <-Em. apply wrn_take_drop in Hb.
    rewrite length_host_bytes in Hb. rewrite Hb.
    by apply host_bytes_host_val.
  - (* OCTETS *)
    step Hvp1 m Hm. step Hvp1 o Ho.
    injection Hvp1 as <-. cbn in Hw. rewrite Ht in Hw.
    step Hw m' Hm'. step Hw b Hb. injection Hw as <- <-.
    split; [done|].
    pose proof (rdn_length _ _ _ _ Hm) as Lm.
    apply rdn_Ok in Hm as [_ Em]. rewrite <-Em.
    apply rdn_Ok in Hm' as [_ Em']. rewrite drop_0 in Em'.
    apply wrn_take_drop in Ho. rewrite drop_0, Lm in Ho.
    rewrite Ho in Em'. subst m'.
    apply wrn_take_drop in Hb. by rewrite Lm in Hb.
  - (* BYTE *)
    step Hvp1 b Hb. injection Hvp1 as <-. cbn in Hw. rewrite Ht in Hw.
    step Hw buf1 Hw1. injection Hw as <- <-. cbn in Hw1.
    rewrite (HB eq_refl). split; [done|].
    apply rd_Ok in Hb.
    rewrite (land_byte b) in Hw1 by (by eapply is_byte_lookup).
    rewrite (take_drop_1 d p b Hb).
    apply take_drop_1. by eapply wr_lookup.
  - (* SHORT *)
    step Hvp1 b0 Hb0. step Hvp1 b1 Hb1. injection Hvp1 as <-.
    cbn in Hw. rewrite Ht in Hw.
    step Hw buf1 Hw1. step Hw buf2 Hw2. injection Hw as <- <-.
    cbn in Hw1, Hw2. rewrite (HS eq_refl). split; [done|].
    apply rd_Ok in Hb0, Hb1.
    assert (is_byte b0 ∧ is_byte b1) as [B0 B1]
      by (split; by eapply is_byte_lookup).
    rewrite short_high in Hw1 by done. rewrite short_low in Hw2 by done.
    rewrite (take_drop_2 d p b0 b1 Hb0 Hb1).
    apply take_drop_2; [|by eapply wr_lookup].
    apply wr_Ok in Hw2 as [_ ->].
    rewrite list_lookup_insert_ne by lia. by eapply wr_lookup.
Qed.

End ValueRoundTrip.

(** ** What the packing loops write and keep *)

Section PackMore.
Context `{platform} `{dhcp_h}.

(** X7.  [fr_dhcp_vp2attr] returns the width of the pair's type and changes
    the buffer nowhere but in the bytes [p .. p + width - 1]. *)
Lemma fr_dhcp_vp2attr_writes vp buf p buf' len :
  fr_dhcp_vp2attr vp buf p = Ok (buf', len) →
  len = value_width vp ∧ length buf' = length buf ∧
  ∀ i, i < p ∨ p + len ≤ i → buf' !! i = buf !! i.
Proof.
  unfold fr_dhcp_vp2attr, value_width. intros Hw.
  destruct (type vp); try (by injection Hw as <- <-).
  - step Hw m Hm. step Hw b Hb. injection Hw as <- <-.
    apply rdn_length in Hm. apply wrn_Ok in Hb as [_ ->].
    split; [done|]. split; [apply length_inserts|]. intros i [Hi|Hi].
    + by apply list_lookup_inserts_lt.
    + apply list_lookup_inserts_ge. lia.
  - step Hw b Hb. injection Hw as <- <-. apply wrn_Ok in Hb as [_ ->].
    split; [done|]. split; [apply length_inserts|]. intros i [Hi|Hi].
    + by apply list_lookup_inserts_lt.
    + apply list_lookup_inserts_ge. rewrite length_host_bytes. lia.
  - step Hw b Hb. injection Hw as <- <-. apply wrn_Ok in Hb as [_ ->].
    split; [done|]. split; [apply length_inserts|]. intros i [Hi|Hi].
    + by apply list_lookup_inserts_lt.
    + apply list_lookup_inserts_ge. rewrite length_host_bytes. lia.
  - step Hw m Hm. step Hw b Hb. injection Hw as <- <-.
    apply rdn_length in Hm. apply wrn_Ok in Hb as [_ ->].
    split; [done|]. split; [apply length_inserts|]. intros i [Hi|Hi].
    + by apply list_lookup_inserts_lt.
    + apply list_lookup_inserts_ge. lia.
  - step Hw b Hb. injection Hw as <- <-. apply wr_Ok in Hb as [_ ->].
    split; [done|]. split; [apply length_insert|]. intros i Hi.
    apply list_lookup_insert_ne. lia.
  - step Hw b Hb. step Hw b' Hb'. injection Hw as <- <-.
    apply wr_Ok in Hb as [_ ->]. apply wr_Ok in Hb' as [_ ->].
    split; [done|]. split; [by rewrite !length_insert|]. intros i Hi.
    rewrite !list_lookup_insert_ne by lia. done.
  - step Hw m Hm. step Hw b Hb. injection Hw as <- <-.
    apply rdn_length in Hm. apply wrn_Ok in Hb as [_ ->].
    split; [done|]. split; [apply length_inserts|]. intros i [Hi|Hi].
    + by apply list_lookup_inserts_lt.
    + apply list_lookup_inserts_ge. lia.
Qed.

(** X8.  Pairs outside the DHCP name space, and header pairs, are passed
    over: a list made of such pairs leaves the buffer and the write
    position as they were. *)
Lemma encode_options_skipped fuel l prev buf p :
  Forall (λ vp, skipped vp = true) l → length l ≤ fuel →
  encode_options fuel l prev buf p = Ok (buf, p, prev ++ l).
Proof.
  revert l prev. induction fuel as [|fuel IH]; intros l prev Hl Hfuel;
    destruct l as [|vp rest]; cbn in *; try lia.
  - by rewrite app_nil_r.
  - by rewrite app_nil_r.
  - apply Forall_cons in Hl as [-> Hl]. rewrite IH by (done || lia).
    by rewrite <-app_assoc.
Qed.

Lemma retag_same_code vp n vp' : retag vp n = Ok vp' → same_code vp vp'.
Proof.
  unfold retag. destruct (_ && _).
  - intros Hr. step Hr m Hm. step Hr o Ho. step Hr o' Ho'.
    by injection Hr as <-.
  - by intros [= <-].
Qed.

Lemma encode_entries_list n plength s s' :
  encode_entries n plength s = Ok s' →
  pk_prev s' ++ pk_vp s' :: pk_next s' = pk_prev s ++ pk_vp s :: pk_next s.
Proof.
  revert s. induction n as [|n IH]; intros s Hs; cbn in Hs.
  { by injection Hs as <-. }
  step Hs w Hw. destruct w as [buf1 len].
  destruct (decide (255 < len)); [by injection Hs as <-|].
  step Hs pl Hpl.
  destruct (decide (pl + Z.of_nat len > 255)%Z); [by injection Hs as <-|].
  step Hs buf2 Hw2.
  destruct (pk_next s) as [|nx rest] eqn:Hnx.
  - apply IH in Hs. cbn in Hs. done.
  - destruct (decide (attribute nx = attribute (pk_vp s))).
    + apply IH in Hs. cbn in Hs. by rewrite <-app_assoc in Hs.
    + apply IH in Hs. cbn in Hs. done.
Qed.

Lemma encode_option_list vp rest prev buf p s :
  encode_option vp rest prev buf p = Ok s →
  ∃ vp', same_code vp vp' ∧
         pk_prev s ++ pk_vp s :: pk_next s = prev ++ vp' :: rest.
Proof.
  unfold encode_option. intros Hs.
  step Hs vp' Hvp. apply retag_same_code in Hvp.
  step Hs st1 H1. step Hs st2 H2. step Hs st3 H3. step Hs s0 H0'.
  apply encode_entries_list in H0'. cbn in H0'.
  exists vp'. split; [done|].
  clear H3. case_decide; [|by injection Hs as <-].
  step Hs pl Hpl. step Hs b Hb. by injection Hs as <-.
Qed.

Lemma encode_options_list fuel l prev buf p buf' p' l' :
  encode_options fuel l prev buf p = Ok (buf', p', l') →
  Forall2 same_code (prev ++ l) l'.
Proof.
  revert l prev buf p.
  induction fuel as [|fuel IH]; intros l prev buf p Hr;
    destruct l as [|vp rest]; cbn in Hr; try discriminate Hr.
  - injection Hr as <- <- <-. rewrite app_nil_r.
    apply Forall2_same_code_refl.
  - injection Hr as <- <- <-. rewrite app_nil_r.
    apply Forall2_same_code_refl.
  - destruct (skipped vp).
    + apply IH in Hr. by rewrite <-app_assoc in Hr.
    + step Hr s Hs. apply encode_option_list in Hs as (vp' & Hvp & Hl).
      apply IH in Hr. rewrite <-app_assoc in Hr. cbn in Hr.
      rewrite Hl in Hr.
      eapply Forall2_trans; [apply same_code_trans| |exact Hr].
      apply Forall2_app; [apply Forall2_same_code_refl|].
      constructor; [done|apply Forall2_same_code_refl].
Qed.

Lemma tlv_stream_le buf p q : tlv_stream buf p q → p ≤ q.
Proof. induction 1; lia. Qed.

Lemma tlv_stream_agree buf buf' p q :
  tlv_stream buf p q → (∀ i, i < q → buf' !! i = buf !! i) →
  tlv_stream buf' p q.
Proof.
  induction 1 as [|p q len Hlen Hrange Hs IH]; intros Hagree;
    [constructor|].
  apply tlv_stream_le in Hs as Hle.
  apply (tlv_stream_option _ _ _ len); [|done|by apply IH].
  rewrite Hagree by lia. done.
Qed.

Lemma encode_options_tlv_stream fuel l prev buf p buf' p' l' :
  encode_options fuel l prev buf p = Ok (buf', p', l') →
  tlv_stream buf' p p'.
Proof.
  revert l prev buf p.
  induction fuel as [|fuel IH]; intros l prev buf p Hr;
    destruct l as [|vp rest]; cbn in Hr; try discriminate Hr.
  - injection Hr as <- <- <-. constructor.
  - injection Hr as <- <- <-. constructor.
  - destruct (skipped vp); [by eapply IH|].
    step Hr s Hs.
    apply encode_option_Ok in Hs as (_ & (len & Hlen & ? & Hp & ?) & _ & _).
    pose proof Hr as (F & _ & _)%encode_options_Ok; [|done].
    apply IH in Hr. rewrite Hp in Hr.
    apply (tlv_stream_option _ _ _ len); [|done|].
    + rewrite (frame_lookup _ _ _ _ F) by lia. done.
    + replace (p + 2 + Z.to_nat len) with (p + 1 + 1 + Z.to_nat len) by lia.
      done.
Qed.

End PackMore.

(** ** The option area and the attribute list of a reply *)

Lemma fmap_attribute_pairdelete l a :
  attribute <$> pairdelete l a = filter (λ x, x ≠ a) (attribute <$> l).
Proof.
  unfold pairdelete. induction l as [|vp l IH]; [done|].
  rewrite fmap_cons, !filter_cons.
  destruct (decide (attribute vp ≠ a)); [rewrite fmap_cons|];
    by rewrite IH.
Qed.

Section ReplyFacts.
Context `{platform} `{dhcp_h}.

Lemma encode_packet_list_stream env packet original buf n l c :
  encode_packet env packet original = Ok (buf, n, l, c) →
  tlv_stream buf 240 (n - 2) ∧
  attribute <$> l ≡ₚ
    filter (λ x, x ≠ DHCP2ATTR 53) (attribute <$> vps packet).
Proof.
  unfold encode_packet. intros Hr.
  destruct (negb (malloc_ok env)); [discriminate Hr|].
  step Hr o Ho. step Hr l0 Hl0. step Hr st1 H1. step Hr st2 H2.
  step Hr r Hopts. destruct r as [[buf3 p3] l3].
  step Hr st4 H4. injection Hr as <- <- <- <-.
  apply encode_header_Ok in H1 as (P1 & _).
  apply emit_Ok in H2 as (P2 & L2 & F2 & B2).
  rewrite P1 in *. cbn [length] in *.
  pose proof (frame_length _ _ _ F2) as E2.
  pose proof Hopts as (F3 & P3 & L3)%encode_options_Ok; [|lia].
  pose proof (encode_options_tlv_stream _ _ _ _ _ _ _ _ Hopts) as Hs.
  apply encode_options_list in Hopts as Hlist.
  apply emit_Ok in H4 as (P4 & L4 & F4 & B4).
  cbn [length fst snd] in *. rewrite P2 in *. split.
  - rewrite P4. replace (p3 + 2 - 2) with p3 by lia.
    apply (tlv_stream_option _ _ _ 1%Z); [|lia|].
    + rewrite (frame_lookup _ _ _ _ F4), (frame_lookup _ _ _ _ F3) by lia.
      apply (B2 1). lia.
    + change (240 + 2 + Z.to_nat 1) with (240 + 3).
      apply (tlv_stream_agree buf3); [done|].
      intros i Hi. by apply (frame_lookup _ _ _ _ F4).
  - apply Forall2_same_code_attribute in Hlist. rewrite Hlist. cbn.
    apply encode_auth_same_code, Forall2_same_code_attribute in Hl0.
    rewrite <-Hl0, <-fmap_attribute_pairdelete.
    case_decide; [|done]. by rewrite qsort_perm.
Qed.


(** X13.  Encoding loses no pair but the Message-Type pairs: the attribute
    numbers of the list the reply is left with are those of the list it
    had, without 53, in some order. *)
Lemma fr_dhcp_encode_attributes env packet original reply :
  data packet = None →
  fr_dhcp_encode env packet original = Ok reply →
  attribute <$> vps reply ≡ₚ
    filter (λ x, x ≠ DHCP2ATTR 53) (attribute <$> vps packet).
Proof.
  intros Hnone Hr. unfold fr_dhcp_encode in Hr. rewrite Hnone in Hr.
  step Hr r Hpk. destruct r as [[[buf n] l] c].
  step Hr o Ho. step Hr od Hod. step Hr dst Hdst.
  step Hr r Hpad. destruct r as [buf' len]. injection Hr as <-.
  cbn [vps]. by apply encode_packet_list_stream in Hpk as [_ Hl].
Qed.

(** X14.  A packet that has been encoded is not encoded again: a further
    call, with any environment and any original, returns it as it
    is. *)
Lemma fr_dhcp_encode_once env env' packet original original' reply :
  data packet = None →
  fr_dhcp_encode env packet original = Ok reply →
  fr_dhcp_encode env' reply original' = Ok reply.
Proof.
  intros Hnone Hr. unfold fr_dhcp_encode in Hr. rewrite Hnone in Hr.
  step Hr r Hpk. destruct r as [[[buf n] l] c].
  step Hr o Ho. step Hr od Hod. step Hr dst Hdst.
  step Hr r Hpad. destruct r as [buf' len]. injection Hr as <-.
  done.
Qed.

End ReplyFacts.

(** ** Received packets *)

Section RecvMore.
Context `{platform} `{dhcp_h}.

(** X1.  The packet [fr_dhcp_recv] returns holds the datagram (its first
    1460 bytes), has the xid, read as a big-endian number, for
    identifier, the message type above [PW_DHCP_OFFSET] for code, and
    for vector the six bytes of the hardware address, the message type
    and nine zero bytes. *)
Lemma fr_dhcp_recv_packet fd (dgram : list Z) si port pkt :
  Forall is_byte dgram →
  fr_dhcp_recv fd (Some dgram) si port = Ok pkt →
  sockfd pkt = fd ∧ src_ipaddr pkt = si ∧ src_port pkt = port ∧
  data pkt = Some (take MAX_PACKET_SIZE dgram) ∧
  data_len pkt = length dgram `min` MAX_PACKET_SIZE ∧
  id pkt = be_val (take 4 (drop 4 dgram)) ∧ vps pkt = [] ∧
  ∃ t, dgram !! 242 = Some t ∧
       code pkt = Z.lor PW_DHCP_OFFSET t ∧
       vector pkt = take 6 (drop 28 dgram) ++ [t] ++ zeros 9.
Proof.
  intros Hbytes Hr. unfold fr_dhcp_recv in Hr.
  assert (Forall is_byte (take MAX_PACKET_SIZE dgram)) as Hd
    by (by apply Forall_take).
  assert (∀ i, i < MAX_PACKET_SIZE → take MAX_PACKET_SIZE dgram !! i
                                     = dgram !! i) as Hlk
    by (intros; by apply lookup_take_lt).
  assert (length (take MAX_PACKET_SIZE dgram)
          = length dgram `min` MAX_PACKET_SIZE) as Hlen
    by (rewrite length_take; lia).
  assert (∀ i n, i + n ≤ MAX_PACKET_SIZE →
            take n (drop i (take MAX_PACKET_SIZE dgram))
            = take n (drop i dgram)) as Htd.
  { intros i n Hin. apply list_eq. intros j. destruct (decide (j < n)).
    - rewrite !lookup_take_lt, !lookup_drop by done.
      apply lookup_take_lt. lia.
    - by rewrite !lookup_take_ge by lia. }
  revert Hr Hd Hlk Hlen Htd. generalize (take MAX_PACKET_SIZE dgram).
  unfold MAX_PACKET_SIZE, MIN_PACKET_SIZE. intros d Hr Hd Hlk Hlen Htd.
  destruct (decide (length d ≤ 0)); [discriminate Hr|].
  destruct (decide (length d < 244)); [discriminate Hr|].
  step Hr b0 Hb0. destruct (decide (b0 ≠ 1%Z)); [discriminate Hr|].
  step Hr b1 Hb1. destruct (decide (b1 ≠ 1%Z)); [discriminate Hr|].
  step Hr b2 Hb2. destruct (decide (b2 ≠ 6%Z)); [discriminate Hr|].
  step Hr m Hm. destruct (decide _); [discriminate Hr|].
  step Hr x Hx.
  step Hr o0 Ho0. destruct (decide (o0 ≠ 53%Z)); [discriminate Hr|].
  step Hr o1 Ho1. destruct (decide (o1 ≠ 1%Z)); [discriminate Hr|].
  step Hr o2 Ho2. destruct (decide (o2 = 0%Z)); [discriminate Hr|].
  destruct (decide (8 ≤ o2)%Z); [discriminate Hr|].
  assert (b2 = 6%Z) as -> by lia. change (Z.to_nat 6) with 6 in Hr.
  step Hr ch Hch. step Hr v1 Hv1. step Hr v2 Hv2. injection Hr as <-.
  cbn. do 3 (split; [done|]). split; [done|]. split; [done|].
  pose proof (rdn_length _ _ _ _ Hx) as Lx.
  apply rdn_Ok in Hx as [_ Ex].
  assert (Forall is_byte x) as Bx
    by (rewrite Ex; by apply Forall_take, Forall_drop).
  split; [rewrite ntohl_host_val, Ex by done; by rewrite Htd by lia|].
  split; [done|].
  apply rd_Ok in Ho2. rewrite Hlk in Ho2 by lia.
  exists o2. do 2 (split; [done|]).
  pose proof (rdn_length _ _ _ _ Hch) as Lch.
  apply rdn_Ok in Hch as [_ Ech]. rewrite Htd in Ech by lia.
  rewrite <-Ech.
  apply wrn_Ok in Hv1 as [_ ->]. apply wr_Ok in Hv2 as [_ ->].
  destruct ch as [|c0 [|c1 [|c2 [|c3 [|c4 [|c5 [|]]]]]]]; try done.
Qed.

End RecvMore.

(** ** The entries of an option *)

Section EntriesFacts.
Context `{platform} `{dhcp_h} `{dictionary}.

Lemma decode_value_length da alen num d p vp0 vp :
  decode_value da alen num d p vp0 = Ok vp →
  vp_length vp = alen ∧ attribute vp = attribute vp0.
Proof.
  unfold decode_value. intros Hr. step Hr hack Hh. step Hr vp1 Hvp1.
  injection Hr as <-. split; [done|]. cbn.
  destruct hack.
  - step Hvp1 m Hm. step Hvp1 o Ho. by injection Hvp1 as <-.
  - destruct (type vp0); try discriminate Hvp1;
      repeat (let x := fresh in let Hx := fresh in step Hvp1 x Hx);
      by injection Hvp1 as <-.
Qed.

(** X5.  An option of [n] entries of [alen] bytes adds [n] pairs of length
    [alen] to the list, after the pairs it had, and moves the read
    position by [n * alen]. *)
Lemma decode_entries_count da alen num n d p head p' l :
  decode_entries da alen num n d p head = Ok (p', l) →
  p' = p + n * alen ∧
  ∃ tail, l = head ++ tail ∧ length tail = n ∧
          Forall (λ vp, vp_length vp = alen) tail.
Proof.
  revert p head. induction n as [|n IH]; intros p head Hr; cbn in Hr.
  { injection Hr as <- <-. split; [lia|]. exists [].
    by rewrite app_nil_r. }
  destruct (pairmake (da_name da)) as [vp0|]; [|discriminate Hr].
  step Hr vp Hvp. apply decode_value_length in Hvp as [Hlen _].
  apply IH in Hr as (-> & tail & -> & Hn & Hall). split; [lia|].
  exists (vp :: tail). rewrite <-app_assoc. split; [done|].
  split; [cbn; lia|]. by constructor.
Qed.

End EntriesFacts.

(** ** The authentication option *)

Section AuthToken.
Context `{platform} `{dhcp_h}.

(** X17.  For an Authentication pair whose first byte is 0 (a configuration
    token), [encode_auth] changes that pair only: bytes 0 and 1 are 0
    and, when the list has a Cleartext-Password, the length is 11 plus
    the length of the password, cut so that the whole fits in the value
    buffer, with the password bytes from offset 11 on; without a
    password the length is 19. *)
Lemma encode_auth_token env l l' k vp :
  encode_auth env l = Ok l' →
  pairfind l (DHCP2ATTR 90) = Some (k, vp) →
  PW_CLEARTEXT_PASSWORD ≠ DHCP2ATTR 90 →
  vp_octets vp !! 0 = Some 0%Z →
  ∃ vp', l' = <[k := vp']> l ∧ same_code vp vp' ∧
    vp_octets vp' !! 0 = Some 0%Z ∧ vp_octets vp' !! 1 = Some 0%Z ∧
    match pairfind l PW_CLEARTEXT_PASSWORD with
    | None => vp_length vp' = 19
    | Some (_, pass) =>
      let n := vp_length pass `min` (MAX_STRING_LEN - 11) in
      vp_length vp' = 11 + n ∧ vp_length vp' ≤ MAX_STRING_LEN ∧
      take n (drop 11 (vp_octets vp')) = take n (vp_octets pass)
    end.
Proof.
  intros Hr Hfind Hne Hb0.
  pose proof (encode_auth_same_code _ _ _ Hr) as Hsame.
  unfold encode_auth in Hr. rewrite Hfind in Hr.
  pose proof Hfind as (Hk & Hattr & _)%pairfind_Some.
  step Hr vp1 H1. step Hr vp2 H2. step Hr b0 Hb0'.
  step Hr vp3 H3. injection Hr as <-.
  exists vp3. split; [done|].
  assert (same_code vp vp3) as Hs3.
  { apply Forall2_lookup_l with (i := k) (x := vp) in Hsame as (y & Hy & Hs);
      [|done].
    rewrite list_lookup_insert_eq in Hy by (by eapply lookup_lt_Some).
    by injection Hy as <-. }
  split; [done|].
  assert (vp_octets vp1 !! 0 = Some 0%Z ∧ same_code vp vp1) as [Hb1 S1].
  { destruct (decide (vp_length vp < 2)).
    - step H1 o Ho. injection H1 as <-. cbn. split; [|done].
      destruct (vp_length vp) as [|[|]] eqn:El; try lia.
      + pose proof (wrn_lookup _ _ _ _ 0 Ho) as Hl. cbn in Hl.
        apply Hl. lia.
      + apply wrn_Ok in Ho as [_ ->].
        rewrite list_lookup_inserts_lt by lia. done.
    - by injection H1 as <-. }
  assert (vp_octets vp2 !! 0 = Some 0%Z ∧ same_code vp1 vp2) as [Hb2 S2].
  { destruct (decide (vp_length vp1 < 3)).
    - step H2 o Ho. step H2 o' Ho'. injection H2 as <-. cbn.
      split; [|done].
      apply wrn_Ok in Ho' as [_ ->]. apply wr_Ok in Ho as [_ ->].
      rewrite list_lookup_inserts_lt, list_lookup_insert_ne by lia. done.
    - by injection H2 as <-. }
  apply rd_Ok in Hb0'. assert (b0 = 0%Z) as -> by congruence.
  rewrite decide_True in H3 by done.
  step H3 o Ho.
  pose proof (wr_lookup _ _ _ _ Ho) as Ho1.
  assert (o !! 0 = Some 0%Z) as Ho0.
  { apply wr_Ok in Ho as [_ ->]. by rewrite list_lookup_insert_ne by lia. }
  assert (attribute (set_octets o vp2) = attribute vp) as Ha2.
  { destruct S1 as [E1 _]. destruct S2 as [E2 _]. cbn. congruence. }
  rewrite (pairfind_insert_same_attribute _ _ _ _ _ Hk Ha2) in H3.
  destruct (pairfind l PW_CLEARTEXT_PASSWORD) as [[i pass]|] eqn:Hpass.
  2:{ injection H3 as <-. cbn. done. }
  pose proof Hpass as (Hi & Hia & _)%pairfind_Some.
  destruct (decide (i = k)) as [->|_]; [congruence|].
  step H3 m Hm. step H3 o' Ho'. injection H3 as <-. cbn.
  unfold MAX_STRING_LEN in *.
  pose proof (rdn_length _ _ _ _ Hm) as Lm.
  apply rdn_Ok in Hm as [_ Em]. rewrite drop_0 in Em.
  assert ((if decide (254 < vp_length pass + 11)
           then vp_length pass - (vp_length pass + 11 - 254)
           else vp_length pass) = vp_length pass `min` (254 - 11)) as En
    by (case_decide; lia).
  rewrite En in *.
  pose proof (wrn_take_drop _ _ _ _ Ho') as Htd. rewrite Lm in Htd.
  apply wrn_Ok in Ho' as [_ ->].
  rewrite !list_lookup_inserts_lt by lia.
  change (254 - 11) with 243 in *. cbn [vp_octets set_octets] in *.
  split; [done|]. split; [done|]. split; [lia|]. split; [lia|].
  rewrite Htd. exact Em.
Qed.

End AuthToken.

(** ** The order of the decoded list *)

Lemma fmap_attribute_insert (l : list VALUE_PAIR) k vp vp' :
  l !! k = Some vp → attribute vp' = attribute vp →
  attribute <$> <[k := vp']> l = attribute <$> l.
Proof.
  intros Hk Ha. rewrite list_fmap_insert, Ha. apply list_insert_id.
  by rewrite list_lookup_fmap, Hk.
Qed.

Section DecodeOrder.
Context `{platform} `{dhcp_h} `{dictionary}.

Lemma decode_header_extends d fields p head l :
  decode_header d fields p head = Ok l →
  ∃ hdr, l = head ++ hdr ∧ length hdr ≤ length fields.
Proof.
  revert p head. induction fields as [|[[i nm] size] fields IH];
    intros p head Hr; cbn in Hr.
  { injection Hr as <-. exists []. by rewrite app_nil_r. }
  step Hr ovp Hovp. apply IH in Hr as (hdr & -> & Hlen).
  destruct ovp as [vp|].
  - exists (vp :: hdr). rewrite <-app_assoc. split; [done|]. cbn. lia.
  - exists hdr. split; [done|]. cbn. lia.
Qed.

Lemma decode_entries_extends da alen num n d p head p' l :
  decode_entries da alen num n d p head = Ok (p', l) →
  ∃ tail, l = head ++ tail.
Proof.
  revert p head. induction n as [|n IH]; intros p head Hr; cbn in Hr.
  { injection Hr as <- <-. exists []. by rewrite app_nil_r. }
  destruct (pairmake (da_name da)) as [vp0|]; [|discriminate Hr].
  step Hr vp Hvp. apply IH in Hr as (tail & ->).
  exists (vp :: tail). by rewrite <-app_assoc.
Qed.

Lemma decode_options_extends fuel d p total head l :
  decode_options fuel d p total head = Ok l → ∃ tail, l = head ++ tail.
Proof.
  revert p total head.
  induction fuel as [|fuel IH]; intros p total head Hr; cbn in Hr.
  { destruct (decide (total ≤ 0)%Z); [|discriminate Hr].
    injection Hr as <-. exists []. by rewrite app_nil_r. }
  destruct (decide (total ≤ 0)%Z).
  { injection Hr as <-. exists []. by rewrite app_nil_r. }
  step Hr c Hc.
  destruct (decide (c = 0%Z)).
  { injection Hr as <-. exists []. by rewrite app_nil_r. }
  destruct (decide (c = 255%Z)).
  { injection Hr as <-. exists []. by rewrite app_nil_r. }
  step Hr len Hlen.
  destruct (decide (253 ≤ len)%Z); [by eapply IH|].
  destruct (dict_attrbyvalue _) as [da|]; [|by eapply IH].
  destruct (option_shape da (Z.to_nat len)) as [[num alen]|].
  - step Hr r Hent. destruct r as [p' head'].
    apply decode_entries_extends in Hent as (tail & ->).
    apply IH in Hr as (tail' & ->). exists (tail ++ tail').
    by rewrite app_assoc.
  - step Hr r Hraw. destruct r as [p' head'].
    unfold decode_raw in Hraw.
    destruct (pairmake (da_name da)) as [vp|]; [|discriminate Hraw].
    step Hraw m Hm. step Hraw o Ho. injection Hraw as <- <-.
    apply IH in Hr as (tail' & ->). eexists (_ :: tail').
    by rewrite <-app_assoc.
Qed.

Lemma decode_fixup_attributes d head d' head' :
  decode_fixup d head = Ok (d', head') →
  attribute <$> head' = attribute <$> head.
Proof.
  unfold decode_fixup. intros Hr. step Hr g Hg.
  destruct (decide _); [|by injection Hr as <- <-].
  destruct (pairfind head (DHCP2ATTR 256)) as [[k0 vp0]|];
    [|by injection Hr as <- <-].
  destruct (decide _); [|by injection Hr as <- <-].
  destruct (pairfind head (DHCP2ATTR 63)) as [[k1 vp1]|];
    [|by injection Hr as <- <-].
  destruct (strcmp_eq _ _); [|by injection Hr as <- <-].
  step Hr b Hb. step Hr d2 Hd2. injection Hr as <- <-.
  destruct (pairfind head (DHCP2ATTR 262)) as [[k2 vp2]|] eqn:Hf; [|done].
  apply pairfind_Some in Hf as (Hk & _). by eapply fmap_attribute_insert.
Qed.

Lemma decode_clamp_attributes head l :
  decode_clamp head = Ok l → attribute <$> l = attribute <$> head.
Proof.
  intros Hl.
  assert (∀ j mtu, pairfind head (DHCP2ATTR 26) = Some (j, mtu) →
                   (576 ≤ lvalue mtu)%Z) as Hge.
  { intros j mtu Hmtu. destruct (decide (576 ≤ lvalue mtu)%Z); [done|].
    rewrite (decode_clamp_fatal head j mtu) in Hl by (done || lia).
    discriminate Hl. }
  rewrite (decode_clamp_ok _ Hge) in Hl. injection Hl as <-.
  destruct (pairfind head (DHCP2ATTR 57)) as [[i maxms]|] eqn:Hmx; [|done].
  apply pairfind_Some in Hmx as (Hi & _). by eapply fmap_attribute_insert.
Qed.

(** X4.  The list [fr_dhcp_decode] builds has the pairs of the header
    fields first, in the order of the header and at most fourteen of
    them, and after them the pairs of the options, in the order of the
    datagram: the fix-up and the clamping change values, never the
    codes or the order. *)
Lemma fr_dhcp_decode_header_first packet packet' d :
  fr_dhcp_decode packet = Ok packet' →
  data packet = Some d →
  ∃ hdr opts,
    decode_header d header_fields 0 [] = Ok hdr ∧ length hdr ≤ 14 ∧
    decode_options (Z.to_nat (Z.of_nat (data_len packet) - 240)) d 240
      (Z.of_nat (data_len packet) - 240) hdr = Ok (hdr ++ opts) ∧
    attribute <$> vps packet' = attribute <$> (hdr ++ opts).
Proof.
  unfold fr_dhcp_decode, decode_attrs. intros Hr Hdata.
  rewrite Hdata in Hr.
  step Hr r Hattrs. destruct r as [d' head]. step Hr l Hl.
  injection Hr as <-. cbn [vps].
  step Hattrs b1 Hb1. destruct (decide (b1 ≠ 1%Z)); [discriminate Hattrs|].
  step Hattrs hdr Hhdr. step Hattrs h2 Hh2.
  pose proof (decode_header_extends _ _ _ _ _ Hhdr) as (hdr' & E & Hlen).
  cbn in E. subst hdr'.
  pose proof (decode_options_extends _ _ _ _ _ _ Hh2) as (opts & ->).
  exists hdr, opts. split; [done|]. split; [exact Hlen|]. split; [done|].
  apply decode_fixup_attributes in Hattrs.
  apply decode_clamp_attributes in Hl. congruence.
Qed.

End DecodeOrder.

(** ** Well-formed datagrams are decoded without reading outside them *)

Lemma bind_safe {A B} (m : result A) (k : A → result B) :
  safe m → (∀ a, m = Ok a → safe (k a)) → safe (m ≫= k).
Proof. unfold safe. destruct m; cbn; eauto. Qed.

Lemma rd_safe buf i : i < length buf → safe (rd buf i).
Proof.
  intros Hi. unfold safe, rd.
  destruct (buf !! i) eqn:E; [done|]. apply lookup_ge_None in E. lia.
Qed.

Lemma rdn_safe buf i n : i + n ≤ length buf → safe (rdn buf i n).
Proof. intros Hi. unfold safe, rdn. by rewrite decide_True. Qed.

Lemma wr_safe buf i b : i < length buf → safe (wr buf i b).
Proof. intros Hi. unfold safe, wr. by rewrite decide_True. Qed.

Lemma wrn_safe buf i bs : i + length bs ≤ length buf → safe (wrn buf i bs).
Proof. intros Hi. unfold safe, wrn. by rewrite decide_True. Qed.

Lemma land_1_even (a : nat) :
  Z.land (Z.of_nat a) 0x01 = 0%Z → a / 2 * 2 = a.
Proof.
  intros Hz. change 0x01%Z with (Z.ones 1) in Hz.
  rewrite Z.land_ones in Hz by lia. change (2 ^ 1)%Z with 2%Z in Hz.
  assert (Z.of_nat (a / 2 * 2) = Z.of_nat a) as E; [|lia].
  rewrite Nat2Z.inj_mul, Nat2Z.inj_div. change (Z.of_nat 2) with 2%Z.
  pose proof (Z.div_mod (Z.of_nat a) 2 ltac:(lia)). lia.
Qed.

Lemma land_3_fourfold (a : nat) :
  Z.land (Z.of_nat a) 0x03 = 0%Z → a / 4 * 4 = a.
Proof.
  intros Hz. change 0x03%Z with (Z.ones 2) in Hz.
  rewrite Z.land_ones in Hz by lia. change (2 ^ 2)%Z with 4%Z in Hz.
  assert (Z.of_nat (a / 4 * 4) = Z.of_nat a) as E; [|lia].
  rewrite Nat2Z.inj_mul, Nat2Z.inj_div. change (Z.of_nat 4) with 4%Z.
  pose proof (Z.div_mod (Z.of_nat a) 4 ltac:(lia)). lia.
Qed.

(** The entries of an option fill its payload, and an entry is as wide
    as its type reads. *)
Lemma option_shape_Some da alen num w :
  option_shape da alen = Some (num, w) →
  num * w = alen ∧ w ≤ alen `max` 4 ∧ entry_fits (da_type da) w.
Proof.
  unfold option_shape, entry_fits. intros Hs.
  destruct (flags_array da), (da_type da);
    repeat case_decide; simplify_eq;
    try (split; [lia|split; [lia|done || lia]]);
    first [ split; [by apply land_1_even|split; [lia|lia]]
          | split; [by apply land_3_fourfold|split; [lia|done || lia]] ].
Qed.

Section DecodeSafe.
Context `{platform} `{dhcp_h} `{dictionary}.

Lemma pairmake_Some n vp :
  pairmake n = Some vp →
  ∃ da, dict_attrbyname n = Some da ∧ type vp = da_type da ∧
        length (vp_octets vp) = MAX_STRING_LEN.
Proof.
  unfold pairmake. destruct (dict_attrbyname n) as [da|]; [|done].
  intros [= <-]. exists da. split; [done|]. split; [done|].
  apply length_zeros.
Qed.

Lemma decode_value_safe da w num d p vp0 :
  length (vp_octets vp0) = MAX_STRING_LEN →
  entry_fits (type vp0) w → decoded_type (type vp0) = true →
  w < 253 → p + w ≤ length d →
  safe (decode_value da w num d p vp0).
Proof.
  unfold decode_value, MAX_STRING_LEN. intros Ho Hfit Hty Hw Hp.
  apply bind_safe.
  { case_decide; [|done]. destruct (flags_array da); [done|].
    case_decide; [|done]. subst w.
    apply bind_safe; [apply rd_safe; lia|done]. }
  intros hack Hhack. apply bind_safe; [|done].
  destruct hack.
  - assert (w = 7) as ->.
    { case_decide; [|discriminate Hhack].
      destruct (flags_array da); [discriminate Hhack|].
      case_decide; [done|discriminate Hhack]. }
    clear Hhack.
    apply bind_safe; [apply rdn_safe; lia|]. intros m Hm.
    apply rdn_length in Hm.
    apply bind_safe; [apply wrn_safe; lia|done].
  - clear Hhack. unfold entry_fits in Hfit.
    destruct (type vp0); try discriminate Hty.
    + apply bind_safe; [apply rdn_safe; lia|]. intros m Hm.
      apply rdn_length in Hm.
      apply bind_safe; [apply wrn_safe; lia|]. intros o Ho'.
      apply wrn_Ok in Ho' as [_ ->].
      apply bind_safe; [apply wr_safe; rewrite length_inserts; lia|done].
    + apply bind_safe; [apply rdn_safe; lia|done].
    + apply bind_safe; [apply rdn_safe; lia|done].
    + apply bind_safe; [apply rdn_safe; lia|]. intros m Hm.
      apply rdn_length in Hm.
      apply bind_safe; [apply wrn_safe; lia|done].
    + apply bind_safe; [apply rd_safe; lia|done].
    + apply bind_safe; [apply rd_safe; lia|]. intros b0 _.
      apply bind_safe; [apply rd_safe; lia|done].
Qed.

Lemma decode_entries_safe da w num n d p head :
  dict_attrbyname (da_name da) = Some da →
  entry_fits (da_type da) w → decoded_type (da_type da) = true →
  w < 253 → p + n * w ≤ length d →
  safe (decode_entries da w num n d p head).
Proof.
  intros Hname Hfit Hty Hw. revert p head.
  induction n as [|n IH]; intros p head Hp; cbn; [done|].
  destruct (pairmake (da_name da)) as [vp0|] eqn:Hmk; [|done].
  apply pairmake_Some in Hmk as (da' & Hda' & Ht & Ho).
  assert (da' = da) as -> by congruence.
  apply bind_safe.
  - apply decode_value_safe; rewrite ?Ht; done || lia.
  - intros vp _. apply IH. lia.
Qed.

Lemma decode_entries_position da w num n d p head p' l :
  decode_entries da w num n d p head = Ok (p', l) → p' = p + n * w.
Proof.
  revert p head. induction n as [|n IH]; intros p head Hr; cbn in Hr.
  { injection Hr as <- <-. lia. }
  destruct (pairmake (da_name da)) as [vp0|]; [|discriminate Hr].
  step Hr vp Hvp. apply IH in Hr. lia.
Qed.

Lemma decode_raw_safe da alen d p head :
  alen < 253 → p + alen ≤ length d → safe (decode_raw da alen d p head).
Proof.
  intros Hw Hp. unfold decode_raw.
  destruct (pairmake (da_name da)) as [vp0|] eqn:Hmk; [|done].
  apply pairmake_Some in Hmk as (_ & _ & _ & Ho).
  unfold MAX_STRING_LEN in Ho.
  apply bind_safe; [apply rdn_safe; lia|]. intros m Hm.
  apply rdn_length in Hm.
  apply bind_safe; [apply wrn_safe; lia|done].
Qed.

Lemma decode_options_safe fuel d p total head q :
  dict_coherent → tlv_stream d p q → d !! q = Some 255%Z →
  safe (decode_options fuel d p total head).
Proof.
  intros Hdict Hs Hq. revert p total head Hs.
  induction fuel as [|fuel IH]; intros p total head Hs; cbn.
  { by case_decide. }
  destruct (decide (total ≤ 0)%Z); [done|].
  pose proof (tlv_stream_le _ _ _ Hs) as Hpq.
  apply lookup_lt_Some in Hq as Hqlen.
  apply bind_safe; [apply rd_safe; lia|]. intros c Hc.
  destruct (decide (c = 0%Z)); [done|].
  destruct (decide (c = 255%Z)); [done|].
  apply rd_Ok in Hc.
  inversion Hs as [|p0 q0 len Hlen Hrange Hnext]; subst.
  { congruence. }
  pose proof (tlv_stream_le _ _ _ Hnext) as Hnq.
  apply bind_safe; [apply rd_safe; lia|]. intros l Hl.
  apply rd_Ok in Hl. assert (l = len) as -> by congruence.
  replace (p + Z.to_nat len + 2) with (p + 2 + Z.to_nat len) by lia.
  destruct (decide (253 ≤ len)%Z); [by apply IH|].
  destruct (dict_attrbyvalue (DHCP2ATTR c)) as [da|] eqn:Hda;
    [|by apply IH].
  apply Hdict in Hda as [Hname Hty].
  destruct (option_shape da (Z.to_nat len)) as [[num w]|] eqn:Hshape.
  - apply option_shape_Some in Hshape as (Hfill & Hmax & Hfit).
    apply bind_safe.
    + apply decode_entries_safe; try done; lia.
    + intros [p' head'] Hent.
      apply decode_entries_position in Hent. subst p'.
      replace (p + 2 + num * w) with (p + 2 + Z.to_nat len) by lia.
      by apply IH.
  - apply bind_safe.
    + apply decode_raw_safe; lia.
    + intros [p' head'] Hraw. unfold decode_raw in Hraw.
      destruct (pairmake (da_name da)); [|discriminate Hraw].
      step Hraw m Hm. step Hraw o Ho. injection Hraw as <- <-.
      by apply IH.
Qed.

Lemma decode_header_field_safe d i nm size p :
  d !! 2 = Some 6%Z → p + size ≤ length d → p + 6 ≤ length d →
  size < 254 → safe (decode_header_field d i nm size p).
Proof.
  intros H2 Hsize Hp Hlt. unfold decode_header_field.
  apply lookup_lt_Some in H2 as Hlen.
  destruct (pairmake nm) as [vp0|] eqn:Hmk; [|done].
  apply pairmake_Some in Hmk as (_ & _ & _ & Ho).
  unfold MAX_STRING_LEN in Ho.
  apply bind_safe.
  { case_decide; [|done].
    apply bind_safe; [apply rd_safe; lia|]. intros b1 _.
    case_decide; [|done].
    apply bind_safe; [apply rd_safe; lia|]. intros b2 _.
    by case_decide. }
  intros vp Hvp.
  assert (length (vp_octets vp) = 254) as Ho'.
  { repeat case_decide; simplify_eq; try done.
    step Hvp b1 Hb1. case_decide; simplify_eq; [|done].
    step Hvp b2 Hb2. by case_decide; simplify_eq. }
  clear Hvp. destruct (type vp); try done.
  - apply bind_safe; [apply rdn_safe; lia|]. intros m Hm.
    apply rdn_length in Hm.
    apply bind_safe; [apply wrn_safe; lia|]. intros o Hw.
    apply wrn_Ok in Hw as [_ ->].
    apply bind_safe; [apply wr_safe; rewrite length_inserts; lia|].
    intros o' _. by destruct (decide (strlen o' = 0)).
  - apply bind_safe; [apply rdn_safe; lia|done].
  - apply bind_safe; [apply rdn_safe; lia|done].
  - apply bind_safe; [apply rd_safe; lia|]. intros hlen Hh.
    apply rd_Ok in Hh. assert (hlen = 6%Z) as -> by congruence.
    change (Z.to_nat 6) with 6.
    apply bind_safe; [apply rdn_safe; lia|]. intros m Hm.
    apply rdn_length in Hm.
    apply bind_safe; [apply wrn_safe; lia|done].
  - apply bind_safe; [apply rd_safe; lia|done].
  - apply bind_safe; [apply rd_safe; lia|]. intros b0 _.
    apply bind_safe; [apply rd_safe; lia|done].
  - apply bind_safe; [apply rdn_safe; lia|]. intros m Hm.
    apply rdn_length in Hm.
    apply bind_safe; [apply wrn_safe; lia|done].
Qed.

Lemma decode_header_safe d :
  d !! 2 = Some 6%Z → 240 ≤ length d →
  safe (decode_header d header_fields 0 []).
Proof.
  intros H2 Hlen.
  let fields := eval cbv in header_fields in
  change header_fields with fields.
  cbn [decode_header].
  repeat (apply bind_safe;
          [apply decode_header_field_safe; cbn; done || lia
          |intros ? _]).
  done.
Qed.

(** X19.  A datagram whose option area is well formed is decoded without any
    access outside it.  When the options from offset 240 on follow one
    another by their length bytes up to an end marker 0xFF inside the
    datagram, the hardware address length is 6 and the dictionary is
    coherent on the options, [fr_dhcp_decode] reads and writes no byte
    outside the datagram or outside the value buffer of a pair, and
    stores through no freed pair. *)
Lemma fr_dhcp_decode_well_formed_safe packet d q :
  data packet = Some d → d !! 2 = Some 6%Z →
  tlv_stream d 240 q → d !! q = Some 255%Z →
  dict_coherent →
  safe (fr_dhcp_decode packet).
Proof.
  intros Hdata H2 Hs Hq Hdict.
  pose proof (tlv_stream_le _ _ _ Hs) as Hpq.
  apply lookup_lt_Some in Hq as Hqlen.
  unfold fr_dhcp_decode, decode_attrs. rewrite Hdata.
  apply bind_safe.
  - apply bind_safe; [apply rd_safe; lia|]. intros b1 _.
    case_decide; [done|].
    apply bind_safe; [apply decode_header_safe; done || lia|].
    intros hdr _.
    apply bind_safe; [by eapply decode_options_safe|]. intros head _.
    unfold decode_fixup.
    apply bind_safe; [apply rdn_safe; lia|]. intros g _.
    repeat (case_decide || case_match); try done.
    all: apply bind_safe; [apply rd_safe; lia|]; intros b _;
      apply bind_safe; [apply wr_safe; lia|done].
  - intros [d' head] _. apply bind_safe; [|done].
    unfold decode_clamp, safe. repeat (case_decide || case_match); done.
Qed.

End DecodeSafe.

(** The sample dictionary is coherent on the options. *)
Lemma dict_instance_coherent : @dict_coherent dhcp_h_instance dict_instance.
Proof.
  assert (Forall (λ da, @dict_attrbyname dict_instance (da_name da) = Some da
                        ∧ decoded_type (da_type da) = true) dict_entries)
    as Hall.
  { repeat (apply Forall_cons_2; [split; vm_compute; reflexivity|]).
    apply Forall_nil_2. }
  intros c da Hda.
  change (snd <$> list_find (λ da, attr da = @DHCP2ATTR dhcp_h_instance c)
                    dict_entries = Some da) in Hda.
  apply fmap_Some in Hda as ([i da'] & Hfind & ->).
  apply list_find_Some in Hfind as (Hi & _).
  rewrite Forall_forall in Hall. apply Hall.
  by eapply list_elem_of_lookup_2.
Qed.

(** ** A reply that fits the buffer is encoded *)

Lemma bind_succeeds {A B} (m : result A) (k : A → result B) :
  (∃ a, m = Ok a) → (∀ a, m = Ok a → ∃ b, k a = Ok b) →
  ∃ b, m ≫= k = Ok b.
Proof. intros [a ->] Hk. cbn. by apply Hk. Qed.

Lemma rdn_fits buf i n :
  i + n ≤ length buf → rdn buf i n = Ok (take n (drop i buf)).
Proof. intros Hi. unfold rdn. by rewrite decide_True. Qed.

Lemma wr_fits buf i b : i < length buf → wr buf i b = Ok (<[i:=b]> buf).
Proof. intros Hi. unfold wr. by rewrite decide_True. Qed.

Lemma wrn_fits buf i bs :
  i + length bs ≤ length buf → wrn buf i bs = Ok (list_inserts i bs buf).
Proof. intros Hi. unfold wrn. by rewrite decide_True. Qed.

Lemma emit_eq bs st :
  st.2 + length bs ≤ length st.1 →
  emit bs st = Ok (list_inserts st.2 bs st.1, st.2 + length bs).
Proof. intros Hi. unfold emit. by rewrite wrn_fits. Qed.

Lemma emit_fits bs st :
  st.2 + length bs ≤ length st.1 → ∃ st', emit bs st = Ok st'.
Proof. intros Hi. unfold emit. rewrite wrn_fits by done. by eexists. Qed.

Lemma option_room_cons vp l :
  option_room (vp :: l) = 4 + value_width vp + option_room l.
Proof. done. Qed.

Lemma option_room_pairdelete l a :
  option_room (pairdelete l a) ≤ option_room l.
Proof.
  unfold pairdelete. induction l as [|vp l IH]; [done|].
  rewrite filter_cons. case_decide; rewrite !option_room_cons; lia.
Qed.

Lemma Forall_pair_ok_pairdelete l a :
  Forall pair_ok l → Forall pair_ok (pairdelete l a).
Proof.
  intros Hl. apply Forall_forall. intros vp Hvp.
  apply list_elem_of_filter in Hvp as [_ Hvp].
  rewrite Forall_forall in Hl. by apply Hl.
Qed.

Section EncodeFits.
Context `{platform} `{dhcp_h}.

Lemma fr_dhcp_vp2attr_fits vp buf p :
  pair_ok vp → p + value_width vp ≤ length buf →
  ∃ buf', fr_dhcp_vp2attr vp buf p = Ok (buf', value_width vp) ∧
          length buf' = length buf.
Proof.
  unfold fr_dhcp_vp2attr, value_width, pair_ok, MAX_STRING_LEN.
  intros [Ho Hl] Hp. destruct (type vp); try (by eexists).
  - rewrite rdn_fits by lia. cbn.
    rewrite wrn_fits by (rewrite length_take, length_drop; lia). cbn.
    eexists. split; [done|]. apply length_inserts.
  - rewrite wrn_fits by (rewrite length_host_bytes; lia). cbn.
    eexists. split; [done|]. apply length_inserts.
  - rewrite wrn_fits by (rewrite length_host_bytes; lia). cbn.
    eexists. split; [done|]. apply length_inserts.
  - rewrite rdn_fits by lia. cbn.
    rewrite wrn_fits by (rewrite length_take, length_drop; lia). cbn.
    eexists. split; [done|]. apply length_inserts.
  - rewrite wr_fits by lia. cbn.
    eexists. split; [done|]. apply length_insert.
  - rewrite wr_fits by lia. cbn.
    rewrite wr_fits by (rewrite length_insert; lia). cbn.
    eexists. split; [done|]. by rewrite !length_insert.
  - rewrite rdn_fits by lia. cbn.
    rewrite wrn_fits by (rewrite length_take, length_drop; lia). cbn.
    eexists. split; [done|]. apply length_inserts.
Qed.

Lemma retag_fits vp n :
  pair_ok vp →
  ∃ vp', retag vp n = Ok vp' ∧ pair_ok vp' ∧
         attribute vp' = attribute vp ∧ value_width vp' = value_width vp.
Proof.
  unfold retag, pair_ok, MAX_STRING_LEN. intros [Ho Hl].
  destruct (bool_decide (type vp = PW_TYPE_ETHERNET)) eqn:Ht; cbn;
    [|by eexists].
  destruct (bool_decide (vp_length vp = 6)) eqn:H6; cbn; [|by eexists].
  destruct (bool_decide (n = 1)); cbn; [|by eexists].
  apply bool_decide_eq_true in Ht, H6.
  rewrite rdn_fits by lia. cbn.
  rewrite wrn_fits by (rewrite length_take, length_drop; lia). cbn.
  rewrite wr_fits by (rewrite length_inserts; lia). cbn.
  eexists. split; [done|]. cbn.
  rewrite length_insert, length_inserts.
  split; [done|]. split; [done|]. unfold value_width. cbn.
  by rewrite Ht, H6.
Qed.

Lemma count_same_cons a nx rest :
  attribute nx = a → count_same a (nx :: rest) = S (count_same a rest).
Proof. intros Ha. cbn. by rewrite decide_False by (intros ?; done). Qed.

Lemma encode_entries_fits n plength s :
  pair_ok (pk_vp s) → Forall pair_ok (pk_next s) →
  plength < pk_p s →
  n ≤ S (count_same (attribute (pk_vp s)) (pk_next s)) →
  pk_p s + value_width (pk_vp s) + option_room (pk_next s)
    ≤ length (pk_buf s) →
  ∃ s', encode_entries n plength s = Ok s' ∧
        length (pk_buf s') = length (pk_buf s) ∧
        Forall pair_ok (pk_next s') ∧
        length (pk_next s') ≤ length (pk_next s) ∧
        attribute (pk_vp s') = attribute (pk_vp s) ∧
        pk_p s' + option_room (pk_next s')
          ≤ pk_p s + value_width (pk_vp s) + option_room (pk_next s).
Proof.
  revert s. induction n as [|n IH]; intros s Hvp Hnext Hpl Hn Hroom; cbn.
  { exists s. do 5 (split; [done|]). lia. }
  destruct (fr_dhcp_vp2attr_fits (pk_vp s) (pk_buf s) (pk_p s) Hvp)
    as (buf1 & -> & L1); [lia|]. cbn.
  destruct (decide (255 < value_width (pk_vp s))).
  { eexists. split; [done|]. cbn. do 4 (split; [done|]). lia. }
  destruct (buf1 !! plength) as [pl|] eqn:Hplv;
    [|apply lookup_ge_None in Hplv; lia].
  unfold rd at 1. rewrite Hplv. cbn.
  destruct (decide (pl + Z.of_nat (value_width (pk_vp s)) > 255)%Z).
  { eexists. split; [done|]. cbn. do 4 (split; [done|]). lia. }
  rewrite wr_fits by lia. cbn.
  destruct (pk_next s) as [|nx rest] eqn:Hnx.
  - assert (n = 0) as -> by (cbn in Hn; lia). cbn.
    eexists. split; [done|]. cbn. rewrite length_insert.
    do 4 (split; [done|]). lia.
  - apply Forall_cons in Hnext as [Hnxok Hrest].
    rewrite option_room_cons in Hroom.
    destruct (decide (attribute nx = attribute (pk_vp s))) as [Ha|Ha].
    + rewrite (count_same_cons _ _ _ Ha) in Hn.
      destruct (IH (mkPack (<[plength:=(pl + Z.of_nat (value_width (pk_vp s)))%Z]> buf1)
                      (pk_p s + value_width (pk_vp s)) nx rest
                      (pk_prev s ++ [pk_vp s])))
        as (s' & -> & L' & Hok' & Hlen' & Ha' & Hroom'); cbn.
      * done.
      * done.
      * lia.
      * rewrite Ha. lia.
      * rewrite length_insert. lia.
      * exists s'. cbn in *. rewrite length_insert in L'.
        split; [done|]. split; [congruence|]. split; [done|].
        split; [lia|]. split; [congruence|].
        rewrite option_room_cons. lia.
    + assert (n = 0) as ->.
      { cbn in Hn. rewrite decide_True in Hn by done. lia. }
      cbn. eexists. split; [done|]. cbn. rewrite length_insert.
      split; [done|]. split; [by constructor|]. split; [done|].
      split; [done|].
      rewrite !option_room_cons. lia.
Qed.

Lemma encode_option_fits vp rest prev buf p :
  pair_ok vp → Forall pair_ok rest →
  p + 4 + value_width vp + option_room rest ≤ length buf →
  ∃ s, encode_option vp rest prev buf p = Ok s ∧
       length (pk_buf s) = length buf ∧
       Forall pair_ok (pk_next s) ∧
       length (pk_next s) ≤ length rest ∧
       pk_p s + option_room (pk_next s)
         ≤ p + 4 + value_width vp + option_room rest.
Proof.
  intros Hvp Hrest Hroom. unfold encode_option.
  destruct (retag_fits vp (S (count_same (attribute vp) rest)) Hvp)
    as (vp' & -> & Hvp' & Ha & Hw). cbn [mbind result_bind].
  rewrite emit_eq by (cbn [length fst snd]; lia).
  cbn [mbind result_bind fst snd length].
  rewrite emit_eq by (cbn [length fst snd]; rewrite length_inserts; lia).
  cbn [mbind result_bind fst snd length].
  set (buf2 := list_inserts (p + 1) [0%Z] (list_inserts p _ buf)).
  assert (length buf2 = length buf) as L2
    by (subst buf2; by rewrite !length_inserts).
  destruct (decide (DHCP_BASE_ATTR (attribute vp') = PW_DHCP_OPTION_82))
    as [H82|H82].
  - rewrite emit_eq by (cbn [length fst snd]; lia).
    cbn [mbind result_bind fst snd length].
    rewrite emit_eq by (cbn [length fst snd]; rewrite length_inserts; lia).
    cbn [mbind result_bind fst snd length].
    rewrite wr_fits by (rewrite !length_inserts; lia).
    cbn [mbind result_bind fst snd].
    match goal with
    | |- context [encode_entries ?n ?pl ?s] =>
      destruct (encode_entries_fits n pl s)
        as (s' & -> & L' & Hok' & Hlen' & Ha' & Hroom');
        cbn [pk_vp pk_buf pk_p pk_next pk_prev] in *
    end.
    + done.
    + done.
    + lia.
    + by rewrite Ha.
    + rewrite length_insert, !length_inserts, L2, Hw. lia.
    + rewrite length_insert, !length_inserts, L2 in L'.
      cbn [mbind result_bind].
      rewrite Ha', decide_True by done.
      destruct (pk_buf s' !! (p + 1)) as [pl|] eqn:Hplv;
        [|apply lookup_ge_None in Hplv; lia].
      unfold rd. rewrite Hplv. cbn [mbind result_bind].
      rewrite wr_fits by lia. cbn [mbind result_bind].
      eexists. split; [done|].
      cbn [pk_vp pk_buf pk_p pk_next pk_prev]. rewrite length_insert.
      split; [done|]. split; [done|]. split; [done|]. lia.
  - cbn [mbind result_bind fst snd].
    match goal with
    | |- context [encode_entries ?n ?pl ?s] =>
      destruct (encode_entries_fits n pl s)
        as (s' & -> & L' & Hok' & Hlen' & Ha' & Hroom');
        cbn [pk_vp pk_buf pk_p pk_next pk_prev] in *
    end.
    + done.
    + done.
    + lia.
    + by rewrite Ha.
    + rewrite L2, Hw. lia.
    + rewrite L2 in L'. cbn [mbind result_bind].
      rewrite Ha', decide_False by done.
      exists s'. split; [done|]. split; [done|]. split; [done|].
      split; [done|]. lia.
Qed.

Lemma encode_options_fits fuel l prev buf p :
  Forall pair_ok l → length l ≤ fuel →
  p + option_room l ≤ length buf →
  ∃ buf' p' l', encode_options fuel l prev buf p = Ok (buf', p', l') ∧
                length buf' = length buf ∧ p' ≤ p + option_room l.
Proof.
  revert l prev buf p.
  induction fuel as [|fuel IH]; intros l prev buf p Hok Hfuel Hroom;
    destruct l as [|vp rest]; cbn in *; try lia.
  - eexists _, _, _. split; [done|]. split; [done|lia].
  - eexists _, _, _. split; [done|]. split; [done|lia].
  - apply Forall_cons in Hok as [Hvp Hrest].
    rewrite option_room_cons in Hroom.
    destruct (skipped vp).
    + destruct (IH rest (prev ++ [vp]) buf p Hrest)
        as (buf' & p' & l' & -> & L & Hp); [lia|lia|].
      eexists _, _, _. split; [done|]. split; [done|].
      rewrite option_room_cons. lia.
    + destruct (encode_option_fits vp rest prev buf p Hvp Hrest)
        as (s & -> & L & Hok' & Hlen & Hp); [lia|]. cbn.
      destruct (IH (pk_next s) (pk_prev s ++ [pk_vp s]) (pk_buf s) (pk_p s)
                  Hok') as (buf' & p' & l' & -> & L' & Hp'); [lia|lia|].
      eexists _, _, _. split; [done|]. split; [congruence|].
      rewrite option_room_cons. lia.
Qed.

Lemma encode_header_fits env packet o od buf :
  data o = Some od → 44 ≤ length od → 240 ≤ length buf →
  ∃ st, encode_header env packet (Some o) buf = Ok st.
Proof.
  intros Hdata Hod Hbuf. unfold encode_header. cbn [deref].
  apply bind_succeeds; [apply emit_fits; cbn; lia|]. intros st1 H1.
  apply emit_Ok in H1 as (P1 & _ & F1 & _). apply frame_length in F1.
  apply bind_succeeds; [apply emit_fits; cbn in *; lia|]. intros st2 H2.
  apply emit_Ok in H2 as (P2 & _ & F2 & _). apply frame_length in F2.
  cbn [mbind result_bind]. rewrite Hdata. cbn [deref mbind result_bind].
  destruct (od !! 2) as [hlen|] eqn:Hhlen;
    [|apply lookup_ge_None in Hhlen; lia].
  unfold rd at 1. rewrite Hhlen. cbn [mbind result_bind].
  apply bind_succeeds; [apply emit_fits; cbn in *; lia|]. intros st3 H3.
  apply emit_Ok in H3 as (P3 & _ & F3 & _). apply frame_length in F3.
  apply bind_succeeds; [apply emit_fits; cbn in *; lia|]. intros st4 H4.
  apply emit_Ok in H4 as (P4 & _ & F4 & _). apply frame_length in F4.
  rewrite !rdn_fits by (unfold DHCP_CHADDR_LEN; lia).
  cbn [mbind result_bind length fst snd] in *.
  apply bind_succeeds.
  { apply emit_fits. rewrite length_take, length_drop. lia. }
  intros st5 H5.
  apply emit_Ok in H5 as (P5 & _ & F5 & _). apply frame_length in F5.
  rewrite length_take, length_drop in P5.
  apply bind_succeeds; [apply emit_fits; rewrite length_zeros; lia|].
  intros st6 H6.
  apply emit_Ok in H6 as (P6 & _ & F6 & _). apply frame_length in F6.
  rewrite length_zeros in P6.
  apply bind_succeeds.
  { apply emit_fits. rewrite length_take, length_drop. lia. }
  intros st7 H7.
  apply emit_Ok in H7 as (P7 & _ & F7 & _). apply frame_length in F7.
  rewrite length_take, length_drop in P7.
  apply bind_succeeds; [apply emit_fits; rewrite length_host_bytes; lia|].
  intros st8 H8.
  apply emit_Ok in H8 as (P8 & _ & F8 & _). apply frame_length in F8.
  rewrite length_host_bytes in P8.
  apply bind_succeeds; [apply emit_fits; rewrite length_zeros; lia|].
  intros st9 H9.
  apply emit_Ok in H9 as (P9 & _ & F9 & _). apply frame_length in F9.
  rewrite length_zeros in P9.
  apply bind_succeeds; [apply emit_fits; rewrite length_zeros; lia|].
  intros st10 H10.
  apply emit_Ok in H10 as (P10 & _ & F10 & _). apply frame_length in F10.
  rewrite length_zeros in P10.
  apply bind_succeeds.
  { apply emit_fits. rewrite length_take, length_drop.
    unfold DHCP_CHADDR_LEN. lia. }
  intros st11 H11.
  apply emit_Ok in H11 as (P11 & _ & F11 & _). apply frame_length in F11.
  rewrite length_take, length_drop in P11. unfold DHCP_CHADDR_LEN in P11.
  apply bind_succeeds; [apply emit_fits; rewrite length_zeros; lia|].
  intros st12 H12.
  apply emit_Ok in H12 as (P12 & _ & F12 & _). apply frame_length in F12.
  rewrite length_zeros in P12.
  apply emit_fits. rewrite length_host_bytes. lia.
Qed.


End EncodeFits.

(** * The properties on sample datagrams *)

Lemma fr_dhcp_recv_packet_witness :
  ∃ pkt t,
    sample_recv discover_datagram = Ok pkt ∧
    id pkt = be_val [0x12; 0x34; 0x56; 0x78]%Z ∧
    discover_datagram !! 242 = Some t ∧
    code pkt = Z.lor 1024 t ∧
    vector pkt = [0x00; 0x11; 0x22; 0x33; 0x44; 0x55]%Z ++ [t] ++ zeros 9.
Proof.
  pose (rp := sample_recv discover_datagram).
  assert (sample_recv discover_datagram = rp) as Epkt by reflexivity.
  vm_compute in rp.
  match eval unfold rp in rp with Ok ?pkt =>
    destruct (@fr_dhcp_recv_packet little_endian_host dhcp_h_instance
                5%Z discover_datagram (mkIP 2 0) 67%Z pkt
                ltac:(all_bytes) Epkt)
      as (_ & _ & _ & _ & _ & Hid & _ & t & Ht & Hcode & Hvec);
    exists pkt, t
  end.
  split; [exact Epkt|]. split; [exact Hid|]. split; [exact Ht|].
  split; [exact Hcode|exact Hvec].
Defined.

Lemma fr_dhcp_decode_keeps_packet_witness :
  ∃ pkt pkt',
    sample_recv discover_datagram = Ok pkt ∧
    @fr_dhcp_decode little_endian_host dhcp_h_instance dict_instance pkt
      = Ok pkt' ∧
    id pkt' = id pkt ∧ code pkt' = code pkt ∧ vector pkt' = vector pkt ∧
    data_len pkt' = 244.
Proof.
  pose (rp := sample_recv discover_datagram).
  assert (sample_recv discover_datagram = rp) as Epkt by reflexivity.
  vm_compute in rp.
  match eval unfold rp in rp with Ok ?pkt =>
    pose (rd := @fr_dhcp_decode little_endian_host dhcp_h_instance
                  dict_instance pkt);
    assert (@fr_dhcp_decode little_endian_host dhcp_h_instance
              dict_instance pkt = rd) as Edec by reflexivity
  end.
  vm_compute in rd.
  match eval unfold rd in rd with Ok ?pkt' =>
    match eval unfold rp in rp with Ok ?pkt =>
      destruct (@fr_dhcp_decode_keeps_packet little_endian_host
                  dhcp_h_instance dict_instance pkt pkt'
                  discover_datagram Edec eq_refl)
        as (_ & _ & _ & _ & _ & Hid & Hcode & Hvec & Hlen & _);
      exists pkt, pkt'
    end
  end.
  split; [exact Epkt|]. split; [exact Edec|]. split; [exact Hid|].
  split; [exact Hcode|]. split; [exact Hvec|exact Hlen].
Defined.

Lemma fr_dhcp_decode_message_size_bounds_witness :
  ∃ pkt' i maxms,
    sample_decode small_mms_datagram = Ok pkt' ∧
    pairfind (vps pkt') (@DHCP2ATTR dhcp_h_instance 57%Z)
      = Some (i, maxms) ∧
    (576 ≤ lvalue maxms)%Z.
Proof.
  pose (rd := sample_decode small_mms_datagram).
  assert (sample_decode small_mms_datagram = rd) as Edec by reflexivity.
  vm_compute in rd.
  match eval unfold rd in rd with Ok ?pkt' =>
    pose (rf := pairfind (vps pkt') (@DHCP2ATTR dhcp_h_instance 57%Z));
    assert (pairfind (vps pkt') (@DHCP2ATTR dhcp_h_instance 57%Z) = rf)
      as Efind by reflexivity;
    vm_compute in rf;
    match eval unfold rf in rf with Some (?i, ?maxms) =>
      exists pkt', i, maxms; split; [exact Edec|]; split; [exact Efind|];
      refine (proj1 (proj2 (@fr_dhcp_decode_message_size_bounds
                little_endian_host dhcp_h_instance dict_instance
                _ pkt' _) i maxms Efind))
    end
  end.
  pose (rp := sample_recv small_mms_datagram).
  assert (sample_recv small_mms_datagram = rp) as Epkt by reflexivity.
  vm_compute in rp.
  match eval unfold rp in rp with Ok ?pkt =>
    instantiate (1 := pkt)
  end.
  exact Edec.
Defined.

Lemma decode_entries_count_witness :
  ∃ p' l,
    @decode_entries little_endian_host dhcp_h_instance dict_instance
      dns_attr 4 2 2 dns_datagram 245 [] = Ok (p', l) ∧
    p' = 253 ∧ length l = 2 ∧ Forall (λ vp, vp_length vp = 4) l.
Proof.
  pose (r := @decode_entries little_endian_host dhcp_h_instance
               dict_instance dns_attr 4 2 2 dns_datagram 245 []).
  assert (@decode_entries little_endian_host dhcp_h_instance
            dict_instance dns_attr 4 2 2 dns_datagram 245 [] = r)
    as E by reflexivity.
  vm_compute in r.
  match eval unfold r in r with Ok (?p', ?l) =>
    destruct (@decode_entries_count little_endian_host dhcp_h_instance
                dict_instance dns_attr 4 2 2 dns_datagram 245 [] p' l E)
      as (Hp & tail & Hl & Hn & Hall);
    exists p', l
  end.
  split; [exact E|]. split; [exact Hp|].
  cbn [app] in Hl. rewrite Hl. split; [exact Hn|exact Hall].
Defined.

Lemma decode_value_vp2attr_witness :
  ∃ vp0 vp buf',
    @pairmake dict_instance "DHCP-Domain-Name-Server" = Some vp0 ∧
    @decode_value little_endian_host dhcp_h_instance
      dns_attr 4 2 dns_datagram 245 vp0 = Ok vp ∧
    @fr_dhcp_vp2attr little_endian_host vp (zeros 8) 2 = Ok (buf', 4) ∧
    take 4 (drop 2 buf') = [10; 0; 0; 1]%Z.
Proof.
  pose (r0 := @pairmake dict_instance "DHCP-Domain-Name-Server").
  assert (@pairmake dict_instance "DHCP-Domain-Name-Server" = r0)
    as E0 by reflexivity.
  vm_compute in r0.
  match eval unfold r0 in r0 with Some ?vp0 =>
    pose (r1 := @decode_value little_endian_host dhcp_h_instance
                  dns_attr 4 2 dns_datagram 245 vp0);
    assert (@decode_value little_endian_host dhcp_h_instance
              dns_attr 4 2 dns_datagram 245 vp0 = r1) as E1 by reflexivity
  end.
  vm_compute in r1.
  match eval unfold r1 in r1 with Ok ?vp =>
    pose (r2 := @fr_dhcp_vp2attr little_endian_host vp (zeros 8) 2);
    assert (@fr_dhcp_vp2attr little_endian_host vp (zeros 8) 2 = r2)
      as E2 by reflexivity
  end.
  vm_compute in r2.
  match eval unfold r2 in r2 with Ok (?buf', ?len) =>
    match eval unfold r1 in r1 with Ok ?vp =>
    match eval unfold r0 in r0 with Some ?vp0 =>
      destruct (@decode_value_vp2attr little_endian_host dhcp_h_instance
                  dns_attr 4 2 dns_datagram 245 vp0 vp (zeros 8) 2 buf' len
                  E1
                  ltac:(intros Ht; vm_compute in Ht; discriminate Ht)
                  ltac:(intros Ht; vm_compute in Ht; discriminate Ht)
                  ltac:(intros Ht; vm_compute in Ht; discriminate Ht)
                  ltac:(intros _; reflexivity)
                  ltac:(all_bytes) E2)
        as [_ Hbytes];
      exists vp0, vp, buf'
    end end
  end.
  split; [exact E0|]. split; [exact E1|]. split; [exact E2|].
  exact Hbytes.
Defined.

Lemma fr_dhcp_vp2attr_writes_witness :
  ∃ buf' len,
    @fr_dhcp_vp2attr little_endian_host (byte_pair 53 2) (zeros 8) 3
      = Ok (buf', len) ∧
    len = 1 ∧ length buf' = 8 ∧
    buf' !! 2 = Some 0%Z ∧ buf' !! 4 = Some 0%Z.
Proof.
  pose (r := @fr_dhcp_vp2attr little_endian_host (byte_pair 53 2)
               (zeros 8) 3).
  assert (@fr_dhcp_vp2attr little_endian_host (byte_pair 53 2) (zeros 8) 3
          = r) as E by reflexivity.
  vm_compute in r.
  match eval unfold r in r with Ok (?buf', ?len) =>
    destruct (@fr_dhcp_vp2attr_writes little_endian_host
                (byte_pair 53 2) (zeros 8) 3 buf' len E)
      as (Hlen & Hsize & Hframe);
    exists buf', len
  end.
  split; [exact E|]. split; [exact Hlen|]. split; [exact Hsize|].
  split.
  - exact (Hframe 2 ltac:(left; lia)).
  - exact (Hframe 4 ltac:(right; cbn; lia)).
Defined.

Lemma encode_options_skipped_witness :
  @encode_options little_endian_host dhcp_h_instance 2
    [user_name_pair; byte_pair 256 2] [] (zeros 8) 3
  = Ok (zeros 8, 3, [user_name_pair; byte_pair 256 2]).
Proof.
  apply (@encode_options_skipped little_endian_host dhcp_h_instance 2
           [user_name_pair; byte_pair 256 2] [] (zeros 8) 3).
  - apply Forall_cons_2; [reflexivity|].
    apply Forall_cons_2; [reflexivity|apply Forall_nil_2].
  - cbn. lia.
Defined.

Lemma fr_dhcp_encode_destination_witness :
  ∃ pkt reply,
    sample_decode relayed_datagram = Ok pkt ∧
    sample_encode 1026%Z (mkIP 0 0) [] (Some pkt) = Ok reply ∧
    @host_bytes little_endian_host 4 (s_addr (dst_ipaddr reply))
      = [10; 0; 0; 1]%Z.
Proof.
  pose (rp := sample_decode relayed_datagram).
  assert (sample_decode relayed_datagram = rp) as Epkt by reflexivity.
  vm_compute in rp.
  match eval unfold rp in rp with Ok ?pkt =>
    pose (re := sample_encode 1026%Z (mkIP 0 0) [] (Some pkt));
    assert (sample_encode 1026%Z (mkIP 0 0) [] (Some pkt) = re) as Eenc
      by reflexivity
  end.
  vm_compute in re.
  match eval unfold re in re with Ok ?reply =>
    match eval unfold rp in rp with Ok ?pkt =>
      destruct (@fr_dhcp_encode_destination little_endian_host
                  dhcp_h_instance sample_env
                  (reply_packet 1026%Z (mkIP 0 0) []) pkt relayed_datagram
                  reply eq_refl Eenc eq_refl ltac:(all_bytes))
        as (Hrelay & _ & _);
      exists pkt, reply
    end
  end.
  split; [exact Epkt|]. split; [exact Eenc|].
  apply Hrelay. intros Hz. vm_compute in Hz. discriminate Hz.
Defined.


Lemma fr_dhcp_encode_attributes_witness :
  ∃ pkt reply,
    sample_decode discover_datagram = Ok pkt ∧
    sample_encode 1026%Z (mkIP 0 0)
      [byte_pair 53 5; octets_pair 43 3 7; byte_pair 12 65] (Some pkt)
      = Ok reply ∧
    attribute <$> vps reply ≡ₚ
      [@DHCP2ATTR dhcp_h_instance 43%Z; @DHCP2ATTR dhcp_h_instance 12%Z].
Proof.
  pose (rp := sample_decode discover_datagram).
  assert (sample_decode discover_datagram = rp) as Epkt by reflexivity.
  vm_compute in rp.
  match eval unfold rp in rp with Ok ?pkt =>
    pose (re := sample_encode 1026%Z (mkIP 0 0)
                  [byte_pair 53 5; octets_pair 43 3 7; byte_pair 12 65]
                  (Some pkt));
    assert (sample_encode 1026%Z (mkIP 0 0)
              [byte_pair 53 5; octets_pair 43 3 7; byte_pair 12 65]
              (Some pkt) = re)
      as Eenc by reflexivity
  end.
  vm_compute in re.
  match eval unfold re in re with Ok ?reply =>
    match eval unfold rp in rp with Ok ?pkt =>
      pose proof (@fr_dhcp_encode_attributes little_endian_host
                    dhcp_h_instance sample_env
                    (reply_packet 1026%Z (mkIP 0 0)
                       [byte_pair 53 5; octets_pair 43 3 7;
                        byte_pair 12 65])
                    (Some pkt) reply eq_refl Eenc) as Hperm;
      exists pkt, reply
    end
  end.
  split; [exact Epkt|]. split; [exact Eenc|]. exact Hperm.
Defined.

Lemma fr_dhcp_encode_once_witness :
  ∃ pkt reply,
    sample_decode discover_datagram = Ok pkt ∧
    sample_encode 1026%Z (mkIP 0 0) [] (Some pkt) = Ok reply ∧
    @fr_dhcp_encode little_endian_host dhcp_h_instance sample_env reply None
      = Ok reply.
Proof.
  pose (rp := sample_decode discover_datagram).
  assert (sample_decode discover_datagram = rp) as Epkt by reflexivity.
  vm_compute in rp.
  match eval unfold rp in rp with Ok ?pkt =>
    pose (re := sample_encode 1026%Z (mkIP 0 0) [] (Some pkt));
    assert (sample_encode 1026%Z (mkIP 0 0) [] (Some pkt) = re) as Eenc
      by reflexivity
  end.
  vm_compute in re.
  match eval unfold re in re with Ok ?reply =>
    match eval unfold rp in rp with Ok ?pkt =>
      pose proof (@fr_dhcp_encode_once little_endian_host dhcp_h_instance
                    sample_env sample_env
                    (reply_packet 1026%Z (mkIP 0 0) [])
                    (Some pkt) None reply eq_refl Eenc) as Honce;
      exists pkt, reply
    end
  end.
  split; [exact Epkt|]. split; [exact Eenc|]. exact Honce.
Defined.

Lemma encode_dst_flags_big_endian_witness :
  @encode_dst big_endian_host dhcp_h_instance 1026%Z 0%Z broadcast_datagram
  = Ok (@htonl big_endian_host INADDR_BROADCAST).
Proof.
  exact (@encode_dst_flags_big_endian 1026%Z 0%Z broadcast_datagram
           0x80%Z 0%Z dhcp_h_instance eq_refl eq_refl
           ltac:(unfold is_byte; lia) eq_refl eq_refl
           ltac:(vm_compute; lia)
           ltac:(intros Hc; vm_compute in Hc; discriminate Hc)).
Defined.

Lemma qsort_attr_cmp_sorted_witness :
  qsort (@attr_cmp dhcp_h_instance)
    [byte_pair 12 65; octets_pair 43 3 7; byte_pair 6 1]
  ≡ₚ [byte_pair 12 65; octets_pair 43 3 7; byte_pair 6 1] ∧
  StronglySorted (λ a b, (attribute a ≤ attribute b)%Z)
    (qsort (@attr_cmp dhcp_h_instance)
       [byte_pair 12 65; octets_pair 43 3 7; byte_pair 6 1]).
Proof.
  apply (@qsort_attr_cmp_sorted dhcp_h_instance).
  - repeat (apply Forall_cons_2;
            [split; intros Ha; vm_compute in Ha; discriminate Ha|]).
    apply Forall_nil_2.
  - repeat (apply Forall_cons_2; [split; by vm_compute|]).
    apply Forall_nil_2.
Defined.

Lemma encode_auth_token_witness :
  ∃ l' vp',
    @encode_auth dhcp_h_instance sample_env [auth_pair; password_pair]
      = Ok l' ∧
    l' = <[0 := vp']> [auth_pair; password_pair] ∧
    vp_octets vp' !! 0 = Some 0%Z ∧ vp_octets vp' !! 1 = Some 0%Z ∧
    vp_length vp' = 17 ∧
    take 6 (drop 11 (vp_octets vp')) = [115; 101; 99; 114; 101; 116]%Z.
Proof.
  pose (r := @encode_auth dhcp_h_instance sample_env
               [auth_pair; password_pair]).
  assert (@encode_auth dhcp_h_instance sample_env
            [auth_pair; password_pair] = r) as E by reflexivity.
  vm_compute in r.
  match eval unfold r in r with Ok ?l' =>
    destruct (@encode_auth_token dhcp_h_instance sample_env
                [auth_pair; password_pair] l' 0 auth_pair E eq_refl
                ltac:(intros Hc; vm_compute in Hc; discriminate Hc)
                eq_refl)
      as (vp' & Hl & _ & H0 & H1 & Hlen & _ & Hpass);
    exists l', vp'
  end.
  split; [exact E|]. split; [exact Hl|]. split; [exact H0|].
  split; [exact H1|]. split; [exact Hlen|exact Hpass].
Defined.

Lemma fr_dhcp_decode_terminates_witness :
  ∃ pkt,
    sample_recv truncated_datagram = Ok pkt ∧
    terminates (@fr_dhcp_decode little_endian_host dhcp_h_instance
                  dict_instance pkt).
Proof.
  pose (rp := sample_recv truncated_datagram).
  assert (sample_recv truncated_datagram = rp) as Epkt by reflexivity.
  vm_compute in rp.
  match eval unfold rp in rp with Ok ?pkt =>
    exists pkt; split; [exact Epkt|];
    apply (@fr_dhcp_decode_terminates little_endian_host dhcp_h_instance
             dict_instance pkt truncated_datagram eq_refl);
    all_bytes
  end.
Defined.


Lemma fr_dhcp_decode_header_first_witness :
  ∃ pkt pkt' hdr opts,
    sample_recv dns_datagram = Ok pkt ∧
    @fr_dhcp_decode little_endian_host dhcp_h_instance dict_instance pkt
      = Ok pkt' ∧
    @decode_header little_endian_host dict_instance
      dns_datagram header_fields 0 [] = Ok hdr ∧
    length hdr ≤ 14 ∧
    attribute <$> vps pkt' = attribute <$> (hdr ++ opts).
Proof.
  pose (rp := sample_recv dns_datagram).
  assert (sample_recv dns_datagram = rp) as Epkt by reflexivity.
  vm_compute in rp.
  match eval unfold rp in rp with Ok ?pkt =>
    pose (rd := @fr_dhcp_decode little_endian_host dhcp_h_instance
                  dict_instance pkt);
    assert (@fr_dhcp_decode little_endian_host dhcp_h_instance
              dict_instance pkt = rd) as Edec by reflexivity
  end.
  vm_compute in rd.
  match eval unfold rd in rd with Ok ?pkt' =>
    match eval unfold rp in rp with Ok ?pkt =>
      destruct (@fr_dhcp_decode_header_first little_endian_host
                  dhcp_h_instance dict_instance pkt pkt' dns_datagram
                  Edec eq_refl)
        as (hdr & opts & Hhdr & Hlen & _ & Hattrs);
      exists pkt, pkt', hdr, opts
    end
  end.
  split; [exact Epkt|]. split; [exact Edec|]. split; [exact Hhdr|].
  split; [exact Hlen|exact Hattrs].
Defined.

Lemma fr_dhcp_decode_well_formed_safe_witness :
  ∃ pkt,
    sample_recv dns_datagram = Ok pkt ∧
    safe (@fr_dhcp_decode little_endian_host dhcp_h_instance
            dict_instance pkt).
Proof.
  pose (rp := sample_recv dns_datagram).
  assert (sample_recv dns_datagram = rp) as Epkt by reflexivity.
  vm_compute in rp.
  match eval unfold rp in rp with Ok ?pkt =>
    exists pkt; split; [exact Epkt|];
    apply (@fr_dhcp_decode_well_formed_safe little_endian_host
             dhcp_h_instance dict_instance pkt dns_datagram 253
             eq_refl eq_refl)
  end.
  - apply (tlv_stream_option _ 240 253 1%Z); [reflexivity|lia|].
    apply (tlv_stream_option _ _ 253 8%Z); [reflexivity|lia|].
    apply tlv_stream_end.
  - reflexivity.
  - apply dict_instance_coherent.
Defined.

